(** * Relix: range resolution, overlap detection and the release store

    A shallow embedding of the three route handlers of the changelog
    service and of the helpers they call:

    - [Generate]  : the generate route (tag and date resolution, the
      compare call, the overlap check, the drafting call, its POST handler);
    - [Releases]  : the releases route (GET list, PUT markdown, POST publish);
    - [Console]   : the part of the console form that builds the payload
      sent to the generate route.

    The commit-history provider, the text generator and the relational
    store are outside the repository.  The provider and the generator are
    taken as fixed fakes (records of response functions); the store is an
    in-memory table with the PostgREST behaviour the handlers rely on.  What
    the drafting code leaves to the JavaScript engine (reading a date string,
    sorting dates) is a record of functions as well. *)

From Stdlib Require Import String Ascii List ZArith Bool Lia Sorted Permutation
  DecimalString.
Import ListNotations.
Open Scope string_scope.

(** ** JavaScript values the handlers test and format *)

Module JS.

(** [!!v] for an optional string: [undefined] and [""] are falsy. *)
Definition truthy (v : option string) : bool :=
  match v with
  | Some s => negb (s =? "")
  | None => false
  end.

(** [v || d] *)
Definition or_else (v : option string) (d : string) : string :=
  match v with
  | Some s => if s =? "" then d else s
  | None => d
  end.

(** [`${v}`] *)
Definition template (v : option string) : string :=
  match v with
  | Some s => s
  | None => "undefined"
  end.

(** [hay.includes(needle)] *)
Definition includes (hay needle : string) : bool :=
  match index 0 needle hay with
  | Some _ => true
  | None => false
  end.

(** [`${n}`] for an integer *)
Definition show (n : Z) : string := NilZero.string_of_int (Z.to_int n).

Definition nl : string := String "010"%char EmptyString.

(** [s.split('\n')[0]] *)
Fixpoint first_line (s : string) : string :=
  match s with
  | EmptyString => EmptyString
  | String c rest => if Ascii.eqb c "010"%char then EmptyString else String c (first_line rest)
  end.

(** [new Set(l).has(x)] *)
Definition has (l : list string) (x : string) : bool := existsb (String.eqb x) l.

End JS.

(** ** Exceptions and the two effect layers *)

Inductive exn : Type :=
| ZodError (issues : list string)
| Error (message : string).

Inductive outcome (A : Type) : Type :=
| Ret (a : A)
| Throw (e : exn).
Arguments Ret {A} a.
Arguments Throw {A} e.

Class MonadExn (F : Type -> Type) : Type := {
  ret : forall {A}, A -> F A;
  bind : forall {A B}, F A -> (A -> F B) -> F B;
  throw : forall {A}, exn -> F A
}.

Notation "x <- c1 ;; c2" := (bind c1 (fun x => c2))
  (at level 61, c1 at next level, right associativity).
Notation "c1 ;;; c2" := (bind c1 (fun _ => c2))
  (at level 61, right associativity).

(** *** Data of the commit-history provider *)

Inductive Mode : Type := Date | Sha | Tag.

Definition Mode_eqb (a b : Mode) : bool :=
  match a, b with
  | Date, Date | Sha, Sha | Tag, Tag => true
  | _, _ => false
  end.

(** [{ type, sha }], the [object] of a ref and of a tag object *)
Record GitObject : Type := { obj_type : string; obj_sha : string }.

(** body of [git/refs/tags/{tag}] and of [git/tags/{sha}] *)
Record Pointer : Type := { object : GitObject }.

(** an element of the commit listing and of [compareData.commits] *)
Record Commit : Type := {
  sha : string;
  commit_message : string;
  commit_author_name : string;
  commit_author_date : string
}.

Record Comparison : Type := { commits : option (list Commit) }.

Inductive Response (A : Type) : Type :=
| Success (body : A)
| Failure (status : Z) (statusText : string).
Arguments Success {A} body.
Arguments Failure {A} status statusText.

Inductive DateBound : Type :=
| Since (date : string)
| Until (date : string).

(** The requests the service sends to the provider. *)
Inductive Request : Type :=
| GetTagRef (repo tagname : string)
| GetTagObject (repo tagsha : string)
| ListCommits (repo branch : string) (bound : DateBound)
| Compare (repo base head : string).

(** A fixed fake provider: one response per request. *)
Record GitHub : Type := {
  git_refs_tags : string -> string -> Response Pointer;
  git_tags : string -> string -> Response Pointer;
  list_commits : string -> string -> DateBound -> Response (list Commit);
  compare : string -> string -> string -> Response Comparison
}.

(** *** The provider layer: a result and the requests sent for it *)

Definition G (A : Type) : Type := (outcome A * list Request)%type.

#[export] Instance G_monad : MonadExn G := {
  ret := fun A a => (Ret a, []);
  bind := fun A B m k =>
    match m with
    | (Ret a, sent) => let (r, sent') := k a in (r, (sent ++ sent')%list)
    | (Throw e, sent) => (Throw e, sent)
    end;
  throw := fun A e => (Throw e, [])
}.

Definition fetch {A : Type} (rq : Request) (resp : Response A) : G (Response A) :=
  (Ret resp, [rq]).

(** *** Data of the store *)

(** A row of [release_slices].  [published_at] is the instant of the
    TIMESTAMPTZ column, which the handlers only copy; [commits_list] is a
    nullable TEXT[] column. *)
Record ReleaseSlice : Type := {
  id : string;
  published_at : Z;
  repo : string;
  branch : string;
  mode : Mode;
  start_date : option string;
  end_date : option string;
  base_sha : option string;
  head_sha : option string;
  base_tag : option string;
  head_tag : option string;
  markdown : string;
  commits_list : option (list string);
  owner_id : option string
}.

(** [Partial<ReleaseSlice>] as the publish handler fills it *)
Record InsertData : Type := {
  ins_repo : string;
  ins_branch : string;
  ins_mode : Mode;
  ins_markdown : string;
  ins_commits_list : list string;
  ins_base_sha : string;
  ins_head_sha : string;
  ins_start_date : option string;
  ins_end_date : option string;
  ins_base_tag : option string;
  ins_head_tag : option string
}.

(** The table and the number of rows inserted so far. *)
Record Database : Type := {
  release_slices : list ReleaseSlice;
  serial : nat
}.

(** Column defaults and the input check of the TIMESTAMPTZ columns. *)
Record Postgres : Type := {
  gen_random_uuid : nat -> string;
  now : nat -> Z;
  timestamptz_in : string -> bool
}.

Record PostgrestResponse (A : Type) : Type := {
  data : option A;
  error : option string
}.
Arguments data {A} p.
Arguments error {A} p.

(** *** The text generator *)

Record CommitSummary : Type := {
  sum_sha : string;
  sum_message : string;
  sum_author : string;
  sum_date : string
}.

(** [openai.chat.completions.create]: it throws, or answers with
    [choices[0]?.message?.content]. *)
Record OpenAI : Type := {
  chat_completions_create : list CommitSummary -> outcome (option string)
}.

(** *** The JavaScript engine

    [new Date(s)] as the engine reads a string: the time value in
    milliseconds, or nothing for an Invalid Date.  [Array_sort] is the array
    that [dates.sort((a, b) => b.getTime() - a.getTime())] leaves; with an
    Invalid Date among them the comparator answers NaN and the order is the
    engine's. *)
Record Engine : Type := {
  Date_parse : string -> option Z;
  Array_sort : list (option Z) -> list (option Z)
}.

(** *** The handler layer: environment, table and a log of what was done *)

Record Env : Type := {
  GITHUB_PAT : option string;
  OPENAI_API_KEY : option string;
  NEXT_PUBLIC_SUPABASE_URL : option string;
  SUPABASE_SERVICE_ROLE_KEY : option string;
  HELICONE_API_KEY : option string
}.

Inductive Statement : Type :=
| SelectScope (repo branch : string)
| SelectRepo (repo : string) (branch : option string)
| InsertRow (row : InsertData)
| UpdateMarkdown (id markdown : string).

Inductive Effect : Type :=
| Sent (rq : Request)
| Sql (st : Statement)
| Chat (prompted : list CommitSummary).

Record World : Type := {
  env : Env;
  db : Database;
  trace : list Effect
}.

Definition M (A : Type) : Type := World -> outcome A * World.

#[export] Instance M_monad : MonadExn M := {
  ret := fun A a w => (Ret a, w);
  bind := fun A B m k w =>
    match m w with
    | (Ret a, w') => k a w'
    | (Throw e, w') => (Throw e, w')
    end;
  throw := fun A e w => (Throw e, w)
}.

(** [try { body } catch (error) { handler }] *)
Definition try_catch {A : Type} (body : M A) (handler : exn -> M A) : M A :=
  fun w =>
    match body w with
    | (Ret a, w') => (Ret a, w')
    | (Throw e, w') => handler e w'
    end.

Definition log (e : Effect) (w : World) : World :=
  {| env := env w; db := db w; trace := (trace w ++ [e])%list |}.

Definition set_db (d : Database) (w : World) : World :=
  {| env := env w; db := d; trace := trace w |}.

(** A provider call made from a handler: its requests are logged. *)
Definition liftG {A : Type} (g : G A) : M A :=
  fun w => (fst g, {| env := env w; db := db w; trace := (trace w ++ map Sent (snd g))%list |}).

Definition getenv : M Env := fun w => (Ret (env w), w).

(** *** What a handler answers: [NextResponse.json(body, { status })] *)

Inductive Json (A : Type) : Type :=
| Problem (message : string)
| Invalid (message : string) (details : list string)
| Document (a : A).
Arguments Problem {A} message.
Arguments Invalid {A} message details.
Arguments Document {A} a.

Record Reply (A : Type) : Type := { status : Z; json : Json A }.
Arguments status {A} r.
Arguments json {A} r.

Definition respond {A : Type} (body : Json A) (code : Z) : M (Reply A) :=
  ret {| status := code; json := body |}.

(** ** The store: the PostgREST calls the handlers make *)

Module Supabase.

Definition in_scope (r b : string) (row : ReleaseSlice) : bool :=
  (repo row =? r) && (branch row =? b).

Definition in_repo (r : string) (b : option string) (row : ReleaseSlice) : bool :=
  (repo row =? r) && (if JS.truthy b then branch row =? JS.template b else true).

(** [.order('published_at', { ascending: false })] *)
Fixpoint insert_desc (row : ReleaseSlice) (l : list ReleaseSlice) : list ReleaseSlice :=
  match l with
  | [] => [row]
  | x :: rest =>
      if (published_at x <=? published_at row)%Z then row :: l
      else x :: insert_desc row rest
  end.

Definition order_desc (l : list ReleaseSlice) : list ReleaseSlice :=
  fold_right insert_desc [] l.

(** [.select('id, commits_list').eq('repo', repo).eq('branch', branch)] *)
Definition select_scope (r b : string) : M (PostgrestResponse (list ReleaseSlice)) :=
  fun w =>
    (Ret {| data := Some (filter (in_scope r b) (release_slices (db w))); error := None |},
     log (Sql (SelectScope r b)) w).

(** [.select('*').eq('repo', repo)], [.eq('branch', branch)] when a branch
    is given, then the descending order *)
Definition select_repo (r : string) (b : option string)
  : M (PostgrestResponse (list ReleaseSlice)) :=
  fun w =>
    (Ret {| data := Some (order_desc (filter (in_repo r b) (release_slices (db w))));
            error := None |},
     log (Sql (SelectRepo r b)) w).

Definition set_markdown (md : string) (row : ReleaseSlice) : ReleaseSlice :=
  {| id := id row; published_at := published_at row; repo := repo row;
     branch := branch row; mode := mode row;
     start_date := start_date row; end_date := end_date row;
     base_sha := base_sha row; head_sha := head_sha row;
     base_tag := base_tag row; head_tag := head_tag row;
     markdown := md;
     commits_list := commits_list row; owner_id := owner_id row |}.

(** [.update({ markdown }).eq('id', id).select().single()]: [single]
    answers with an error instead of data unless exactly one row comes back.
    [id] is the primary key, so at most one row matches; with no match
    the statement changes nothing. *)
Definition update_markdown (key md : string) : M (PostgrestResponse ReleaseSlice) :=
  fun w =>
    let w1 := log (Sql (UpdateMarkdown key md)) w in
    let rows := release_slices (db w) in
    match filter (fun row => id row =? key) rows with
    | [hit] =>
        (Ret {| data := Some (set_markdown md hit); error := None |},
         set_db {| release_slices :=
                     map (fun row => if id row =? key then set_markdown md row else row) rows;
                   serial := serial (db w) |} w1)
    | _ =>
        (Ret {| data := None;
                error := Some "JSON object requested, multiple (or no) rows returned" |},
         w1)
    end.

Section Insert.
Variable pg : Postgres.

Definition column_ok (v : option string) : bool :=
  match v with
  | Some s => timestamptz_in pg s
  | None => true
  end.

Definition new_row (n : nat) (d : InsertData) : ReleaseSlice :=
  {| id := gen_random_uuid pg n; published_at := now pg n;
     repo := ins_repo d; branch := ins_branch d; mode := ins_mode d;
     start_date := ins_start_date d; end_date := ins_end_date d;
     base_sha := Some (ins_base_sha d); head_sha := Some (ins_head_sha d);
     base_tag := ins_base_tag d; head_tag := ins_head_tag d;
     markdown := ins_markdown d;
     commits_list := Some (ins_commits_list d); owner_id := None |}.

(** [.insert(insertData).select().single()] *)
Definition insert (d : InsertData) : M (PostgrestResponse ReleaseSlice) :=
  fun w =>
    let w1 := log (Sql (InsertRow d)) w in
    if column_ok (ins_start_date d) && column_ok (ins_end_date d) then
      let row := new_row (serial (db w)) d in
      (Ret {| data := Some row; error := None |},
       set_db {| release_slices := (release_slices (db w) ++ [row])%list;
                 serial := S (serial (db w)) |} w1)
    else
      (Ret {| data := None;
              error := Some "invalid input syntax for type timestamp with time zone" |},
       w1).
End Insert.

End Supabase.

(** ** The generate route *)

Record Params : Type := {
  p_start : option string;
  p_end : option string;
  p_base : option string;
  p_head : option string
}.

Record ShaRange : Type := { baseSha : string; headSha : string }.

Module Generate.

Record Body : Type := {
  body_repo : option string;
  body_branch : option string;
  body_mode : option string;
  body_params : Params
}.

Record Validated : Type := {
  v_repo : string;
  v_branch : string;
  v_mode : Mode;
  v_params : Params
}.

Record Draft : Type := {
  d_markdown : string;
  d_repo : string;
  d_branch : string;
  d_mode : Mode;
  d_baseSha : string;
  d_headSha : string;
  d_commits_list : list string;
  d_originalParams : Params
}.

Definition parse_mode (s : string) : option Mode :=
  if s =? "date" then Some Date
  else if s =? "sha" then Some Sha
  else if s =? "tag" then Some Tag
  else None.

(** [generateSchema.parse(body)] *)
Definition generateSchema_parse (b : Body) : M Validated :=
  let repo_issues :=
    match body_repo b with
    | None => ["repo: Required"]
    | Some r => if r =? "" then ["repo: Repository is required"] else []
    end in
  let mode_issues :=
    match body_mode b with
    | None => ["mode: Required"]
    | Some m => match parse_mode m with Some _ => [] | None => ["mode: Invalid enum value"] end
    end in
  match (repo_issues ++ mode_issues)%list, body_repo b, body_mode b with
  | [], Some r, Some m =>
      match parse_mode m with
      | Some md =>
          ret {| v_repo := r;
                 v_branch := match body_branch b with Some s => s | None => "main" end;
                 v_mode := md;
                 v_params := body_params b |}
      | None => throw (ZodError mode_issues)
      end
  | issues, _, _ => throw (ZodError issues)
  end.

Definition validateEnvironment : M Env :=
  e <- getenv ;;
  let required :=
    [("GITHUB_PAT", GITHUB_PAT e);
     ("OPENAI_API_KEY", OPENAI_API_KEY e);
     ("NEXT_PUBLIC_SUPABASE_URL", NEXT_PUBLIC_SUPABASE_URL e);
     ("SUPABASE_SERVICE_ROLE_KEY", SUPABASE_SERVICE_ROLE_KEY e);
     ("HELICONE_API_KEY", HELICONE_API_KEY e)] in
  let missing := map fst (filter (fun kv => negb (JS.truthy (snd kv))) required) in
  if (0 <? length missing)%nat
  then throw (Error ("Missing required environment variables: " ++ String.concat ", " missing))
  else ret e.

Definition initializeOpenAI : M unit :=
  validateEnvironment ;;; ret tt.

Section Provider.
Variable gh : GitHub.

(** Resolve a tag to its commit SHA *)
Definition resolveTagToSha (repo tag : string) : G string :=
  response <- fetch (GetTagRef repo tag) (git_refs_tags gh repo tag) ;;
  match response with
  | Failure status statusText =>
      if (status =? 404)%Z
      then throw (Error ("Tag '" ++ tag ++ "' not found"))
      else throw (Error ("GitHub API error: " ++ JS.show status ++ " " ++ statusText))
  | Success tagData =>
      if obj_type (object tagData) =? "tag" then
        tagResponse <- fetch (GetTagObject repo (obj_sha (object tagData)))
                             (git_tags gh repo (obj_sha (object tagData))) ;;
        match tagResponse with
        | Failure status statusText =>
            throw (Error ("Failed to resolve annotated tag: "
                          ++ JS.show status ++ " " ++ statusText))
        | Success annotatedTag => ret (obj_sha (object annotatedTag))
        end
      else ret (obj_sha (object tagData))
  end.

(** Find the SHA of the first commit in a date range.  The body of a
    successful listing is an array, so [!Array.isArray(commits)] has no case
    here. *)
Definition findCommitShaByDate (repo branch date : string) (isStart : bool) : G string :=
  let bound := if isStart then Since date else Until date in
  response <- fetch (ListCommits repo branch bound) (list_commits gh repo branch bound) ;;
  match response with
  | Failure status statusText =>
      throw (Error ("GitHub API error: " ++ JS.show status ++ " " ++ statusText))
  | Success commits =>
      if (length commits =? 0)%nat
      then throw (Error ("No commits found " ++ (if isStart then "since" else "until")
                         ++ " " ++ date))
      else
        match nth_error commits (if isStart then length commits - 1 else 0)%nat with
        | Some c => ret (sha c)
        | None => throw (Error "Cannot read properties of undefined (reading 'sha')")
        end
  end.

(** Convert any range type to SHA range.  [mode] is one of the three
    values of the schema's enum, so the source's last branch ("Invalid
    mode") has no case here. *)
Definition convertToShaRange (repo branch : string) (mode : Mode) (params : Params)
  : G ShaRange :=
  match mode with
  | Date =>
      if negb (JS.truthy (p_start params)) || negb (JS.truthy (p_end params))
      then throw (Error "Start and end dates are required for date mode")
      else
        b <- findCommitShaByDate repo branch (JS.template (p_start params)) true ;;
        h <- findCommitShaByDate repo branch (JS.template (p_end params)) false ;;
        ret {| baseSha := b; headSha := h |}
  | Tag =>
      if negb (JS.truthy (p_base params)) || negb (JS.truthy (p_head params))
      then throw (Error "Base and head tags are required for tag mode")
      else
        b <- resolveTagToSha repo (JS.template (p_base params)) ;;
        h <- (if JS.template (p_head params) =? "HEAD" then ret "HEAD"
              else resolveTagToSha repo (JS.template (p_head params))) ;;
        ret {| baseSha := b; headSha := h |}
  | Sha =>
      if negb (JS.truthy (p_base params)) || negb (JS.truthy (p_head params))
      then throw (Error "Base and head SHAs are required for SHA mode")
      else ret {| baseSha := JS.template (p_base params);
                  headSha := JS.template (p_head params) |}
  end.

Definition fetchCommits (repo branch : string) (mode : Mode) (params : Params)
  : G (list Commit) :=
  range <- convertToShaRange repo branch mode params ;;
  response <- fetch (Compare repo (baseSha range) (headSha range))
                    (compare gh repo (baseSha range) (headSha range)) ;;
  match response with
  | Failure status statusText =>
      if (status =? 404)%Z
      then throw (Error "Repository not found or commit range not accessible")
      else throw (Error ("GitHub API error: " ++ JS.show status ++ " " ++ statusText))
  | Success compareData =>
      ret (match commits compareData with Some l => l | None => [] end)
  end.
End Provider.

(** The rows of one release against the new commits:
    [existingCommitsList.some(commitSha => newCommitShas.has(commitSha))] *)
Definition some_has (existing : ReleaseSlice) (newCommitShas : list string) : bool :=
  let existingCommitsList :=
    match commits_list existing with Some l => l | None => [] end in
  existsb (fun commitSha => JS.has newCommitShas commitSha) existingCommitsList.

(** Helper function to check for overlapping commits *)
Definition checkCommitsOverlap (repo branch : string) (newCommitsList : list string)
  : M bool :=
  validateEnvironment ;;;
  answer <- Supabase.select_scope repo branch ;;
  match error answer with
  | Some _ => throw (Error "Database query failed")
  | None =>
      match data answer with
      | None => ret false
      | Some rows =>
          if (length rows =? 0)%nat then ret false
          else ret (existsb (fun existing => some_has existing newCommitsList) rows)
      end
  end.

Section Drafting.
Variable js : Engine.
Variable ai : OpenAI.

Definition fallback : string :=
  "# Changelog" ++ JS.nl ++ JS.nl ++ "Failed to generate changelog.".

(** The element of [commitSummaries] made of one commit. *)
Definition commitSummary (commit : Commit) : CommitSummary :=
  {| sum_sha := substring 0 7 (sha commit);
     sum_message := JS.first_line (commit_message commit);
     sum_author := commit_author_name commit;
     sum_date := commit_author_date commit |}.

(** [formatDate(date)], that is [date.toISOString().split('T')[0]], on an
    element read from [dates]: reading an empty array gives [undefined],
    and an Invalid Date has no ISO form.  The day it returns goes into the
    prompt and nowhere else. *)
Definition formatDate (date : option (option Z)) : M unit :=
  match date with
  | None => throw (Error "Cannot read properties of undefined (reading 'toISOString')")
  | Some None => throw (Error "Invalid time value")
  | Some (Some _) => ret tt
  end.

(** The prompt is a fixed text around the day of the latest date, the days
    of the earliest and the latest date, and the commit summaries.  The
    days are read off the summaries, so the call is modelled on the
    summaries. *)
Definition generateChangelog (commits : list Commit) : M string :=
  let commitSummaries := map commitSummary commits in
  let dates := Array_sort js (map (fun c => Date_parse js (sum_date c)) commitSummaries) in
  let latestDate := nth_error dates 0 in
  let earliestDate := nth_error dates (length dates - 1) in
  formatDate latestDate ;;;
  formatDate earliestDate ;;;
  formatDate latestDate ;;;
  fun w =>
    let w1 := log (Chat commitSummaries) w in
    match chat_completions_create ai commitSummaries with
    | Throw e => (Throw e, w1)
    | Ret content => (Ret (JS.or_else content fallback), w1)
    end.
End Drafting.

Section Handler.
Variable gh : GitHub.
Variable js : Engine.
Variable ai : OpenAI.

Definition emptyRangeMessage (v : Validated) : string :=
  let p := v_params v in
  match v_mode v with
  | Date => "No commits found between " ++ JS.template (p_start p) ++ " and "
            ++ JS.template (p_end p) ++ " on branch '" ++ v_branch v ++ "'."
  | Sha => "No commits found between SHA '" ++ JS.template (p_base p) ++ "' and '"
           ++ JS.template (p_head p) ++ "' on branch '" ++ v_branch v ++ "'."
  | Tag => "No commits found between tag '" ++ JS.template (p_base p) ++ "' and '"
           ++ JS.template (p_head p) ++ "' on branch '" ++ v_branch v ++ "'."
  end.

Definition overlapMessage : string :=
  "A changelog for this commit range already exists. Some commits have already been included in another changelog.".

Definition on_error (e : exn) : M (Reply Draft) :=
  match e with
  | ZodError issues => respond (Invalid "Invalid request data" issues) 400
  | Error message =>
      if JS.includes message "Missing required environment variables"
      then respond (Problem "Server configuration error") 500
      else if JS.includes message "Repository not found"
      then respond (Problem "Repository not found or not accessible") 404
      else if JS.includes message "Tag" && JS.includes message "not found"
      then respond (Problem message) 404
      else if JS.includes message "GitHub API error"
      then respond (Problem "Failed to fetch repository data") 502
      else if JS.includes message "OpenAI"
      then respond (Problem "AI service unavailable") 503
      else respond (Problem "Internal server error") 500
  end.

(** Main API handler *)
Definition POST (body : Body) : M (Reply Draft) :=
  try_catch
    (initializeOpenAI ;;;
     validatedData <- generateSchema_parse body ;;
     let repo := v_repo validatedData in
     let branch := v_branch validatedData in
     let mode := v_mode validatedData in
     let params := v_params validatedData in
     range <- liftG (convertToShaRange gh repo branch mode params) ;;
     commits <- liftG (fetchCommits gh repo branch mode params) ;;
     if (length commits =? 0)%nat
     then respond (Problem (emptyRangeMessage validatedData)) 404
     else
       let commitsList := map sha commits in
       hasOverlap <- checkCommitsOverlap repo branch commitsList ;;
       if hasOverlap then respond (Problem overlapMessage) 400
       else
         markdown <- generateChangelog js ai commits ;;
         respond (Document {| d_markdown := markdown; d_repo := repo;
                              d_branch := branch; d_mode := mode;
                              d_baseSha := baseSha range; d_headSha := headSha range;
                              d_commits_list := commitsList;
                              d_originalParams := params |}) 200)
    on_error.
End Handler.

End Generate.

(** ** The releases route *)

Module Releases.

(** The frontend format of a release. *)
Record Release : Type := {
  r_id : string;
  r_repo : string;
  r_tag : option string;
  r_range : string;
  r_publishedAt : Z;
  r_markdown : string;
  r_mode : Mode;
  r_branch : string
}.

Record Body : Type := {
  body_repo : option string;
  body_branch : option string;
  body_mode : option string;
  body_baseSha : option string;
  body_headSha : option string;
  body_markdown : option string;
  body_commits_list : option (list string);
  body_originalParams : option Params
}.

Record Validated : Type := {
  v_repo : string;
  v_branch : string;
  v_mode : Mode;
  v_baseSha : string;
  v_headSha : string;
  v_markdown : string;
  v_commits_list : list string;
  v_originalParams : option Params
}.

Record Edit : Type := { edit_id : option string; edit_markdown : option string }.

Definition validateEnvironment : M Env :=
  e <- getenv ;;
  let required :=
    [("NEXT_PUBLIC_SUPABASE_URL", NEXT_PUBLIC_SUPABASE_URL e);
     ("SUPABASE_SERVICE_ROLE_KEY", SUPABASE_SERVICE_ROLE_KEY e)] in
  let missing := map fst (filter (fun kv => negb (JS.truthy (snd kv))) required) in
  if (0 <? length missing)%nat
  then throw (Error ("Missing required environment variables: " ++ String.concat ", " missing))
  else ret e.

(** [z.string().min(1, message)] on one field *)
Definition min1 (field message : string) (v : option string) : list string :=
  match v with
  | None => [field ++ ": Required"]
  | Some s => if s =? "" then [field ++ ": " ++ message] else []
  end.

(** [createReleaseSchema.parse(body)] *)
Definition createReleaseSchema_parse (b : Body) : M Validated :=
  let issues :=
    (min1 "repo" "Repository is required" (body_repo b)
     ++ match body_mode b with
        | None => ["mode: Required"]
        | Some m => match Generate.parse_mode m with
                    | Some _ => []
                    | None => ["mode: Invalid enum value"]
                    end
        end
     ++ min1 "baseSha" "Base SHA is required" (body_baseSha b)
     ++ min1 "headSha" "Head SHA is required" (body_headSha b)
     ++ min1 "markdown" "Markdown content is required" (body_markdown b)
     ++ match body_commits_list b with
        | None => ["commits_list: Required"]
        | Some [] => ["commits_list: Commits list is required"]
        | Some (_ :: _) => []
        end)%list in
  match issues, body_repo b, body_mode b, body_baseSha b, body_headSha b,
        body_markdown b, body_commits_list b with
  | [], Some r, Some m, Some bs, Some hs, Some md, Some cl =>
      match Generate.parse_mode m with
      | Some mo =>
          ret {| v_repo := r;
                 v_branch := match body_branch b with Some s => s | None => "main" end;
                 v_mode := mo; v_baseSha := bs; v_headSha := hs; v_markdown := md;
                 v_commits_list := cl; v_originalParams := body_originalParams b |}
      | None => throw (ZodError issues)
      end
  | _, _, _, _, _, _, _ => throw (ZodError issues)
  end.

Section Rendering.
(** [new Date(s).toISOString().split('T')[0]] *)
Variable isoDay : string -> string.

(** Transform database record to frontend format *)
Definition transformReleaseSlice (slice : ReleaseSlice) : Release :=
  let day (v : option string) :=
    if JS.truthy v then isoDay (JS.template v) else "unknown" in
  let short (v : option string) :=
    JS.or_else (option_map (substring 0 7) v) "unknown" in
  let tag :=
    match mode slice with
    | Tag => Some (JS.or_else (head_tag slice) "unknown")
    | _ => None
    end in
  let range :=
    match mode slice with
    | Date => day (start_date slice) ++ " to " ++ day (end_date slice)
    | Sha => short (base_sha slice) ++ "..." ++ short (head_sha slice)
    | Tag => JS.or_else (base_tag slice) "unknown" ++ "..."
             ++ JS.or_else (head_tag slice) "unknown"
    end in
  {| r_id := id slice; r_repo := repo slice; r_tag := tag; r_range := range;
     r_publishedAt := published_at slice; r_markdown := markdown slice;
     r_mode := mode slice; r_branch := branch slice |}.

Definition on_error {A : Type} (e : exn) : M (Reply A) :=
  match e with
  | Error message =>
      if JS.includes message "Missing required environment variables"
      then respond (Problem "Server configuration error") 500
      else respond (Problem "Internal server error") 500
  | ZodError _ => respond (Problem "Internal server error") 500
  end.

(** GET handler - fetch releases for a repository *)
Definition GET (repo branch : option string) : M (Reply (list Release)) :=
  try_catch
    (validateEnvironment ;;;
     if negb (JS.truthy repo)
     then respond (Problem "Repository parameter is required") 400
     else
       answer <- Supabase.select_repo (JS.template repo) branch ;;
       match error answer with
       | Some _ => respond (Problem "Failed to fetch releases") 500
       | None =>
           let rows := match data answer with Some l => l | None => [] end in
           respond (Document (map transformReleaseSlice rows)) 200
       end)
    on_error.

(** PUT handler - update existing release markdown *)
Definition PUT (body : Edit) : M (Reply Release) :=
  try_catch
    (validateEnvironment ;;;
     if negb (JS.truthy (edit_id body)) || negb (JS.truthy (edit_markdown body))
     then respond (Problem "ID and markdown are required") 400
     else
       answer <- Supabase.update_markdown (JS.template (edit_id body))
                                          (JS.template (edit_markdown body)) ;;
       match error answer with
       | Some _ => respond (Problem "Failed to update changelog") 500
       | None =>
           match data answer with
           | None => respond (Problem "Changelog not found") 404
           | Some row => respond (Document (transformReleaseSlice row)) 200
           end
       end)
    on_error.

Section Publish.
Variable pg : Postgres.

Definition insertData (v : Validated) : InsertData :=
  let original (field : Params -> option string) : option string :=
    match v_originalParams v with
    | Some p => if JS.truthy (field p) then field p else None
    | None => None
    end in
  let when_tag (x : option string) : option string :=
    if Mode_eqb (v_mode v) Tag then x else None in
  {| ins_repo := v_repo v; ins_branch := v_branch v; ins_mode := v_mode v;
     ins_markdown := v_markdown v;
     ins_commits_list := v_commits_list v;
     ins_base_sha := v_baseSha v;
     ins_head_sha := v_headSha v;
     ins_start_date := original p_start;
     ins_end_date := original p_end;
     ins_base_tag := when_tag (original p_base);
     ins_head_tag := when_tag (original p_head) |}.

Definition on_post_error (e : exn) : M (Reply Release) :=
  match e with
  | ZodError issues => respond (Invalid "Invalid request data" issues) 400
  | Error message =>
      if JS.includes message "Missing required environment variables"
      then respond (Problem "Server configuration error") 500
      else if JS.includes message "Database"
      then respond (Problem "Database operation failed") 500
      else respond (Problem "Internal server error") 500
  end.

(** POST handler - create new release with markdown *)
Definition POST (body : Body) : M (Reply Release) :=
  try_catch
    (validateEnvironment ;;;
     validatedData <- createReleaseSchema_parse body ;;
     answer <- Supabase.insert pg (insertData validatedData) ;;
     match error answer, data answer with
     | Some _, _ => respond (Problem "Failed to save changelog to database") 500
     | None, Some row => respond (Document (transformReleaseSlice row)) 201
     | None, None =>
         throw (Error "Cannot read properties of null (reading 'mode')")
     end)
    on_post_error.
End Publish.
End Rendering.

End Releases.

(** ** The console form: the payload sent to the generate route *)

Module Console.

Record Form : Type := {
  branch : string;
  rangeType : Mode;
  startDate : string;
  endDate : string;
  baseTag : string;
  headTag : string;
  baseSha : string;
  headSha : string
}.

Record GeneratePayload : Type := {
  pl_repo : string;
  pl_branch : string;
  pl_mode : Mode;
  pl_params : Params
}.

Definition nonempty (s : string) : bool := negb (s =? "").

Section Payload.
(** [new Date(s).toISOString()] *)
Variable toISOString : string -> string.

(** The payload [handleGenerate] builds from the form, or the title of
    the toast it shows instead; [repo] is what [extractRepoFromUrl]
    found in the URL field. *)
Definition handleGenerate_payload (repo : option string) (f : Form)
  : string + GeneratePayload :=
  if negb (JS.truthy repo) then inl "Invalid Repository"
  else
    let payload (p : Params) :=
      {| pl_repo := JS.template repo; pl_branch := branch f;
         pl_mode := rangeType f; pl_params := p |} in
    match rangeType f with
    | Date =>
        if negb (nonempty (startDate f)) || negb (nonempty (endDate f))
        then inl "Missing Dates"
        else inr (payload {| p_start := Some (toISOString (startDate f));
                             p_end := Some (toISOString (endDate f));
                             p_base := None; p_head := None |})
    | Tag =>
        if negb (nonempty (baseTag f)) then inl "Missing Base Tag"
        else inr (payload {| p_start := None; p_end := None;
                             p_base := Some (baseTag f);
                             p_head := Some (JS.or_else (Some (headTag f)) "HEAD") |})
    | Sha =>
        if negb (nonempty (baseSha f)) then inl "Missing Base SHA"
        else inr (payload {| p_start := None; p_end := None;
                             p_base := Some (baseSha f);
                             p_head := Some (JS.or_else (Some (headSha f)) "HEAD") |})
    end.
End Payload.

End Console.

(** ** The provider's commit listing

    The boundary lookup asks for [commits?sha={branch}&per_page=100] with
    [since] or [until] and reads one page.  The provider answers with the
    commits of the branch inside the window, newest first, cut at the page
    size.  [instant] is the instant a date string denotes. *)

Section Listing.
Variable instant : string -> Z.

Definition per_page : nat := 100.

Definition in_window (bound : DateBound) (c : Commit) : bool :=
  match bound with
  | Since date => (instant date <=? instant (commit_author_date c))%Z
  | Until date => (instant (commit_author_date c) <=? instant date)%Z
  end.

Definition window (bound : DateBound) (history : list Commit) : list Commit :=
  filter (in_window bound) history.

Definition first_page (bound : DateBound) (history : list Commit) : list Commit :=
  firstn per_page (window bound history).

Definition newer_or_same (a b : Commit) : Prop :=
  (instant (commit_author_date b) <= instant (commit_author_date a))%Z.

Definition newest_first (history : list Commit) : Prop :=
  StronglySorted newer_or_same history.

(** The same, as a check that runs. *)
Fixpoint newest_firstb (history : list Commit) : bool :=
  match history with
  | [] => true
  | c :: rest =>
      forallb (fun c' => (instant (commit_author_date c')
                          <=? instant (commit_author_date c))%Z) rest
      && newest_firstb rest
  end.

(** [gh] lists [history] for the branch the way the provider does. *)
Definition lists_history (gh : GitHub) (repo branch : string) (history : list Commit)
  : Prop :=
  forall bound, list_commits gh repo branch bound = Success (first_page bound history).

Definition oldest_at_or_after (history : list Commit) (date : string) (c : Commit) : Prop :=
  In c history
  /\ (instant date <= instant (commit_author_date c))%Z
  /\ forall c', In c' history ->
       (instant date <= instant (commit_author_date c'))%Z ->
       (instant (commit_author_date c) <= instant (commit_author_date c'))%Z.

Definition newest_at_or_before (history : list Commit) (date : string) (c : Commit) : Prop :=
  In c history
  /\ (instant (commit_author_date c) <= instant date)%Z
  /\ forall c', In c' history ->
       (instant (commit_author_date c') <= instant date)%Z ->
       (instant (commit_author_date c') <= instant (commit_author_date c))%Z.
End Listing.

(** ** Environment checks and the sets the overlap check compares *)

Definition configured_generate (e : Env) : bool :=
  JS.truthy (GITHUB_PAT e) && JS.truthy (OPENAI_API_KEY e)
  && JS.truthy (NEXT_PUBLIC_SUPABASE_URL e) && JS.truthy (SUPABASE_SERVICE_ROLE_KEY e)
  && JS.truthy (HELICONE_API_KEY e).

Definition configured_releases (e : Env) : bool :=
  JS.truthy (NEXT_PUBLIC_SUPABASE_URL e) && JS.truthy (SUPABASE_SERVICE_ROLE_KEY e).

(** The commit SHAs a persisted record covers. *)
Definition commitShas (row : ReleaseSlice) : list string :=
  match commits_list row with
  | Some l => l
  | None => []
  end.

(** The record was stored with a [commits_list]. *)
Definition has_commits_list (row : ReleaseSlice) : bool :=
  match commits_list row with
  | Some _ => true
  | None => false
  end.

(** Non-empty intersection of two SHA collections. *)
Definition intersects (a b : list string) : Prop :=
  exists s, In s a /\ In s b.

(** Some persisted record of the scope shares a commit with the candidate. *)
Definition overlap_in_scope (d : Database) (r b : string) (candidate : list string) : Prop :=
  exists row, In row (release_slices d) /\ repo row = r /\ branch row = b
              /\ intersects (commitShas row) candidate.

(** The request lacks a field its mode requires: both dates in date mode,
    the base in tag and sha mode. *)
Definition lacks_required_field (m : Mode) (p : Params) : bool :=
  match m with
  | Date => negb (JS.truthy (p_start p)) || negb (JS.truthy (p_end p))
  | Tag | Sha => negb (JS.truthy (p_base p))
  end.

(** Two rows that agree on every column but [markdown]. *)
Definition same_but_markdown (old new : ReleaseSlice) : Prop :=
  id new = id old /\ published_at new = published_at old
  /\ repo new = repo old /\ branch new = branch old /\ mode new = mode old
  /\ start_date new = start_date old /\ end_date new = end_date old
  /\ base_sha new = base_sha old /\ head_sha new = head_sha old
  /\ base_tag new = base_tag old /\ head_tag new = head_tag old
  /\ commits_list new = commits_list old /\ owner_id new = owner_id old.

(** Equality of two SHA collections as sets. *)
Definition same_set (a b : list string) : Prop :=
  forall s, In s a <-> In s b.

(** No generator call among the logged effects. *)
Definition is_chat (e : Effect) : bool :=
  match e with
  | Chat _ => true
  | _ => false
  end.

(** ** A small deployment used to run the handlers *)

Module Demo.

(** Basic-format dates such as ["20240101"] read as numbers. *)
Definition instant (s : string) : Z :=
  match NilZero.int_of_string s with
  | Some i => Z.of_int i
  | None => 0%Z
  end.

Definition commit (s date : string) : Commit :=
  {| sha := s; commit_message := "work on " ++ s;
     commit_author_name := "octo"; commit_author_date := date |}.

Definition a1 : Commit := commit "a1" "20240101".
Definition a2 : Commit := commit "a2" "20240102".
Definition a3 : Commit := commit "a3" "20240103".

Definition history : list Commit := [a3; a2; a1].

(** One repository, ["octo/demo"]: a lightweight tag [v1.0.0] on [a1],
    an annotated tag [v1.1.0] whose tag object [t1] points to [a3]. *)
Definition gh : GitHub :=
  {| git_refs_tags := fun r t =>
       if negb (r =? "octo/demo") then Failure 404 "Not Found"
       else if t =? "v1.0.0"
       then Success {| object := {| obj_type := "commit"; obj_sha := "a1" |} |}
       else if t =? "v1.1.0"
       then Success {| object := {| obj_type := "tag"; obj_sha := "t1" |} |}
       else Failure 404 "Not Found";
     git_tags := fun r s =>
       if (r =? "octo/demo") && (s =? "t1")
       then Success {| object := {| obj_type := "commit"; obj_sha := "a3" |} |}
       else Failure 404 "Not Found";
     list_commits := fun r b bound =>
       if (r =? "octo/demo") && (b =? "main")
       then Success (first_page instant bound history)
       else Failure 404 "Not Found";
     compare := fun r b h =>
       if (r =? "octo/demo") && (b =? "a1") && ((h =? "a3") || (h =? "HEAD"))
       then Success {| commits := Some [a3; a2] |}
       else Failure 404 "Not Found" |}.

Definition ai : OpenAI :=
  {| chat_completions_create := fun _ => Ret (Some "# Release v1.1.0") |}.

(** An engine: it reads the provider's date-time strings used below (the
    basic-format dates of [a1], [a2], [a3] are Invalid Dates) and sorts by
    insertion, an Invalid Date comparing as equal to every date. *)
Definition sooner (a b : option Z) : bool :=
  match a, b with
  | Some x, Some y => (x <? y)%Z
  | _, _ => false
  end.

Fixpoint insert_date (d : option Z) (l : list (option Z)) : list (option Z) :=
  match l with
  | [] => [d]
  | x :: rest => if sooner d x then x :: insert_date d rest else d :: l
  end.

Definition js : Engine :=
  {| Date_parse := fun s =>
       if s =? "2024-01-02T10:00:00Z" then Some 1704189600000%Z
       else if s =? "2024-01-03T10:00:00Z" then Some 1704276000000%Z
       else None;
     Array_sort := fold_right insert_date [] |}.

Definition digit (c : ascii) : bool :=
  (48 <=? nat_of_ascii c)%nat && (nat_of_ascii c <=? 57)%nat.

Definition pg : Postgres :=
  {| gen_random_uuid := fun n => "uuid-" ++ NilZero.string_of_uint (Nat.to_uint n);
     now := fun n => Z.of_nat n;
     timestamptz_in := fun s =>
       match s with
       | String c _ => digit c
       | EmptyString => false
       end |}.

Definition isoDay (s : string) : string := substring 0 10 s.

Definition environment : Env :=
  {| GITHUB_PAT := Some "ghp"; OPENAI_API_KEY := Some "sk";
     NEXT_PUBLIC_SUPABASE_URL := Some "https://db"; SUPABASE_SERVICE_ROLE_KEY := Some "role";
     HELICONE_API_KEY := Some "hk" |}.

Definition empty : World :=
  {| env := environment; db := {| release_slices := []; serial := 0 |}; trace := [] |}.

Definition publish (shas : list string) : Releases.Body :=
  {| Releases.body_repo := Some "octo/demo"; Releases.body_branch := Some "main";
     Releases.body_mode := Some "date";
     Releases.body_baseSha := Some "a1"; Releases.body_headSha := Some "a3";
     Releases.body_markdown := Some "# Release v1.1.0";
     Releases.body_commits_list := Some shas;
     Releases.body_originalParams :=
       Some {| p_start := Some "2024-01-01T00:00:00.000Z";
               p_end := Some "2024-01-02T00:00:00.000Z";
               p_base := None; p_head := None |} |}.

(** The store after one publish of [a1, a2, a3]. *)
Definition published : World :=
  snd (Releases.POST isoDay pg (publish ["a1"; "a2"; "a3"]) empty).

(** A row stored without a [commits_list], and the store holding it. *)
Definition legacy : ReleaseSlice :=
  {| id := "uuid-legacy"; published_at := (-1)%Z; repo := "octo/demo"; branch := "main";
     mode := Tag; start_date := None; end_date := None;
     base_sha := Some "a0"; head_sha := Some "a1";
     base_tag := Some "v0.9.0"; head_tag := Some "v1.0.0";
     markdown := "# Release v1.0.0"; commits_list := None; owner_id := None |}.

Definition with_legacy : World :=
  set_db {| release_slices := legacy :: release_slices (db published);
            serial := serial (db published) |} published.




End Demo.

(** ** The repositories route

    Its handler reads the table once and writes nothing: it is modelled as
    a function of the environment and the table. *)

#[export] Instance outcome_monad : MonadExn outcome := {
  ret := fun A a => Ret a;
  bind := fun A B m k =>
    match m with
    | Ret a => k a
    | Throw e => Throw e
    end;
  throw := fun A e => Throw e
}.

Module Repos.

Record MostRecent : Type := {
  mr_id : string;
  mr_publishedAt : Z;
  mr_branch : string;
  mr_mode : Mode;
  mr_range : string;
  mr_markdownPreview : string
}.

Record RepoSummary : Type := {
  s_repo : string;
  s_totalChangelogs : nat;
  s_branches : list string;
  s_mostRecentChangelog : MostRecent
}.

Definition validateEnvironment (e : Env) : outcome Env :=
  let required :=
    [("NEXT_PUBLIC_SUPABASE_URL", NEXT_PUBLIC_SUPABASE_URL e);
     ("SUPABASE_SERVICE_ROLE_KEY", SUPABASE_SERVICE_ROLE_KEY e)] in
  let missing := map fst (filter (fun kv => negb (JS.truthy (snd kv))) required) in
  if (0 <? length missing)%nat
  then throw (Error ("Missing required environment variables: " ++ String.concat ", " missing))
  else ret e.

(** [.select('*').order('published_at', { ascending: false })] *)
Definition select_all (d : Database) : PostgrestResponse (list ReleaseSlice) :=
  {| data := Some (Supabase.order_desc (release_slices d)); error := None |}.

(** One step of the grouping loop: [repoGroups] is a Map, which keeps its
    keys in insertion order. *)
Fixpoint push (release : ReleaseSlice) (repoGroups : list (string * list ReleaseSlice))
  : list (string * list ReleaseSlice) :=
  match repoGroups with
  | [] => [(repo release, [release])]
  | (key, releases) :: rest =>
      if key =? repo release then (key, (releases ++ [release])%list) :: rest
      else (key, releases) :: push release rest
  end.

Definition group (data : list ReleaseSlice) : list (string * list ReleaseSlice) :=
  fold_left (fun repoGroups release => push release repoGroups) data [].

(** [[...new Set(l)]] *)
Definition unique (l : list string) : list string :=
  fold_left (fun seen x => if JS.has seen x then seen else (seen ++ [x])%list) l [].

(** Create markdown preview (first 200 characters); a character is one
    unit of the string's length. *)
Definition markdownPreview (md : string) : string :=
  if (200 <? String.length md)%nat then substring 0 200 md ++ "..." else md.

Section Rendering.
(** [new Date(s).toISOString().split('T')[0]] *)
Variable isoDay : string -> string.

Definition range_of (mostRecent : ReleaseSlice) : string :=
  let day (v : option string) :=
    if JS.truthy v then isoDay (JS.template v) else "unknown" in
  let short (v : option string) :=
    JS.or_else (option_map (substring 0 7) v) "unknown" in
  match mode mostRecent with
  | Date => day (start_date mostRecent) ++ " to " ++ day (end_date mostRecent)
  | Sha => short (base_sha mostRecent) ++ "..." ++ short (head_sha mostRecent)
  | Tag => JS.or_else (base_tag mostRecent) "unknown" ++ "..."
           ++ JS.or_else (head_tag mostRecent) "unknown"
  end.

(** Transform to summary format *)
Definition summary (key : string) (releases : list ReleaseSlice) (mostRecent : ReleaseSlice)
  : RepoSummary :=
  {| s_repo := key;
     s_totalChangelogs := length releases;
     s_branches := unique (map branch releases);
     s_mostRecentChangelog :=
       {| mr_id := id mostRecent; mr_publishedAt := published_at mostRecent;
          mr_branch := branch mostRecent; mr_mode := mode mostRecent;
          mr_range := range_of mostRecent;
          mr_markdownPreview := markdownPreview (markdown mostRecent) |} |}.

(** [releases[0]] of an empty group would be [undefined]. *)
Definition summarize (entry : string * list ReleaseSlice) : outcome RepoSummary :=
  let (key, releases) := entry in
  match releases with
  | [] => throw (Error "Cannot read properties of undefined (reading 'mode')")
  | mostRecent :: _ => ret (summary key releases mostRecent)
  end.

Fixpoint summaries (entries : list (string * list ReleaseSlice)) : outcome (list RepoSummary) :=
  match entries with
  | [] => ret []
  | entry :: rest =>
      s <- summarize entry ;;
      l <- summaries rest ;;
      ret (s :: l)
  end.

(** [repoSummaries.sort((a, b) => time(b) - time(a))]; the sort is stable. *)
Fixpoint insert_recent (s : RepoSummary) (l : list RepoSummary) : list RepoSummary :=
  match l with
  | [] => [s]
  | x :: rest =>
      if (mr_publishedAt (s_mostRecentChangelog x)
          <=? mr_publishedAt (s_mostRecentChangelog s))%Z
      then s :: l
      else x :: insert_recent s rest
  end.

Definition sort_recent (l : list RepoSummary) : list RepoSummary :=
  fold_right insert_recent [] l.

Definition on_error (e : exn) : Reply (list RepoSummary) :=
  match e with
  | Error message =>
      if JS.includes message "Missing required environment variables"
      then {| status := 500; json := Problem "Server configuration error" |}
      else {| status := 500; json := Problem "Internal server error" |}
  | ZodError _ => {| status := 500; json := Problem "Internal server error" |}
  end.

(** GET handler - fetch all repositories with changelogs *)
Definition GET (e : Env) (d : Database) : Reply (list RepoSummary) :=
  match validateEnvironment e with
  | Throw err => on_error err
  | Ret _ =>
      let answer := select_all d in
      match error answer with
      | Some _ => {| status := 500; json := Problem "Failed to fetch repositories" |}
      | None =>
          match data answer with
          | None => {| status := 200; json := Document [] |}
          | Some rows =>
              if (length rows =? 0)%nat then {| status := 200; json := Document [] |}
              else
                match summaries (group rows) with
                | Throw err => on_error err
                | Ret repoSummaries =>
                    {| status := 200; json := Document (sort_recent repoSummaries) |}
                end
          end
      end
  end.
End Rendering.

End Repos.

(** ** The console page: repository field, URL parameter, requests *)

Module ConsolePage.

Definition is_slash (c : ascii) : bool := Ascii.eqb c "/"%char.

(** The longest prefix without a slash, and what follows: [[^/]*]. *)
Fixpoint span (s : string) : string * string :=
  match s with
  | EmptyString => (EmptyString, EmptyString)
  | String c rest =>
      if is_slash c then (EmptyString, s)
      else let (taken, left) := span rest in (String c taken, left)
  end.

(** [github\.com\/([^/]+\/[^/]+)] matched at the start of [s]: the group. *)
Definition match_here (s : string) : option string :=
  if prefix "github.com/" s then
    let (owner, after_owner) := span (substring 11 (String.length s - 11) s) in
    match owner, after_owner with
    | String _ _, String _ after_slash =>
        match span after_slash with
        | (String c name, _) => Some (owner ++ "/" ++ String c name)
        | (EmptyString, _) => None
        end
    | _, _ => None
    end
  else None.

(** Extract repo owner/name from URL: the leftmost match of the pattern. *)
Fixpoint extractRepoFromUrl (url : string) : option string :=
  match match_here url with
  | Some found => Some found
  | None =>
      match url with
      | EmptyString => None
      | String _ rest => extractRepoFromUrl rest
      end
  end.

(** [s.split('/')] *)
Fixpoint split (s : string) : list string :=
  match s with
  | EmptyString => [EmptyString]
  | String c rest =>
      if is_slash c then EmptyString :: split rest
      else match split rest with
           | first :: others => String c first :: others
           | [] => [String c EmptyString]
           end
  end.

Inductive Populate : Type :=
| Untouched
| Populated (repoUrl : string)
| InvalidPath.

(** Handle URL parameters on component mount: what happens to the
    repository field for a [path] parameter. *)
Definition populate (pathParam : option string) : Populate :=
  if JS.truthy pathParam then
    match split (JS.template pathParam) with
    | [owner; name] =>
        if negb (owner =? "") && negb (name =? "")
        then Populated ("https://github.com/" ++ JS.template pathParam)
        else InvalidPath
    | _ => InvalidPath
    end
  else Untouched.

Definition mode_name (m : Mode) : string :=
  match m with
  | Date => "date"
  | Sha => "sha"
  | Tag => "tag"
  end.

(** The state kept from a generate answer for publishing. *)
Record ShaRangeState : Type := {
  sr_baseSha : string;
  sr_headSha : string;
  sr_commits_list : list string
}.

Definition setShaRange (response : Generate.Draft) : ShaRangeState :=
  {| sr_baseSha := Generate.d_baseSha response;
     sr_headSha := Generate.d_headSha response;
     sr_commits_list := Generate.d_commits_list response |}.

(** [JSON.stringify(payload)] as the generate route reads it *)
Definition generateChangelogDraft (payload : Console.GeneratePayload) : Generate.Body :=
  {| Generate.body_repo := Some (Console.pl_repo payload);
     Generate.body_branch := Some (Console.pl_branch payload);
     Generate.body_mode := Some (mode_name (Console.pl_mode payload));
     Generate.body_params := Console.pl_params payload |}.

(** The body [publishChangelog] posts to the releases route *)
Definition publishChangelog (payload : Console.GeneratePayload) (markdown : string)
           (shaRange : ShaRangeState) : Releases.Body :=
  {| Releases.body_repo := Some (Console.pl_repo payload);
     Releases.body_branch := Some (Console.pl_branch payload);
     Releases.body_mode := Some (mode_name (Console.pl_mode payload));
     Releases.body_baseSha := Some (sr_baseSha shaRange);
     Releases.body_headSha := Some (sr_headSha shaRange);
     Releases.body_markdown := Some markdown;
     Releases.body_commits_list := Some (sr_commits_list shaRange);
     Releases.body_originalParams := Some (Console.pl_params payload) |}.

(** [handlePublish]: nothing is sent without a stored payload and range. *)
Definition handlePublish (generatedPayload : option Console.GeneratePayload)
           (draft : string) (shaRange : option ShaRangeState) : option Releases.Body :=
  match generatedPayload, shaRange with
  | Some payload, Some range => Some (publishChangelog payload draft range)
  | _, _ => None
  end.

End ConsolePage.

(** ** The changelog page of a repository *)

Module SlugPage.

(** [ChangelogPage]: the slug it renders, or [None] for [notFound()]. *)
Definition ChangelogPage (slug : list string) : option string :=
  if (length slug <? 2)%nat then None
  else
    let repoName := String.concat "/" slug in
    if repoName =? "repos" then None
    else Some repoName.

End SlugPage.

(** ** Predicates of the further properties *)


(** Every row records at least one commit. *)
Definition commits_recorded (rows : list ReleaseSlice) : Prop :=
  Forall (fun row => exists l, commits_list row = Some l /\ l <> []) rows.

Definition is_write (e : Effect) : bool :=
  match e with
  | Sql (InsertRow _) | Sql (UpdateMarkdown _ _) => true
  | _ => false
  end.

(** The action leaves the environment and the table as they are, and
    logs no insert and no update. *)
Definition reads_only {A : Type} (m : M A) : Prop :=
  forall w,
    env (snd (m w)) = env w
    /\ db (snd (m w)) = db w
    /\ exists added,
         trace (snd (m w)) = (trace w ++ added)%list /\ existsb is_write added = false.

Definition is_sql (e : Effect) : bool :=
  match e with
  | Sql _ => true
  | _ => false
  end.

(** The rows of one repository. *)
Definition of_repo (key : string) (rows : list ReleaseSlice) : list ReleaseSlice :=
  filter (fun row => repo row =? key) rows.

Definition has_slash (s : string) : bool :=
  existsb ConsolePage.is_slash (list_ascii_of_string s).

(** The engine's sort leaves the elements it was given, in some order. *)
Definition rearranges (js : Engine) : Prop :=
  forall l, Permutation l (Array_sort js l).

(** The engine reads the date of every commit of the list. *)
Definition dates_read (js : Engine) (l : list Commit) : Prop :=
  Forall (fun c => Date_parse js (commit_author_date c) <> None) l.

(** The engine reads the date of no commit of the list. *)
Definition dates_unread (js : Engine) (l : list Commit) : Prop :=
  Forall (fun c => Date_parse js (commit_author_date c) = None) l.


(** ** Further fixtures *)

Module Fixtures.

(** The demo provider, with an empty comparison of a commit with itself. *)
Definition idle : GitHub :=
  {| git_refs_tags := git_refs_tags Demo.gh;
     git_tags := git_tags Demo.gh;
     list_commits := list_commits Demo.gh;
     compare := fun r b h =>
       if b =? h then Success {| commits := None |} else compare Demo.gh r b h |}.

(** The demo provider, with the compared commits dated the way the
    provider dates them. *)
Definition s2 : Commit := Demo.commit "a2" "2024-01-02T10:00:00Z".
Definition s3 : Commit := Demo.commit "a3" "2024-01-03T10:00:00Z".

Definition stamped : GitHub :=
  {| git_refs_tags := git_refs_tags Demo.gh;
     git_tags := git_tags Demo.gh;
     list_commits := list_commits Demo.gh;
     compare := fun r b h =>
       match compare Demo.gh r b h with
       | Success _ => Success {| commits := Some [s3; s2] |}
       | Failure status statusText => Failure status statusText
       end |}.

(** A provider in trouble: the ref of [v1.1.0] is there but its tag object
    is gone, and everything else fails. *)
Definition flaky : GitHub :=
  {| git_refs_tags := fun _ t =>
       if t =? "v1.1.0"
       then Success {| object := {| obj_type := "tag"; obj_sha := "t1" |} |}
       else Failure 503 "Service Unavailable";
     git_tags := fun _ _ => Failure 404 "Not Found";
     list_commits := fun _ _ _ => Failure 403 "Forbidden";
     compare := fun _ _ _ => Failure 500 "Internal Server Error" |}.

(** A publish whose start date is not a timestamp. *)
Definition misdated : Releases.Body :=
  {| Releases.body_repo := Some "octo/demo"; Releases.body_branch := Some "main";
     Releases.body_mode := Some "date";
     Releases.body_baseSha := Some "a1"; Releases.body_headSha := Some "a3";
     Releases.body_markdown := Some "# Release v1.1.0";
     Releases.body_commits_list := Some ["b9"];
     Releases.body_originalParams :=
       Some {| p_start := Some "yesterday"; p_end := Some "2024-01-02T00:00:00.000Z";
               p_base := None; p_head := None |} |}.

(** Two more publishes into the demo store: a second repository on
    [develop], then a tag release of the first. *)
Definition second : Releases.Body :=
  {| Releases.body_repo := Some "octo/tools"; Releases.body_branch := Some "develop";
     Releases.body_mode := Some "sha";
     Releases.body_baseSha := Some "0123456789abcdef"; Releases.body_headSha := Some "HEAD";
     Releases.body_markdown := Some "# Tools";
     Releases.body_commits_list := Some ["k1"; "k2"];
     Releases.body_originalParams :=
       Some {| p_start := None; p_end := None;
               p_base := Some "0123456789abcdef"; p_head := Some "HEAD" |} |}.

Definition third : Releases.Body :=
  {| Releases.body_repo := Some "octo/demo"; Releases.body_branch := Some "release";
     Releases.body_mode := Some "tag";
     Releases.body_baseSha := Some "a3"; Releases.body_headSha := Some "HEAD";
     Releases.body_markdown := Some "# Release v1.2.0";
     Releases.body_commits_list := Some ["a4"];
     Releases.body_originalParams :=
       Some {| p_start := None; p_end := None;
               p_base := Some "v1.1.0"; p_head := Some "HEAD" |} |}.

Definition busy_store : World :=
  snd (Releases.POST Demo.isoDay Demo.pg third
         (snd (Releases.POST Demo.isoDay Demo.pg second Demo.published))).

End Fixtures.

(** * Properties *)

(** ** Helper facts *)

Lemma has_In (l : list string) (x : string) : JS.has l x = true <-> In x l.
Proof.
  unfold JS.has. rewrite existsb_exists. split.
  - intros [y [Hy E]]. apply String.eqb_eq in E. now subst.
  - intros H. exists x. split; [assumption | apply String.eqb_refl].
Qed.

Lemma some_has_intersects (row : ReleaseSlice) (candidate : list string) :
  Generate.some_has row candidate = true <-> intersects (commitShas row) candidate.
Proof.
  unfold Generate.some_has, intersects, commitShas.
  rewrite existsb_exists. split.
  - intros [s [Hs Hc]]. exists s. split; [assumption | now apply has_In].
  - intros [s [Hs Hc]]. exists s. split; [assumption | now apply has_In].
Qed.

Lemma in_scope_iff (r b : string) (row : ReleaseSlice) :
  Supabase.in_scope r b row = true <-> repo row = r /\ branch row = b.
Proof.
  unfold Supabase.in_scope. rewrite andb_true_iff, !String.eqb_eq. tauto.
Qed.

Lemma generate_env_ok (w : World) :
  configured_generate (env w) = true ->
  Generate.validateEnvironment w = (Ret (env w), w).
Proof.
  unfold configured_generate, Generate.validateEnvironment. intros H.
  repeat (apply andb_true_iff in H; destruct H as [H ?]).
  cbn. unfold getenv. now rewrite H, H0, H1, H2, H3.
Qed.

Lemma releases_env_ok (w : World) :
  configured_releases (env w) = true ->
  Releases.validateEnvironment w = (Ret (env w), w).
Proof.
  unfold configured_releases, Releases.validateEnvironment. intros H.
  apply andb_true_iff in H. destruct H as [H H0].
  cbn. unfold getenv. now rewrite H, H0.
Qed.

#[local] Arguments Generate.validateEnvironment : simpl never.
#[local] Arguments Releases.validateEnvironment : simpl never.

(** What the overlap check computes and logs in a configured deployment. *)
Lemma checkCommitsOverlap_run (w : World) (r b : string) (candidate : list string) :
  configured_generate (env w) = true ->
  Generate.checkCommitsOverlap r b candidate w
  = (Ret (existsb (fun row => Generate.some_has row candidate)
                  (filter (Supabase.in_scope r b) (release_slices (db w)))),
     log (Sql (SelectScope r b)) w).
Proof.
  intros Henv. unfold Generate.checkCommitsOverlap. cbn.
  rewrite (generate_env_ok w Henv). cbn.
  destruct (filter (Supabase.in_scope r b) (release_slices (db w))); reflexivity.
Qed.

Lemma overlap_exists_iff (d : Database) (r b : string) (candidate : list string) :
  existsb (fun row => Generate.some_has row candidate)
          (filter (Supabase.in_scope r b) (release_slices d)) = true
  <-> overlap_in_scope d r b candidate.
Proof.
  unfold overlap_in_scope. rewrite existsb_exists. split.
  - intros [row [Hin Hs]]. apply filter_In in Hin. destruct Hin as [Hin Hsc].
    apply in_scope_iff in Hsc. destruct Hsc. exists row.
    repeat split; try assumption. now apply some_has_intersects.
  - intros [row [Hin [Hr [Hb Hi]]]]. exists row. split.
    + apply filter_In. split; [assumption | now apply in_scope_iff].
    + now apply some_has_intersects.
Qed.

(** ** The overlap detector *)

(** C2. In a configured deployment [checkCommitsOverlap] returns a boolean,
    and it is [true] exactly when some persisted record of the same
    (repo, branch) has a commit in common with the candidate; so it is
    [false] for a candidate disjoint from every stored set, and [false]
    when the scope has no record. *)
Theorem checkCommitsOverlap_iff (w : World) (r b : string) (candidate : list string) :
  configured_generate (env w) = true ->
  exists answer,
    fst (Generate.checkCommitsOverlap r b candidate w) = Ret answer
    /\ (answer = true <-> overlap_in_scope (db w) r b candidate)
    /\ (filter (Supabase.in_scope r b) (release_slices (db w)) = [] -> answer = false).
Proof.
  intros Henv. rewrite (checkCommitsOverlap_run w r b candidate Henv). cbn.
  eexists. split; [reflexivity|]. split.
  - apply overlap_exists_iff.
  - intros ->. reflexivity.
Qed.

Lemma checkCommitsOverlap_iff_witness :
  configured_generate (env Demo.published) = true
  /\ exists answer,
       fst (Generate.checkCommitsOverlap "octo/demo" "main" ["a2"; "b9"] Demo.published)
       = Ret answer
       /\ (answer = true
           <-> overlap_in_scope (db Demo.published) "octo/demo" "main" ["a2"; "b9"])
       /\ (filter (Supabase.in_scope "octo/demo" "main")
                  (release_slices (db Demo.published)) = [] -> answer = false).
Proof.
  split.
  - reflexivity.
  - apply (checkCommitsOverlap_iff Demo.published "octo/demo" "main" ["a2"; "b9"]).
    reflexivity.
Defined.

Lemma generate_env_frame (w w' : World) :
  env w = env w' ->
  snd (Generate.validateEnvironment w) = w
  /\ fst (Generate.validateEnvironment w) = fst (Generate.validateEnvironment w').
Proof.
  intros E. unfold Generate.validateEnvironment, getenv, bind, M_monad. rewrite <- E.
  destruct (0 <? _)%nat; cbn; auto.
Qed.

(** The answer of the overlap check depends on the environment and on the
    rows of the scope only. *)
Lemma checkCommitsOverlap_ext (w w' : World) (r b : string) (candidate : list string) :
  env w = env w' ->
  existsb (fun row => Generate.some_has row candidate)
          (filter (Supabase.in_scope r b) (release_slices (db w)))
  = existsb (fun row => Generate.some_has row candidate)
            (filter (Supabase.in_scope r b) (release_slices (db w'))) ->
  fst (Generate.checkCommitsOverlap r b candidate w)
  = fst (Generate.checkCommitsOverlap r b candidate w').
Proof.
  intros Eenv Erows.
  destruct (configured_generate (env w)) eqn:Henv.
  - rewrite (checkCommitsOverlap_run w) by exact Henv.
    rewrite (checkCommitsOverlap_run w') by (now rewrite <- Eenv).
    cbn. now rewrite Erows.
  - destruct (generate_env_frame w w' Eenv) as [Hs Hf].
    destruct (generate_env_frame w' w (eq_sym Eenv)) as [Hs' _].
    unfold Generate.checkCommitsOverlap, bind, M_monad.
    destruct (Generate.validateEnvironment w) as [[e|e] w1] eqn:E;
    destruct (Generate.validateEnvironment w') as [[e'|e'] w1'] eqn:E';
      cbn in Hs, Hf, Hs'; subst; try discriminate.
    + exfalso. revert E. unfold Generate.validateEnvironment, getenv, bind, M_monad.
      unfold configured_generate in Henv. cbn.
      destruct (JS.truthy (GITHUB_PAT (env w))), (JS.truthy (OPENAI_API_KEY (env w))),
        (JS.truthy (NEXT_PUBLIC_SUPABASE_URL (env w))),
        (JS.truthy (SUPABASE_SERVICE_ROLE_KEY (env w))),
        (JS.truthy (HELICONE_API_KEY (env w))); cbn in *; discriminate.
    + cbn. congruence.
Qed.

Lemma filter_filter_scope (r b : string) (keep : ReleaseSlice -> bool) (rows : list ReleaseSlice) :
  filter (Supabase.in_scope r b) (filter keep rows)
  = filter keep (filter (Supabase.in_scope r b) rows).
Proof.
  induction rows as [|row rows IH]; [reflexivity|].
  cbn. destruct (keep row) eqn:K, (Supabase.in_scope r b row) eqn:S0; cbn;
    rewrite ?K, ?S0, IH; reflexivity.
Qed.

Lemma existsb_some_has_filter (candidate : list string) (rows : list ReleaseSlice) :
  existsb (fun row => Generate.some_has row candidate) (filter has_commits_list rows)
  = existsb (fun row => Generate.some_has row candidate) rows.
Proof.
  induction rows as [|row rows IH]; [reflexivity|].
  cbn. unfold has_commits_list at 1. destruct (commits_list row) eqn:Hc.
  - cbn. now rewrite IH.
  - rewrite IH. unfold Generate.some_has at 2. now rewrite Hc.
Qed.

(** C10. A persisted record whose [commits_list] is null shares no commit
    with any candidate, and the rows without a [commits_list] can be dropped
    from the table without changing the answer of the overlap check. *)
Theorem null_commits_list_never_overlaps :
  (forall row candidate,
      commits_list row = None -> Generate.some_has row candidate = false)
  /\ (forall w r b candidate,
        fst (Generate.checkCommitsOverlap r b candidate w)
        = fst (Generate.checkCommitsOverlap r b candidate
                 (set_db {| release_slices := filter has_commits_list (release_slices (db w));
                            serial := serial (db w) |} w))).
Proof.
  split.
  - intros row candidate H. unfold Generate.some_has. now rewrite H.
  - intros w r b candidate. apply checkCommitsOverlap_ext; [reflexivity|].
    cbn. now rewrite filter_filter_scope, existsb_some_has_filter.
Qed.

Lemma null_commits_list_never_overlaps_witness :
  commits_list Demo.legacy = None
  /\ Generate.some_has Demo.legacy ["a1"; "a2"] = false
  /\ fst (Generate.checkCommitsOverlap "octo/demo" "main" ["b9"] Demo.with_legacy)
     = fst (Generate.checkCommitsOverlap "octo/demo" "main" ["b9"] Demo.published).
Proof.
  split; [reflexivity|]. split.
  - exact (proj1 null_commits_list_never_overlaps Demo.legacy ["a1"; "a2"] eq_refl).
  - exact (proj2 null_commits_list_never_overlaps Demo.with_legacy
             "octo/demo" "main" ["b9"]).
Defined.

(** ** The commit-history provider client *)

(** C6. [resolveTagToSha] on a lightweight tag returns the SHA the ref
    holds, after one request; on an annotated tag it asks for the tag object
    the ref points to and returns the SHA of the commit that object points
    to, which is not the SHA of the tag object; when the provider answers
    404 for the ref it fails with "Tag '<tag>' not found". *)
Theorem resolveTagToSha_spec (gh : GitHub) (repo tag : string) :
  (forall kind s,
      git_refs_tags gh repo tag
      = Success {| object := {| obj_type := kind; obj_sha := s |} |} ->
      kind <> "tag" ->
      Generate.resolveTagToSha gh repo tag = (Ret s, [GetTagRef repo tag]))
  /\ (forall t c,
        git_refs_tags gh repo tag
        = Success {| object := {| obj_type := "tag"; obj_sha := t |} |} ->
        git_tags gh repo t
        = Success {| object := {| obj_type := "commit"; obj_sha := c |} |} ->
        Generate.resolveTagToSha gh repo tag
        = (Ret c, [GetTagRef repo tag; GetTagObject repo t])
        /\ (c <> t -> fst (Generate.resolveTagToSha gh repo tag) <> Ret t))
  /\ (forall statusText,
        git_refs_tags gh repo tag = Failure 404 statusText ->
        Generate.resolveTagToSha gh repo tag
        = (Throw (Error ("Tag '" ++ tag ++ "' not found")), [GetTagRef repo tag])).
Proof.
  unfold Generate.resolveTagToSha. repeat split.
  - intros kind s H Hk. cbn. rewrite H. cbn.
    apply String.eqb_neq in Hk. now rewrite Hk.
  - cbn. rewrite H. cbn. rewrite H0. reflexivity.
  - cbn. rewrite H. cbn. rewrite H0. cbn. intros Hc E. apply Hc. now inversion E.
  - intros statusText H. cbn. rewrite H. reflexivity.
Qed.

Lemma resolveTagToSha_spec_witness :
  (git_refs_tags Demo.gh "octo/demo" "v1.1.0"
   = Success {| object := {| obj_type := "tag"; obj_sha := "t1" |} |}
   /\ git_tags Demo.gh "octo/demo" "t1"
      = Success {| object := {| obj_type := "commit"; obj_sha := "a3" |} |}
   /\ "a3" <> "t1")
  /\ Generate.resolveTagToSha Demo.gh "octo/demo" "v1.1.0"
     = (Ret "a3", [GetTagRef "octo/demo" "v1.1.0"; GetTagObject "octo/demo" "t1"])
  /\ fst (Generate.resolveTagToSha Demo.gh "octo/demo" "v1.1.0") <> Ret "t1".
Proof.
  assert (D : "a3" <> "t1") by discriminate.
  split.
  - split; [reflexivity | split; [reflexivity | exact D]].
  - destruct (resolveTagToSha_spec Demo.gh "octo/demo" "v1.1.0") as [_ [annotated _]].
    destruct (annotated "t1" "a3" eq_refl eq_refl) as [run differs].
    split; [exact run | exact (differs D)].
Defined.

(** ** The range resolver *)

#[local] Arguments Generate.resolveTagToSha : simpl never.
#[local] Arguments Generate.findCommitShaByDate : simpl never.






(** C4, as the claim states it, fails: a tag-mode request that omits the
    head is refused by the resolver, it does not proceed with "HEAD". *)
Lemma resolver_requires_head :
  Generate.convertToShaRange Demo.gh "octo/demo" "main" Tag
    {| p_start := None; p_end := None; p_base := Some "v1.0.0"; p_head := None |}
  = (Throw (Error "Base and head tags are required for tag mode"), [])
  /\ ~ (exists b, fst (Generate.convertToShaRange Demo.gh "octo/demo" "main" Tag
                         {| p_start := None; p_end := None;
                            p_base := Some "v1.0.0"; p_head := None |})
                  = Ret {| baseSha := b; headSha := "HEAD" |}).
Proof.
  split; [reflexivity|]. intros [b H]. cbn in H. discriminate.
Qed.

(** C4, amended. The resolver requires both base and head in tag and sha
    mode: a request whose head is missing or empty fails, before any request
    to the provider, with the mode's "Base and head ... are required" error.
    The "HEAD" default is the console form's: with the head field left empty
    it sends head = "HEAD".  Given head = "HEAD", tag mode resolves the base
    tag only and passes "HEAD" through, and sha mode passes both values
    through as they are. *)
Theorem head_default_is_the_forms (gh : GitHub) (repo branch : string) :
  (forall p, JS.truthy (p_head p) = false ->
      Generate.convertToShaRange gh repo branch Tag p
      = (Throw (Error "Base and head tags are required for tag mode"), [])
      /\ Generate.convertToShaRange gh repo branch Sha p
         = (Throw (Error "Base and head SHAs are required for SHA mode"), []))
  /\ (forall toISOString f,
        repo <> "" -> Console.headTag f = "" -> Console.headSha f = "" ->
        (Console.rangeType f = Tag -> Console.baseTag f <> "" ->
         Console.handleGenerate_payload toISOString (Some repo) f
         = inr {| Console.pl_repo := repo; Console.pl_branch := Console.branch f;
                  Console.pl_mode := Tag;
                  Console.pl_params := {| p_start := None; p_end := None;
                                          p_base := Some (Console.baseTag f);
                                          p_head := Some "HEAD" |} |})
        /\ (Console.rangeType f = Sha -> Console.baseSha f <> "" ->
            Console.handleGenerate_payload toISOString (Some repo) f
            = inr {| Console.pl_repo := repo; Console.pl_branch := Console.branch f;
                     Console.pl_mode := Sha;
                     Console.pl_params := {| p_start := None; p_end := None;
                                             p_base := Some (Console.baseSha f);
                                             p_head := Some "HEAD" |} |}))
  /\ (forall base b sent,
        base <> "" ->
        Generate.resolveTagToSha gh repo base = (Ret b, sent) ->
        Generate.convertToShaRange gh repo branch Tag
          {| p_start := None; p_end := None; p_base := Some base; p_head := Some "HEAD" |}
        = (Ret {| baseSha := b; headSha := "HEAD" |}, sent))
  /\ (forall base,
        base <> "" ->
        Generate.convertToShaRange gh repo branch Sha
          {| p_start := None; p_end := None; p_base := Some base; p_head := Some "HEAD" |}
        = (Ret {| baseSha := base; headSha := "HEAD" |}, [])).
Proof.
  split; [|split; [|split]].
  - intros p H. unfold Generate.convertToShaRange. rewrite H.
    rewrite !orb_true_r. split; reflexivity.
  - intros toISOString f N Ht Hs.
    apply String.eqb_neq in N.
    unfold Console.handleGenerate_payload, Console.nonempty. cbn. rewrite N. cbn.
    split.
    + intros -> Hb. apply String.eqb_neq in Hb. rewrite Hb, Ht. reflexivity.
    + intros -> Hb. apply String.eqb_neq in Hb. rewrite Hb, Hs. reflexivity.
  - intros base b sent Hb H. apply String.eqb_neq in Hb.
    unfold Generate.convertToShaRange. cbn. rewrite Hb. cbn. rewrite H. cbn.
    now rewrite app_nil_r.
  - intros base Hb. apply String.eqb_neq in Hb.
    unfold Generate.convertToShaRange. cbn. now rewrite Hb.
Qed.

Lemma head_default_is_the_forms_witness :
  let form := {| Console.branch := "main"; Console.rangeType := Tag;
                 Console.startDate := ""; Console.endDate := "";
                 Console.baseTag := "v1.0.0"; Console.headTag := "";
                 Console.baseSha := ""; Console.headSha := "" |} in
  let sent_by_form := {| p_start := None; p_end := None;
                         p_base := Some "v1.0.0"; p_head := Some "HEAD" |} in
  ("octo/demo" <> "" /\ Console.baseTag form <> ""
   /\ Generate.resolveTagToSha Demo.gh "octo/demo" "v1.0.0"
      = (Ret "a1", [GetTagRef "octo/demo" "v1.0.0"]))
  /\ Console.handleGenerate_payload Demo.isoDay (Some "octo/demo") form
     = inr {| Console.pl_repo := "octo/demo"; Console.pl_branch := "main";
              Console.pl_mode := Tag; Console.pl_params := sent_by_form |}
  /\ Generate.convertToShaRange Demo.gh "octo/demo" "main" Tag sent_by_form
     = (Ret {| baseSha := "a1"; headSha := "HEAD" |}, [GetTagRef "octo/demo" "v1.0.0"])
  /\ Generate.convertToShaRange Demo.gh "octo/demo" "main" Tag
       {| p_start := None; p_end := None; p_base := Some "v1.0.0"; p_head := None |}
     = (Throw (Error "Base and head tags are required for tag mode"), []).
Proof.
  intros form sent_by_form.
  assert (R : "octo/demo" <> "") by discriminate.
  assert (B : Console.baseTag form <> "") by discriminate.
  assert (V : "v1.0.0" <> "") by discriminate.
  split.
  - split; [exact R | split; [exact B | reflexivity]].
  - destruct (head_default_is_the_forms Demo.gh "octo/demo" "main")
      as [refused [form_default [tag_head _]]].
    split; [|split].
    + exact (proj1 (form_default Demo.isoDay form R eq_refl eq_refl) eq_refl B).
    + exact (tag_head "v1.0.0" "a1" [GetTagRef "octo/demo" "v1.0.0"] V eq_refl).
    + exact (proj1 (refused {| p_start := None; p_end := None;
                               p_base := Some "v1.0.0"; p_head := None |} eq_refl)).
Defined.

(** ** The generate handler *)

Lemma world_eta (w : World) :
  {| env := env w; db := db w; trace := trace w |} = w.
Proof. now destruct w. Qed.

Lemma liftG_run {A : Type} (g : G A) (w : World) :
  liftG g w
  = (fst g, {| env := env w; db := db w; trace := (trace w ++ map Sent (snd g))%list |}).
Proof. reflexivity. Qed.

Lemma liftG_silent {A : Type} (r : outcome A) (w : World) :
  liftG (r, []) w = (r, w).
Proof. unfold liftG. cbn. now rewrite app_nil_r, world_eta. Qed.

Lemma initializeOpenAI_ok (w : World) :
  configured_generate (env w) = true ->
  Generate.initializeOpenAI w = (Ret tt, w).
Proof.
  intros H. unfold Generate.initializeOpenAI. cbn. now rewrite generate_env_ok.
Qed.

Lemma convert_lacking (gh : GitHub) (repo branch : string) (m : Mode) (p : Params) :
  lacks_required_field m p = true ->
  exists message,
    Generate.convertToShaRange gh repo branch m p = (Throw (Error message), [])
    /\ In message ["Start and end dates are required for date mode";
                   "Base and head tags are required for tag mode";
                   "Base and head SHAs are required for SHA mode"].
Proof.
  unfold lacks_required_field, Generate.convertToShaRange.
  destruct m; intros H; rewrite H; cbn; eexists; (split; [reflexivity|]); cbn; auto.
Qed.

#[local] Arguments Generate.initializeOpenAI : simpl never.
#[local] Arguments Generate.generateSchema_parse : simpl never.
#[local] Arguments Generate.convertToShaRange : simpl never.
#[local] Arguments Generate.fetchCommits : simpl never.
#[local] Arguments Generate.checkCommitsOverlap : simpl never.
#[local] Arguments liftG : simpl never.

(** A body the schema refuses (no repo, no or unknown mode) is answered 400. *)
Lemma generate_schema_failure_is_400 (gh : GitHub) (js : Engine) (ai : OpenAI) (w : World)
      (body : Generate.Body) (issues : list string) :
  configured_generate (env w) = true ->
  Generate.generateSchema_parse body w = (Throw (ZodError issues), w) ->
  Generate.POST gh js ai body w
  = (Ret {| status := 400; json := Invalid "Invalid request data" issues |}, w).
Proof.
  intros Henv Hparse. unfold Generate.POST, try_catch. cbn.
  rewrite (initializeOpenAI_ok w Henv), Hparse. reflexivity.
Qed.

(** C5, on the code. A generate request that passes the schema but lacks a
    field its mode requires is answered 500 "Internal server error": the
    resolver's error is raised before any request is sent (the world, log
    included, is unchanged), and the handler has no 400 for it. *)
Theorem generate_lacking_field_is_500 (gh : GitHub) (js : Engine) (ai : OpenAI) (w : World)
        (body : Generate.Body) (v : Generate.Validated) :
  configured_generate (env w) = true ->
  Generate.generateSchema_parse body w = (Ret v, w) ->
  lacks_required_field (Generate.v_mode v) (Generate.v_params v) = true ->
  Generate.POST gh js ai body w
  = (Ret {| status := 500; json := Problem "Internal server error" |}, w).
Proof.
  intros Henv Hparse Hlack.
  destruct (convert_lacking gh (Generate.v_repo v) (Generate.v_branch v) _ _ Hlack)
    as [message [Hc Hm]].
  unfold Generate.POST, try_catch. cbn.
  rewrite (initializeOpenAI_ok w Henv), Hparse. cbn.
  rewrite Hc, liftG_silent.
  cbn in Hm. destruct Hm as [<-|[<-|[<-|[]]]]; reflexivity.
Qed.

Lemma generate_lacking_field_is_500_witness :
  let body := {| Generate.body_repo := Some "octo/demo"; Generate.body_branch := None;
                 Generate.body_mode := Some "date";
                 Generate.body_params := {| p_start := None; p_end := None;
                                            p_base := None; p_head := None |} |} in
  let v := {| Generate.v_repo := "octo/demo"; Generate.v_branch := "main";
              Generate.v_mode := Date;
              Generate.v_params := {| p_start := None; p_end := None;
                                      p_base := None; p_head := None |} |} in
  (configured_generate (env Demo.empty) = true
   /\ Generate.generateSchema_parse body Demo.empty = (Ret v, Demo.empty)
   /\ lacks_required_field (Generate.v_mode v) (Generate.v_params v) = true)
  /\ Generate.POST Demo.gh Demo.js Demo.ai body Demo.empty
     = (Ret {| status := 500; json := Problem "Internal server error" |}, Demo.empty).
Proof.
  intros body v. split.
  - split; [reflexivity | split; reflexivity].
  - exact (generate_lacking_field_is_500 Demo.gh Demo.js Demo.ai Demo.empty body v
             eq_refl eq_refl eq_refl).
Defined.

Lemma fetchCommits_resolved (gh : GitHub) (repo branch : string) (m : Mode) (p : Params)
      (fetched : list Commit) :
  fst (Generate.fetchCommits gh repo branch m p) = Ret fetched ->
  exists range, fst (Generate.convertToShaRange gh repo branch m p) = Ret range.
Proof.
  unfold Generate.fetchCommits.
  destruct (Generate.convertToShaRange gh repo branch m p) as [[range|e] sent]; cbn.
  - intros _. now exists range.
  - discriminate.
Qed.

Lemma intersects_nonempty (a b : list string) : intersects a b -> b <> [].
Proof. intros [s [_ H]] ->. contradiction. Qed.

(** The generate handler up to its overlap check: with commits fetched and
    an overlap in scope it answers 400; it has sent the provider requests
    and one select, and nothing else. *)
Lemma generate_overlap_run (gh : GitHub) (js : Engine) (ai : OpenAI) (w : World)
      (body : Generate.Body) (v : Generate.Validated) (fetched : list Commit) :
  configured_generate (env w) = true ->
  Generate.generateSchema_parse body w = (Ret v, w) ->
  fst (Generate.fetchCommits gh (Generate.v_repo v) (Generate.v_branch v)
         (Generate.v_mode v) (Generate.v_params v)) = Ret fetched ->
  overlap_in_scope (db w) (Generate.v_repo v) (Generate.v_branch v) (map sha fetched) ->
  exists sent,
    Generate.POST gh js ai body w
    = (Ret {| status := 400; json := Problem Generate.overlapMessage |},
       {| env := env w; db := db w;
          trace := (trace w ++ map Sent sent
                    ++ [Sql (SelectScope (Generate.v_repo v) (Generate.v_branch v))])%list |}).
Proof.
  intros Henv Hparse Hfetch Hover.
  destruct (fetchCommits_resolved _ _ _ _ _ _ Hfetch) as [range Hrange].
  assert (Hne : map sha fetched <> []).
  { destruct Hover as [row [_ [_ [_ Hi]]]]. exact (intersects_nonempty _ _ Hi). }
  exists (snd (Generate.convertToShaRange gh (Generate.v_repo v) (Generate.v_branch v)
                 (Generate.v_mode v) (Generate.v_params v))
          ++ snd (Generate.fetchCommits gh (Generate.v_repo v) (Generate.v_branch v)
                    (Generate.v_mode v) (Generate.v_params v)))%list.
  unfold Generate.POST, try_catch. cbn.
  rewrite (initializeOpenAI_ok w Henv), Hparse. cbn.
  rewrite liftG_run, Hrange. cbn.
  rewrite liftG_run, Hfetch. cbn.
  destruct fetched as [|c rest]; [now elim Hne|]. cbn [length Nat.eqb].
  rewrite checkCommitsOverlap_run by exact Henv. cbn [db].
  apply overlap_exists_iff in Hover. rewrite Hover. cbn.
  unfold log. cbn. now rewrite map_app, <- !app_assoc.
Qed.

(** ** The releases handlers *)

#[local] Arguments Releases.createReleaseSchema_parse : simpl never.

(** What a publish does in a configured deployment when the store accepts
    the row: one insert, whatever the table already holds. *)
Lemma publish_run (isoDay : string -> string) (pg : Postgres) (w : World)
      (body : Releases.Body) (v : Releases.Validated) :
  configured_releases (env w) = true ->
  Releases.createReleaseSchema_parse body w = (Ret v, w) ->
  Supabase.column_ok pg (ins_start_date (Releases.insertData v))
  && Supabase.column_ok pg (ins_end_date (Releases.insertData v)) = true ->
  let row := Supabase.new_row pg (serial (db w)) (Releases.insertData v) in
  Releases.POST isoDay pg body w
  = (Ret {| status := 201; json := Document (Releases.transformReleaseSlice isoDay row) |},
     {| env := env w;
        db := {| release_slices := (release_slices (db w) ++ [row])%list;
                 serial := S (serial (db w)) |};
        trace := (trace w ++ [Sql (InsertRow (Releases.insertData v))])%list |}).
Proof.
  intros Henv Hparse Hok row.
  unfold Releases.POST, try_catch. cbn.
  rewrite (releases_env_ok w Henv), Hparse. cbn.
  unfold Supabase.insert. rewrite Hok. reflexivity.
Qed.

(** C1, on the code. The publish handler makes no overlap check.  A publish
    request that passes the schema and whose row the store accepts is
    answered 201 and its row is inserted also when its commits share a SHA
    with a persisted record of the same (repo, branch): afterwards the table
    holds both records, in one scope, with a commit in common. *)
Theorem publish_ignores_overlap (isoDay : string -> string) (pg : Postgres) (w : World)
        (body : Releases.Body) (v : Releases.Validated) :
  configured_releases (env w) = true ->
  Releases.createReleaseSchema_parse body w = (Ret v, w) ->
  Supabase.column_ok pg (ins_start_date (Releases.insertData v))
  && Supabase.column_ok pg (ins_end_date (Releases.insertData v)) = true ->
  overlap_in_scope (db w) (Releases.v_repo v) (Releases.v_branch v)
                   (Releases.v_commits_list v) ->
  exists row w',
    Releases.POST isoDay pg body w
    = (Ret {| status := 201;
              json := Document (Releases.transformReleaseSlice isoDay row) |}, w')
    /\ release_slices (db w') = (release_slices (db w) ++ [row])%list
    /\ repo row = Releases.v_repo v
    /\ branch row = Releases.v_branch v
    /\ commits_list row = Some (Releases.v_commits_list v)
    /\ exists earlier,
         In earlier (release_slices (db w))
         /\ repo earlier = repo row /\ branch earlier = branch row
         /\ intersects (commitShas earlier) (commitShas row).
Proof.
  intros Henv Hparse Hok [earlier [Hin [Hr [Hb Hi]]]].
  eexists. eexists. split; [exact (publish_run isoDay pg w body v Henv Hparse Hok)|].
  cbn. split; [reflexivity|]. split; [reflexivity|]. split; [reflexivity|].
  split; [reflexivity|].
  exists earlier. split; [exact Hin|]. split; [exact Hr|]. split; [exact Hb | exact Hi].
Qed.

Lemma publish_ignores_overlap_witness :
  let body := Demo.publish ["a2"; "b9"] in
  let v := {| Releases.v_repo := "octo/demo"; Releases.v_branch := "main";
              Releases.v_mode := Date; Releases.v_baseSha := "a1";
              Releases.v_headSha := "a3"; Releases.v_markdown := "# Release v1.1.0";
              Releases.v_commits_list := ["a2"; "b9"];
              Releases.v_originalParams := Releases.body_originalParams body |} in
  (configured_releases (env Demo.published) = true
   /\ Releases.createReleaseSchema_parse body Demo.published = (Ret v, Demo.published)
   /\ map commits_list (release_slices (db Demo.published)) = [Some ["a1"; "a2"; "a3"]]
   /\ overlap_in_scope (db Demo.published) "octo/demo" "main" ["a2"; "b9"])
  /\ exists row w',
       Releases.POST Demo.isoDay Demo.pg body Demo.published
       = (Ret {| status := 201;
                 json := Document (Releases.transformReleaseSlice Demo.isoDay row) |}, w')
       /\ release_slices (db w') = (release_slices (db Demo.published) ++ [row])%list
       /\ commits_list row = Some ["a2"; "b9"].
Proof.
  intros body v.
  assert (O : overlap_in_scope (db Demo.published) "octo/demo" "main" ["a2"; "b9"]).
  { eexists. split; [left; reflexivity|]. split; [reflexivity|]. split; [reflexivity|].
    exists "a2". split; cbn; auto. }
  split.
  - split; [reflexivity | split; [reflexivity | split; [reflexivity | exact O]]].
  - destruct (publish_ignores_overlap Demo.isoDay Demo.pg Demo.published body v
                eq_refl eq_refl eq_refl O) as [row [w' [Hrun [Hrows [_ [_ [Hlist _]]]]]]].
    exists row, w'. split; [exact Hrun | split; [exact Hrows | exact Hlist]].
Defined.

Lemma In_insert_desc (x row : ReleaseSlice) (l : list ReleaseSlice) :
  In x (Supabase.insert_desc row l) <-> x = row \/ In x l.
Proof.
  induction l as [|y l IH]; cbn.
  - intuition congruence.
  - destruct (published_at y <=? published_at row)%Z; cbn; [intuition congruence|].
    rewrite IH. intuition congruence.
Qed.

Lemma In_order_desc (x : ReleaseSlice) (l : list ReleaseSlice) :
  In x (Supabase.order_desc l) <-> In x l.
Proof.
  induction l as [|y l IH]; cbn; [tauto|].
  rewrite In_insert_desc, IH. intuition congruence.
Qed.

Lemma GET_run (isoDay : string -> string) (w : World) (r : string) (b : option string) :
  configured_releases (env w) = true ->
  r <> "" ->
  Releases.GET isoDay (Some r) b w
  = (Ret {| status := 200;
            json := Document (map (Releases.transformReleaseSlice isoDay)
                                (Supabase.order_desc
                                   (filter (Supabase.in_repo r b) (release_slices (db w))))) |},
     log (Sql (SelectRepo r b)) w).
Proof.
  intros Henv Hr. apply String.eqb_neq in Hr.
  unfold Releases.GET, try_catch. cbn.
  rewrite (releases_env_ok w Henv). cbn. rewrite Hr. reflexivity.
Qed.

Lemma parsed_release (body : Releases.Body) (v : Releases.Validated) (w : World) :
  Releases.createReleaseSchema_parse body w = (Ret v, w) ->
  Releases.v_repo v <> "" /\ Releases.v_commits_list v <> []
  /\ Releases.body_commits_list body = Some (Releases.v_commits_list v).
Proof.
  unfold Releases.createReleaseSchema_parse, Releases.min1.
  destruct (Releases.body_repo body) as [r|]; [|cbn; discriminate].
  destruct (r =? "") eqn:Er; [cbn; discriminate|].
  destruct (Releases.body_mode body) as [m|]; [|cbn; discriminate].
  destruct (Generate.parse_mode m) as [mo|]; [|cbn; discriminate].
  destruct (Releases.body_baseSha body) as [bs|]; [|cbn; discriminate].
  destruct (bs =? ""); [cbn; discriminate|].
  destruct (Releases.body_headSha body) as [hs|]; [|cbn; discriminate].
  destruct (hs =? ""); [cbn; discriminate|].
  destruct (Releases.body_markdown body) as [md|]; [|cbn; discriminate].
  destruct (md =? ""); [cbn; discriminate|].
  destruct (Releases.body_commits_list body) as [[|c cl]|]; cbn; try discriminate.
  intros H. inversion H; subst. cbn. apply String.eqb_neq in Er.
  repeat split; [assumption | discriminate].
Qed.

(** C8. Round trip of the store: after a publish that is answered 201, the
    rows the list operation selects for that repo (with no branch filter or
    with the record's branch) include the new row, and the [commits_list]
    the store returns for it is exactly the inserted list, hence equal to it
    as a set.  The list handler answers with these rows, each in the
    frontend format of [transformReleaseSlice]. *)
Theorem publish_then_list (isoDay : string -> string) (pg : Postgres) (w : World)
        (body : Releases.Body) (v : Releases.Validated) (b : option string) :
  configured_releases (env w) = true ->
  Releases.createReleaseSchema_parse body w = (Ret v, w) ->
  Supabase.column_ok pg (ins_start_date (Releases.insertData v))
  && Supabase.column_ok pg (ins_end_date (Releases.insertData v)) = true ->
  b = None \/ b = Some (Releases.v_branch v) ->
  let w' := snd (Releases.POST isoDay pg body w) in
  exists rows row,
    fst (Supabase.select_repo (Releases.v_repo v) b w')
    = Ret {| data := Some rows; error := None |}
    /\ In row rows
    /\ id row = gen_random_uuid pg (serial (db w))
    /\ commits_list row = Some (Releases.v_commits_list v)
    /\ same_set (commitShas row) (Releases.v_commits_list v)
    /\ fst (Releases.GET isoDay (Some (Releases.v_repo v)) b w')
       = Ret {| status := 200;
                json := Document (map (Releases.transformReleaseSlice isoDay) rows) |}
    /\ In (Releases.transformReleaseSlice isoDay row)
          (map (Releases.transformReleaseSlice isoDay) rows).
Proof.
  intros Henv Hparse Hok Hb w'.
  destruct (parsed_release body v w Hparse) as [Hrepo _].
  unfold w'. rewrite (publish_run isoDay pg w body v Henv Hparse Hok). cbn [snd].
  set (row := Supabase.new_row pg (serial (db w)) (Releases.insertData v)).
  eexists. exists row. split; [reflexivity|].
  assert (Hin : In row (Supabase.order_desc
                          (filter (Supabase.in_repo (Releases.v_repo v) b)
                                  (release_slices (db w) ++ [row])))).
  { apply In_order_desc, filter_In. split.
    - apply in_or_app. right. now left.
    - unfold Supabase.in_repo. cbn. rewrite String.eqb_refl. cbn.
      destruct Hb as [->| ->]; [reflexivity|]. cbn.
      destruct (Releases.v_branch v =? "") eqn:E; cbn; [reflexivity|].
      apply String.eqb_refl. }
  split; [exact Hin|]. split; [reflexivity|]. split; [reflexivity|].
  split; [intros s; reflexivity|]. split.
  - rewrite GET_run; [reflexivity | exact Henv | exact Hrepo].
  - apply in_map. exact Hin.
Qed.

Lemma publish_then_list_witness :
  let body := Demo.publish ["a1"; "a2"; "a3"] in
  let v := {| Releases.v_repo := "octo/demo"; Releases.v_branch := "main";
              Releases.v_mode := Date; Releases.v_baseSha := "a1";
              Releases.v_headSha := "a3"; Releases.v_markdown := "# Release v1.1.0";
              Releases.v_commits_list := ["a1"; "a2"; "a3"];
              Releases.v_originalParams := Releases.body_originalParams body |} in
  (configured_releases (env Demo.empty) = true
   /\ Releases.createReleaseSchema_parse body Demo.empty = (Ret v, Demo.empty)
   /\ Supabase.column_ok Demo.pg (ins_start_date (Releases.insertData v))
      && Supabase.column_ok Demo.pg (ins_end_date (Releases.insertData v)) = true)
  /\ exists rows row,
       fst (Supabase.select_repo "octo/demo" None Demo.published)
       = Ret {| data := Some rows; error := None |}
       /\ In row rows
       /\ id row = gen_random_uuid Demo.pg 0
       /\ commits_list row = Some ["a1"; "a2"; "a3"]
       /\ same_set (commitShas row) ["a1"; "a2"; "a3"]
       /\ fst (Releases.GET Demo.isoDay (Some "octo/demo") None Demo.published)
          = Ret {| status := 200;
                   json := Document (map (Releases.transformReleaseSlice Demo.isoDay) rows) |}
       /\ In (Releases.transformReleaseSlice Demo.isoDay row)
             (map (Releases.transformReleaseSlice Demo.isoDay) rows).
Proof.
  intros body v. split.
  - split; [reflexivity | split; reflexivity].
  - exact (publish_then_list Demo.isoDay Demo.pg Demo.empty body v None
             eq_refl eq_refl eq_refl (or_introl eq_refl)).
Defined.

Lemma set_markdown_same (md : string) (row : ReleaseSlice) :
  same_but_markdown row (Supabase.set_markdown md row)
  /\ markdown (Supabase.set_markdown md row) = md.
Proof. unfold same_but_markdown. cbn. intuition reflexivity. Qed.

Lemma same_but_markdown_refl (row : ReleaseSlice) : same_but_markdown row row.
Proof. unfold same_but_markdown. intuition reflexivity. Qed.

Lemma edited_rows_frame (key md : string) (rows : list ReleaseSlice) :
  Forall2 (fun old new =>
             same_but_markdown old new
             /\ (id old <> key -> new = old)
             /\ (id old = key -> markdown new = md))
          rows
          (map (fun row => if id row =? key then Supabase.set_markdown md row else row) rows).
Proof.
  induction rows as [|row rows IH]; cbn; constructor; [|exact IH].
  destruct (id row =? key) eqn:E.
  - apply String.eqb_eq in E. split; [apply set_markdown_same|]. split.
    + intros N. contradiction.
    + intros _. reflexivity.
  - apply String.eqb_neq in E. split; [apply same_but_markdown_refl|]. split.
    + reflexivity.
    + intros K. contradiction.
Qed.

Lemma edited_rows_overlap (key md r b : string) (candidate : list string)
      (rows : list ReleaseSlice) :
  existsb (fun row => Generate.some_has row candidate)
          (filter (Supabase.in_scope r b)
                  (map (fun row => if id row =? key then Supabase.set_markdown md row else row)
                       rows))
  = existsb (fun row => Generate.some_has row candidate)
            (filter (Supabase.in_scope r b) rows).
Proof.
  induction rows as [|row rows IH]; [reflexivity|].
  cbn. destruct (id row =? key); cbn.
  - change (Supabase.in_scope r b (Supabase.set_markdown md row))
      with (Supabase.in_scope r b row).
    destruct (Supabase.in_scope r b row); cbn; now rewrite IH.
  - destruct (Supabase.in_scope r b row); cbn; now rewrite IH.
Qed.

(** C9, on the code. With an id and a markdown given, in a configured
    deployment: when one row has the id, PUT answers 200 with that row in the
    frontend format, every row keeps all its columns but [markdown], rows
    with another id are untouched, and the overlap check answers as before;
    when no row has the id, PUT answers 500 "Failed to update changelog"
    (the error [single] reports for an empty result comes first), not 404,
    and the table is unchanged. *)
Theorem PUT_frame_and_unknown_id (isoDay : string -> string) (w : World)
        (key md : string) :
  configured_releases (env w) = true ->
  key <> "" -> md <> "" ->
  let body := {| Releases.edit_id := Some key; Releases.edit_markdown := Some md |} in
  (forall hit,
      filter (fun row => id row =? key) (release_slices (db w)) = [hit] ->
      exists w',
        Releases.PUT isoDay body w
        = (Ret {| status := 200;
                  json := Document (Releases.transformReleaseSlice isoDay
                                      (Supabase.set_markdown md hit)) |}, w')
        /\ Forall2 (fun old new =>
                      same_but_markdown old new
                      /\ (id old <> key -> new = old)
                      /\ (id old = key -> markdown new = md))
                   (release_slices (db w)) (release_slices (db w'))
        /\ (forall r b candidate,
              fst (Generate.checkCommitsOverlap r b candidate w')
              = fst (Generate.checkCommitsOverlap r b candidate w)))
  /\ (filter (fun row => id row =? key) (release_slices (db w)) = [] ->
      Releases.PUT isoDay body w
      = (Ret {| status := 500; json := Problem "Failed to update changelog" |},
         log (Sql (UpdateMarkdown key md)) w)).
Proof.
  intros Henv Hkey Hmd body.
  apply String.eqb_neq in Hkey, Hmd.
  split.
  - intros hit Hhit. eexists. split; [|split].
    + unfold Releases.PUT, try_catch. cbn.
      rewrite (releases_env_ok w Henv). cbn. rewrite Hkey, Hmd. cbn.
      unfold Supabase.update_markdown. rewrite Hhit. reflexivity.
    + cbn. apply edited_rows_frame.
    + intros r b candidate. apply checkCommitsOverlap_ext; [reflexivity|].
      cbn. apply edited_rows_overlap.
  - intros Hnone.
    unfold Releases.PUT, try_catch. cbn.
    rewrite (releases_env_ok w Henv). cbn. rewrite Hkey, Hmd. cbn.
    unfold Supabase.update_markdown. rewrite Hnone. reflexivity.
Qed.

Lemma PUT_frame_and_unknown_id_witness :
  (configured_releases (env Demo.published) = true
   /\ "uuid-404" <> "" /\ "# Edited" <> ""
   /\ filter (fun row => id row =? "uuid-404") (release_slices (db Demo.published)) = [])
  /\ Releases.PUT Demo.isoDay
       {| Releases.edit_id := Some "uuid-404"; Releases.edit_markdown := Some "# Edited" |}
       Demo.published
     = (Ret {| status := 500; json := Problem "Failed to update changelog" |},
        log (Sql (UpdateMarkdown "uuid-404" "# Edited")) Demo.published).
Proof.
  assert (K : "uuid-404" <> "") by discriminate.
  assert (T : "# Edited" <> "") by discriminate.
  split.
  - split; [reflexivity | split; [exact K | split; [exact T | reflexivity]]].
  - exact (proj2 (PUT_frame_and_unknown_id Demo.isoDay Demo.published
                    "uuid-404" "# Edited" eq_refl K T) eq_refl).
Defined.

(** ** The boundary lookup of date mode *)

#[local] Arguments first_page : simpl never.

Lemma newest_firstb_sound (instant : string -> Z) (history : list Commit) :
  newest_firstb instant history = true -> newest_first instant history.
Proof.
  induction history as [|c rest IH]; cbn; intros H; constructor.
  - apply IH. now apply andb_true_iff in H.
  - apply andb_true_iff in H. destruct H as [H _].
    apply Forall_forall. intros c' Hc'.
    rewrite forallb_forall in H. specialize (H c' Hc').
    unfold newer_or_same. now apply Z.leb_le.
Qed.

Lemma StronglySorted_keep {A : Type} (R : A -> A -> Prop) (keep : A -> bool) (l : list A) :
  StronglySorted R l -> StronglySorted R (filter keep l).
Proof.
  induction 1 as [|a l Hs IH Hall]; cbn; [constructor|].
  destruct (keep a); [|exact IH].
  constructor; [exact IH|].
  apply Forall_forall. intros x Hx. apply filter_In in Hx.
  rewrite Forall_forall in Hall. now apply Hall.
Qed.

Lemma StronglySorted_firstn {A : Type} (R : A -> A -> Prop) (n : nat) (l : list A) :
  StronglySorted R l -> StronglySorted R (firstn n l).
Proof.
  intros H. revert n. induction H as [|a l Hs IH Hall]; intros [|n]; cbn;
    try constructor.
  - apply IH.
  - apply Forall_forall. intros x Hx.
    rewrite Forall_forall in Hall. apply Hall.
    rewrite <- (firstn_skipn n l). apply in_or_app. now left.
Qed.

(** The last element of a sorted list is below all the others. *)
Lemma StronglySorted_last {A : Type} (R : A -> A -> Prop) (l : list A) (x : A) :
  (forall a, R a a) ->
  StronglySorted R l ->
  nth_error l (length l - 1) = Some x ->
  In x l /\ forall y, In y l -> R y x.
Proof.
  intros Hrefl H. revert x. induction H as [|a l Hs IH Hall]; intros x Hx.
  - discriminate.
  - destruct l as [|b l'].
    + cbn in Hx. inversion Hx; subst. split; [now left|].
      intros y [<-|[]]. apply Hrefl.
    + cbn [length] in Hx. replace (S (S (length l')) - 1) with (S (length (b :: l') - 1)) in Hx
        by (cbn; lia).
      cbn [nth_error] in Hx. destruct (IH x Hx) as [Hin Hall'].
      split; [now right|].
      intros y [<-|Hy].
      * rewrite Forall_forall in Hall. now apply Hall.
      * now apply Hall'.
Qed.

Lemma nth_error_last_some {A : Type} (l : list A) :
  l <> [] -> exists x, nth_error l (length l - 1) = Some x.
Proof.
  intros H. destruct (nth_error l (length l - 1)) as [x|] eqn:E; [now exists x|].
  apply nth_error_None in E. destruct l; [contradiction | cbn in E; lia].
Qed.

Section BoundaryLookup.
Variable instant : string -> Z.
Variable gh : GitHub.
Variables repo branch : string.
Variable history : list Commit.
Hypothesis sorted : newest_first instant history.
Hypothesis listing : lists_history instant gh repo branch history.

Lemma lookup_empty (date : string) (isStart : bool) :
  first_page instant (if isStart then Since date else Until date) history = [] ->
  Generate.findCommitShaByDate gh repo branch date isStart
  = (Throw (Error ("No commits found " ++ (if isStart then "since" else "until")
                   ++ " " ++ date)),
     [ListCommits repo branch (if isStart then Since date else Until date)]).
Proof.
  intros H. unfold Generate.findCommitShaByDate. cbn.
  rewrite listing, H. reflexivity.
Qed.

Lemma lookup_page (date : string) (isStart : bool) (c : Commit) :
  nth_error (first_page instant (if isStart then Since date else Until date) history)
            (if isStart
             then length (first_page instant (Since date) history) - 1
             else 0) = Some c ->
  Generate.findCommitShaByDate gh repo branch date isStart
  = (Ret (sha c), [ListCommits repo branch (if isStart then Since date else Until date)]).
Proof.
  intros H. unfold Generate.findCommitShaByDate.
  destruct isStart; cbn; rewrite listing; cbn.
  - destruct (first_page instant (Since date) history) as [|c0 page];
      [discriminate|].
    cbn [length Nat.eqb]. cbn [length] in H. now rewrite H.
  - destruct (first_page instant (Until date) history) as [|c0 page];
      [discriminate|].
    cbn in H. inversion H; subst. reflexivity.
Qed.

Lemma first_page_nil (bound : DateBound) :
  first_page instant bound history = [] <-> window instant bound history = [].
Proof.
  unfold first_page, per_page. destruct (window instant bound history); cbn.
  - tauto.
  - split; discriminate.
Qed.

Lemma page_sorted (bound : DateBound) :
  StronglySorted (newer_or_same instant) (first_page instant bound history).
Proof. apply StronglySorted_firstn, StronglySorted_keep, sorted. Qed.

Lemma in_page (bound : DateBound) (c : Commit) :
  In c (first_page instant bound history) ->
  In c history /\ in_window instant bound c = true.
Proof.
  unfold first_page, window. intros H.
  apply filter_In. rewrite <- (firstn_skipn per_page (filter _ history)).
  apply in_or_app. now left.
Qed.

Lemma end_edge_newest (date : string) :
  window instant (Until date) history <> [] ->
  exists c,
    Generate.findCommitShaByDate gh repo branch date false
    = (Ret (sha c), [ListCommits repo branch (Until date)])
    /\ newest_at_or_before instant history date c.
Proof.
  intros H.
  destruct (window instant (Until date) history) as [|c rest] eqn:E; [contradiction|].
  exists c. split.
  - apply (lookup_page date false). unfold first_page. rewrite E. reflexivity.
  - assert (S0 : StronglySorted (newer_or_same instant) (c :: rest)).
    { rewrite <- E. apply StronglySorted_keep, sorted. }
    assert (Hc : In c (window instant (Until date) history)) by (rewrite E; now left).
    apply filter_In in Hc. destruct Hc as [Hin Hw]. cbn in Hw. apply Z.leb_le in Hw.
    split; [exact Hin|]. split; [exact Hw|].
    intros c' Hin' Hw'.
    assert (Hc' : In c' (c :: rest)).
    { rewrite <- E. apply filter_In. split; [exact Hin'|]. cbn. now apply Z.leb_le. }
    destruct Hc' as [<-|Hr]; [lia|].
    inversion S0 as [|? ? _ Hall]; subst. rewrite Forall_forall in Hall.
    exact (Hall c' Hr).
Qed.

Lemma start_edge_oldest (date : string) :
  window instant (Since date) history <> [] ->
  length (window instant (Since date) history) <= per_page ->
  exists c,
    Generate.findCommitShaByDate gh repo branch date true
    = (Ret (sha c), [ListCommits repo branch (Since date)])
    /\ oldest_at_or_after instant history date c.
Proof.
  intros H Hlen.
  assert (Hp : first_page instant (Since date) history <> []).
  { intros E. apply first_page_nil in E. contradiction. }
  destruct (nth_error_last_some _ Hp) as [c Hc].
  exists c. split; [exact (lookup_page date true c Hc)|].
  destruct (StronglySorted_last (newer_or_same instant) _ c
              (fun a => Z.le_refl _) (page_sorted (Since date)) Hc) as [Hin Hall].
  destruct (in_page _ _ Hin) as [Hh Hw]. cbn in Hw. apply Z.leb_le in Hw.
  split; [exact Hh|]. split; [exact Hw|].
  intros c' Hc' Hw'. apply Hall.
  unfold first_page. rewrite firstn_all2 by exact Hlen.
  apply filter_In. split; [exact Hc'|]. cbn. now apply Z.leb_le.
Qed.

End BoundaryLookup.



(** ** The three modes on one range *)

Section Convergence.
Variable instant : string -> Z.
Variable gh : GitHub.
Variables repo branch : string.
Variable history : list Commit.
Hypothesis sorted : newest_first instant history.
Hypothesis listing : lists_history instant gh repo branch history.
Hypothesis identified : forall c, In c history -> sha c <> "".

End Convergence.



(** * Further properties of the handlers *)

(** ** Actions that only read *)

Lemma reads_only_ret {A : Type} (a : A) : reads_only (ret a : M A).
Proof. intros w. cbn. repeat split. exists []. now rewrite app_nil_r. Qed.

Lemma reads_only_throw {A : Type} (e : exn) : reads_only (throw e : M A).
Proof. intros w. cbn. repeat split. exists []. now rewrite app_nil_r. Qed.

Lemma reads_only_bind {A B : Type} (m : M A) (k : A -> M B) :
  reads_only m -> (forall a, reads_only (k a)) -> reads_only (bind m k).
Proof.
  intros Hm Hk w. specialize (Hm w). cbn.
  destruct (m w) as [[a|e] w1]; cbn in *.
  - destruct Hm as [E1 [D1 [t1 [T1 W1]]]].
    destruct (Hk a w1) as [E2 [D2 [t2 [T2 W2]]]].
    split; [congruence|]. split; [congruence|].
    exists (t1 ++ t2)%list. rewrite T2, T1, app_assoc, existsb_app, W1, W2. now split.
  - exact Hm.
Qed.

Lemma reads_only_try_catch {A : Type} (body : M A) (handler : exn -> M A) :
  reads_only body -> (forall e, reads_only (handler e)) -> reads_only (try_catch body handler).
Proof.
  intros Hm Hk w. specialize (Hm w). unfold try_catch.
  destruct (body w) as [[a|e] w1]; cbn in *.
  - exact Hm.
  - destruct Hm as [E1 [D1 [t1 [T1 W1]]]].
    destruct (Hk e w1) as [E2 [D2 [t2 [T2 W2]]]].
    split; [congruence|]. split; [congruence|].
    exists (t1 ++ t2)%list. rewrite T2, T1, app_assoc, existsb_app, W1, W2. now split.
Qed.

Lemma reads_only_respond {A : Type} (body : Json A) (code : Z) : reads_only (respond body code).
Proof. apply reads_only_ret. Qed.

Lemma reads_only_liftG {A : Type} (g : G A) : reads_only (liftG g).
Proof.
  intros w. rewrite liftG_run. cbn. repeat split.
  exists (map Sent (snd g)). split; [reflexivity|].
  induction (snd g) as [|rq l IH]; [reflexivity | exact IH].
Qed.

Lemma reads_only_log {A : Type} (r : World -> outcome A) (e : Effect) :
  is_write e = false -> reads_only (fun w => (r w, log e w)).
Proof.
  intros H w. cbn. repeat split. exists [e]. cbn. now rewrite H.
Qed.

Lemma reads_only_generate_env : reads_only Generate.validateEnvironment.
Proof.
  unfold Generate.validateEnvironment, getenv. intros w. cbn.
  match goal with |- context [if ?c then _ else _] => destruct c end;
    cbn; repeat split; exists []; now rewrite app_nil_r.
Qed.

Lemma reads_only_releases_env : reads_only Releases.validateEnvironment.
Proof.
  unfold Releases.validateEnvironment, getenv. intros w. cbn.
  match goal with |- context [if ?c then _ else _] => destruct c end;
    cbn; repeat split; exists []; now rewrite app_nil_r.
Qed.

Lemma reads_only_generate_parse (body : Generate.Body) :
  reads_only (Generate.generateSchema_parse body).
Proof.
  unfold Generate.generateSchema_parse.
  destruct (_ ++ _)%list, (Generate.body_repo body), (Generate.body_mode body);
    try apply reads_only_throw.
  destruct (Generate.parse_mode _); [apply reads_only_ret | apply reads_only_throw].
Qed.

Lemma reads_only_checkCommitsOverlap (r b : string) (candidate : list string) :
  reads_only (Generate.checkCommitsOverlap r b candidate).
Proof.
  unfold Generate.checkCommitsOverlap.
  apply reads_only_bind; [apply reads_only_generate_env | intros _].
  apply reads_only_bind.
  - unfold Supabase.select_scope.
    now apply (reads_only_log
                 (fun w => Ret {| data := Some (filter (Supabase.in_scope r b)
                                                       (release_slices (db w)));
                                  error := None |})).
  - intros answer. destruct (error answer); [apply reads_only_throw|].
    destruct (data answer) as [rows|]; [|apply reads_only_ret].
    destruct (length rows =? 0)%nat; apply reads_only_ret.
Qed.

Lemma reads_only_formatDate (date : option (option Z)) :
  reads_only (Generate.formatDate date).
Proof.
  destruct date as [[z|]|];
    [apply reads_only_ret | apply reads_only_throw | apply reads_only_throw].
Qed.

Lemma reads_only_generateChangelog (js : Engine) (ai : OpenAI) (fetched : list Commit) :
  reads_only (Generate.generateChangelog js ai fetched).
Proof.
  unfold Generate.generateChangelog.
  apply reads_only_bind; [apply reads_only_formatDate | intros _].
  apply reads_only_bind; [apply reads_only_formatDate | intros _].
  apply reads_only_bind; [apply reads_only_formatDate | intros _].
  intros w. destruct (chat_completions_create ai _); cbn; repeat split; eexists; split;
    reflexivity.
Qed.

Lemma reads_only_generate_on_error (e : exn) : reads_only (Generate.on_error e).
Proof.
  unfold Generate.on_error. destruct e as [issues|message];
    repeat match goal with
           | |- reads_only (if ?c then _ else _) => destruct c
           end; apply reads_only_respond.
Qed.

Lemma reads_only_generate_POST (gh : GitHub) (js : Engine) (ai : OpenAI) (body : Generate.Body) :
  reads_only (Generate.POST gh js ai body).
Proof.
  unfold Generate.POST. apply reads_only_try_catch;
    [|intros e; apply reads_only_generate_on_error].
  apply reads_only_bind.
  { unfold Generate.initializeOpenAI.
    apply reads_only_bind; [apply reads_only_generate_env | intros; apply reads_only_ret]. }
  intros _. apply reads_only_bind; [apply reads_only_generate_parse|]. intros v.
  apply reads_only_bind; [apply reads_only_liftG|]. intros range.
  apply reads_only_bind; [apply reads_only_liftG|]. intros fetched.
  destruct (length fetched =? 0)%nat; [apply reads_only_respond|].
  apply reads_only_bind; [apply reads_only_checkCommitsOverlap|]. intros [|].
  - apply reads_only_respond.
  - apply reads_only_bind; [apply reads_only_generateChangelog|].
    intros md. apply reads_only_respond.
Qed.

(** X1. The generate handler never writes: whatever the request, the
    provider and the generator answer, it leaves the environment and the
    table as they are and logs no insert and no update. *)
Theorem generate_never_writes (gh : GitHub) (js : Engine) (ai : OpenAI) (body : Generate.Body) :
  reads_only (Generate.POST gh js ai body).
Proof. exact (reads_only_generate_POST gh js ai body). Qed.

(** ** The generate handler, case by case *)

Lemma generate_env_missing (w : World) :
  configured_generate (env w) = false ->
  exists names,
    Generate.validateEnvironment w
    = (Throw (Error ("Missing required environment variables: " ++ names)), w).
Proof.
  unfold configured_generate, Generate.validateEnvironment, getenv. cbn.
  destruct (JS.truthy (GITHUB_PAT (env w))), (JS.truthy (OPENAI_API_KEY (env w))),
    (JS.truthy (NEXT_PUBLIC_SUPABASE_URL (env w))),
    (JS.truthy (SUPABASE_SERVICE_ROLE_KEY (env w))),
    (JS.truthy (HELICONE_API_KEY (env w))); cbn; intros H;
    try discriminate; eexists; reflexivity.
Qed.

(** X2. With an environment variable missing, the generate handler answers
    500 "Server configuration error" before reading the request: nothing is
    sent and the world is unchanged. *)
Theorem generate_unconfigured (gh : GitHub) (js : Engine) (ai : OpenAI) (body : Generate.Body)
        (w : World) :
  configured_generate (env w) = false ->
  Generate.POST gh js ai body w
  = (Ret {| status := 500; json := Problem "Server configuration error" |}, w).
Proof.
  intros H. destruct (generate_env_missing w H) as [names E].
  unfold Generate.POST, try_catch, Generate.initializeOpenAI. cbn.
  rewrite E. reflexivity.
Qed.

Lemma generate_unconfigured_witness :
  let w := {| env := {| GITHUB_PAT := Some "ghp"; OPENAI_API_KEY := None;
                        NEXT_PUBLIC_SUPABASE_URL := Some "https://db";
                        SUPABASE_SERVICE_ROLE_KEY := Some "role";
                        HELICONE_API_KEY := Some "" |};
              db := db Demo.published; trace := [] |} in
  configured_generate (env w) = false
  /\ Generate.POST Demo.gh Demo.js Demo.ai
       {| Generate.body_repo := None; Generate.body_branch := None;
          Generate.body_mode := None;
          Generate.body_params := {| p_start := None; p_end := None;
                                     p_base := None; p_head := None |} |} w
     = (Ret {| status := 500; json := Problem "Server configuration error" |}, w).
Proof.
  intros w. split; [reflexivity|].
  exact (generate_unconfigured Demo.gh Demo.js Demo.ai _ w eq_refl).
Defined.

Lemma no_overlap_false (d : Database) (r b : string) (candidate : list string) :
  ~ overlap_in_scope d r b candidate ->
  existsb (fun row => Generate.some_has row candidate)
          (filter (Supabase.in_scope r b) (release_slices d)) = false.
Proof.
  intros H. destruct (existsb _ _) eqn:E; [|reflexivity].
  apply overlap_exists_iff in E. contradiction.
Qed.

(** What the sorted dates hold at both ends. *)
Lemma sorted_ends (js : Engine) (P : option Z -> Prop) (l : list (option Z)) :
  rearranges js -> l <> [] -> Forall P l ->
  exists first last,
    nth_error (Array_sort js l) 0 = Some first
    /\ nth_error (Array_sort js l) (length (Array_sort js l) - 1) = Some last
    /\ P first /\ P last.
Proof.
  intros Hjs Hne Hall.
  assert (Hall' : Forall P (Array_sort js l)).
  { exact (Permutation_Forall (Hjs l) Hall). }
  assert (Hne' : Array_sort js l <> []).
  { intros E. apply Hne. apply Permutation_nil. rewrite <- E.
    apply Permutation_sym, Hjs. }
  destruct (nth_error_last_some _ Hne') as [last Hlast].
  destruct (Array_sort js l) as [|first rest] eqn:E; [contradiction|].
  exists first, last. split; [reflexivity|]. split; [exact Hlast|].
  rewrite Forall_forall in Hall'. split.
  - apply Hall'. now left.
  - apply Hall'. exact (nth_error_In _ _ Hlast).
Qed.

Lemma sorted_nothing (js : Engine) : rearranges js -> Array_sort js [] = [].
Proof. intros Hjs. apply Permutation_nil, Hjs. Qed.

Lemma dates_of (js : Engine) (P : option Z -> Prop) (fetched : list Commit) :
  Forall (fun c => P (Date_parse js (commit_author_date c))) fetched ->
  Forall P (map (fun c => Date_parse js (sum_date c))
                (map Generate.commitSummary fetched)).
Proof.
  induction 1 as [|c rest Hc _ IH]; cbn; constructor; assumption.
Qed.

Lemma summaries_nonempty (fetched : list Commit) (js : Engine) :
  fetched <> [] ->
  map (fun c => Date_parse js (sum_date c)) (map Generate.commitSummary fetched) <> [].
Proof. destruct fetched; [contradiction | discriminate]. Qed.

(** With every date read, the dates pass and the generator is called. *)
Lemma generateChangelog_run (js : Engine) (ai : OpenAI) (fetched : list Commit)
      (w : World) :
  rearranges js -> fetched <> [] -> dates_read js fetched ->
  Generate.generateChangelog js ai fetched w
  = (match chat_completions_create ai (map Generate.commitSummary fetched) with
     | Ret content => Ret (JS.or_else content Generate.fallback)
     | Throw e => Throw e
     end,
     log (Chat (map Generate.commitSummary fetched)) w).
Proof.
  intros Hjs Hne Hread.
  destruct (sorted_ends js (fun d => d <> None) _ Hjs (summaries_nonempty fetched js Hne)
              (dates_of js _ fetched Hread)) as [first [last [E1 [E2 [P1 P2]]]]].
  unfold Generate.generateChangelog. cbv zeta. rewrite E1, E2.
  destruct first as [z1|]; [|contradiction]. destruct last as [z2|]; [|contradiction].
  cbn. destruct (chat_completions_create ai _); reflexivity.
Qed.

(** With no date read, the first day asked for has no ISO form. *)
Lemma generateChangelog_unread (js : Engine) (ai : OpenAI) (fetched : list Commit)
      (w : World) :
  rearranges js -> fetched <> [] -> dates_unread js fetched ->
  Generate.generateChangelog js ai fetched w = (Throw (Error "Invalid time value"), w).
Proof.
  intros Hjs Hne Hun.
  destruct (sorted_ends js (fun d => d = None) _ Hjs (summaries_nonempty fetched js Hne)
              (dates_of js _ fetched Hun)) as [first [last [E1 [E2 [P1 P2]]]]].
  unfold Generate.generateChangelog. cbv zeta. rewrite E1. subst first. reflexivity.
Qed.

Lemma generateChangelog_nothing (js : Engine) (ai : OpenAI) (w : World) :
  rearranges js ->
  Generate.generateChangelog js ai [] w
  = (Throw (Error "Cannot read properties of undefined (reading 'toISOString')"), w).
Proof.
  intros Hjs. unfold Generate.generateChangelog. cbv zeta. cbn [map].
  rewrite (sorted_nothing js Hjs). reflexivity.
Qed.

#[local] Arguments Generate.generateChangelog : simpl never.

(** The generate handler up to the drafting call, with commits fetched and
    no overlap in scope: the requests, the select, then the call. *)
Lemma generate_to_draft (gh : GitHub) (js : Engine) (ai : OpenAI) (w : World)
      (body : Generate.Body) (v : Generate.Validated) (range : ShaRange)
      (fetched : list Commit) :
  configured_generate (env w) = true ->
  Generate.generateSchema_parse body w = (Ret v, w) ->
  let resolve := Generate.convertToShaRange gh (Generate.v_repo v) (Generate.v_branch v)
                   (Generate.v_mode v) (Generate.v_params v) in
  let fetching := Generate.fetchCommits gh (Generate.v_repo v) (Generate.v_branch v)
                    (Generate.v_mode v) (Generate.v_params v) in
  fst resolve = Ret range ->
  fst fetching = Ret fetched ->
  fetched <> [] ->
  ~ overlap_in_scope (db w) (Generate.v_repo v) (Generate.v_branch v) (map sha fetched) ->
  let w1 := {| env := env w; db := db w;
               trace := (trace w ++ map Sent (snd resolve ++ snd fetching)
                         ++ [Sql (SelectScope (Generate.v_repo v)
                                              (Generate.v_branch v))])%list |} in
  Generate.POST gh js ai body w
  = match Generate.generateChangelog js ai fetched w1 with
    | (Ret markdown, w2) =>
        (Ret {| status := 200;
                json := Document
                          {| Generate.d_markdown := markdown;
                             Generate.d_repo := Generate.v_repo v;
                             Generate.d_branch := Generate.v_branch v;
                             Generate.d_mode := Generate.v_mode v;
                             Generate.d_baseSha := baseSha range;
                             Generate.d_headSha := headSha range;
                             Generate.d_commits_list := map sha fetched;
                             Generate.d_originalParams := Generate.v_params v |} |}, w2)
    | (Throw e, w2) => Generate.on_error e w2
    end.
Proof.
  intros Henv Hparse resolve fetching Hrange Hfetch Hne Hfree w1.
  unfold Generate.POST, try_catch. cbn.
  rewrite (initializeOpenAI_ok w Henv), Hparse. cbn.
  rewrite liftG_run. fold resolve. rewrite Hrange. cbn.
  rewrite liftG_run. fold fetching. rewrite Hfetch. cbn.
  assert (L : (length fetched =? 0)%nat = false)
    by (destruct fetched; [contradiction | reflexivity]).
  rewrite L.
  rewrite checkCommitsOverlap_run by exact Henv. cbn [db].
  rewrite (no_overlap_false _ _ _ _ Hfree). cbn.
  assert (W : log (Sql (SelectScope (Generate.v_repo v) (Generate.v_branch v)))
                {| env := env w; db := db w;
                   trace := ((trace w ++ map Sent (snd resolve))
                             ++ map Sent (snd fetching))%list |} = w1).
  { unfold w1, log. cbn. now rewrite map_app, <- !app_assoc. }
  rewrite W.
  destruct (Generate.generateChangelog js ai fetched w1) as [[markdown|e] w2]; reflexivity.
Qed.

Lemma generate_drafts_run (gh : GitHub) (js : Engine) (ai : OpenAI) (w : World)
        (body : Generate.Body) (v : Generate.Validated) (range : ShaRange)
        (fetched : list Commit) (content : option string) :
  rearranges js ->
  configured_generate (env w) = true ->
  Generate.generateSchema_parse body w = (Ret v, w) ->
  let resolve := Generate.convertToShaRange gh (Generate.v_repo v) (Generate.v_branch v)
                   (Generate.v_mode v) (Generate.v_params v) in
  let fetching := Generate.fetchCommits gh (Generate.v_repo v) (Generate.v_branch v)
                    (Generate.v_mode v) (Generate.v_params v) in
  let prompted := map Generate.commitSummary fetched in
  fst resolve = Ret range ->
  fst fetching = Ret fetched ->
  fetched <> [] ->
  ~ overlap_in_scope (db w) (Generate.v_repo v) (Generate.v_branch v) (map sha fetched) ->
  dates_read js fetched ->
  chat_completions_create ai prompted = Ret content ->
  Generate.POST gh js ai body w
  = (Ret {| status := 200;
            json := Document
                      {| Generate.d_markdown := JS.or_else content Generate.fallback;
                         Generate.d_repo := Generate.v_repo v;
                         Generate.d_branch := Generate.v_branch v;
                         Generate.d_mode := Generate.v_mode v;
                         Generate.d_baseSha := baseSha range;
                         Generate.d_headSha := headSha range;
                         Generate.d_commits_list := map sha fetched;
                         Generate.d_originalParams := Generate.v_params v |} |},
     {| env := env w; db := db w;
        trace := (trace w ++ map Sent (snd resolve ++ snd fetching)
                  ++ [Sql (SelectScope (Generate.v_repo v) (Generate.v_branch v));
                      Chat prompted])%list |}).
Proof.
  intros Hjs Henv Hparse resolve fetching prompted Hrange Hfetch Hne Hfree Hread Hchat.
  rewrite (generate_to_draft gh js ai w body v range fetched Henv Hparse Hrange Hfetch
             Hne Hfree).
  rewrite (generateChangelog_run js ai fetched _ Hjs Hne Hread).
  fold prompted. rewrite Hchat. unfold log. cbn.
  fold resolve. fold fetching. now rewrite <- !app_assoc.
Qed.

(** X3. A generate request whose range resolves, whose compare call returns
    commits and whose scope holds no overlapping record reaches the
    drafting code after the resolution requests (sent twice over: once by
    the handler, once inside the fetch) and one scoped select.  When the
    engine reads the date of every fetched commit and the generator
    answers, the request is answered 200 with the draft: the markdown is
    the generator's text, or the fixed fallback document when the generator
    returns nothing; the commits list is the SHAs of the fetched commits in
    order; the range is the resolved pair.  When the engine reads the date
    of none of them, the request is answered 500 "Internal server error"
    and the generator is not called. *)
Theorem generate_drafts (gh : GitHub) (js : Engine) (ai : OpenAI) (w : World)
        (body : Generate.Body) (v : Generate.Validated) (range : ShaRange)
        (fetched : list Commit) :
  rearranges js ->
  configured_generate (env w) = true ->
  Generate.generateSchema_parse body w = (Ret v, w) ->
  let resolve := Generate.convertToShaRange gh (Generate.v_repo v) (Generate.v_branch v)
                   (Generate.v_mode v) (Generate.v_params v) in
  let fetching := Generate.fetchCommits gh (Generate.v_repo v) (Generate.v_branch v)
                    (Generate.v_mode v) (Generate.v_params v) in
  let prompted := map Generate.commitSummary fetched in
  let asked := (map Sent (snd resolve ++ snd fetching)
                ++ [Sql (SelectScope (Generate.v_repo v) (Generate.v_branch v))])%list in
  fst resolve = Ret range ->
  fst fetching = Ret fetched ->
  fetched <> [] ->
  ~ overlap_in_scope (db w) (Generate.v_repo v) (Generate.v_branch v) (map sha fetched) ->
  (forall content,
      dates_read js fetched ->
      chat_completions_create ai prompted = Ret content ->
      Generate.POST gh js ai body w
      = (Ret {| status := 200;
                json := Document
                          {| Generate.d_markdown := JS.or_else content Generate.fallback;
                             Generate.d_repo := Generate.v_repo v;
                             Generate.d_branch := Generate.v_branch v;
                             Generate.d_mode := Generate.v_mode v;
                             Generate.d_baseSha := baseSha range;
                             Generate.d_headSha := headSha range;
                             Generate.d_commits_list := map sha fetched;
                             Generate.d_originalParams := Generate.v_params v |} |},
         {| env := env w; db := db w;
            trace := (trace w ++ asked ++ [Chat prompted])%list |}))
  /\ (dates_unread js fetched ->
      Generate.POST gh js ai body w
      = (Ret {| status := 500; json := Problem "Internal server error" |},
         {| env := env w; db := db w; trace := (trace w ++ asked)%list |})).
Proof.
  intros Hjs Henv Hparse resolve fetching prompted asked Hrange Hfetch Hne Hfree. split.
  - intros content Hread Hchat.
    rewrite (generate_drafts_run gh js ai w body v range fetched content Hjs Henv Hparse
               Hrange Hfetch Hne Hfree Hread Hchat).
    unfold asked. fold resolve. fold fetching. fold prompted.
    now rewrite <- !app_assoc.
  - intros Hun.
    rewrite (generate_to_draft gh js ai w body v range fetched Henv Hparse Hrange Hfetch
               Hne Hfree).
    rewrite (generateChangelog_unread js ai fetched _ Hjs Hne Hun).
    reflexivity.
Qed.

Lemma insert_date_rearranges (d : option Z) (l : list (option Z)) :
  Permutation (d :: l) (Demo.insert_date d l).
Proof.
  induction l as [|x rest IH]; cbn; [apply Permutation_refl|].
  destruct (Demo.sooner d x); [|apply Permutation_refl].
  apply (perm_trans (perm_swap x d rest)). now apply perm_skip.
Qed.

Lemma demo_engine_rearranges : rearranges Demo.js.
Proof.
  intros l. induction l as [|d rest IH]; cbn; [apply perm_nil|].
  apply (perm_trans (perm_skip d IH)). apply insert_date_rearranges.
Qed.

Lemma generate_drafts_witness :
  let body := {| Generate.body_repo := Some "octo/demo"; Generate.body_branch := None;
                 Generate.body_mode := Some "tag";
                 Generate.body_params := {| p_start := None; p_end := None;
                                            p_base := Some "v1.0.0";
                                            p_head := Some "v1.1.0" |} |} in
  let v := {| Generate.v_repo := "octo/demo"; Generate.v_branch := "main";
              Generate.v_mode := Tag; Generate.v_params := Generate.body_params body |} in
  (rearranges Demo.js
   /\ configured_generate (env Demo.empty) = true
   /\ Generate.generateSchema_parse body Demo.empty = (Ret v, Demo.empty)
   /\ fst (Generate.fetchCommits Fixtures.stamped "octo/demo" "main" Tag (Generate.v_params v))
      = Ret [Fixtures.s3; Fixtures.s2]
   /\ fst (Generate.fetchCommits Demo.gh "octo/demo" "main" Tag (Generate.v_params v))
      = Ret [Demo.a3; Demo.a2]
   /\ ~ overlap_in_scope (db Demo.empty) "octo/demo" "main" ["a3"; "a2"]
   /\ dates_read Demo.js [Fixtures.s3; Fixtures.s2]
   /\ dates_unread Demo.js [Demo.a3; Demo.a2])
  /\ fst (Generate.POST Fixtures.stamped Demo.js Demo.ai body Demo.empty)
     = Ret {| status := 200;
              json := Document
                        {| Generate.d_markdown := "# Release v1.1.0";
                           Generate.d_repo := "octo/demo"; Generate.d_branch := "main";
                           Generate.d_mode := Tag;
                           Generate.d_baseSha := "a1"; Generate.d_headSha := "a3";
                           Generate.d_commits_list := ["a3"; "a2"];
                           Generate.d_originalParams := Generate.body_params body |} |}
  /\ fst (Generate.POST Demo.gh Demo.js Demo.ai body Demo.empty)
     = Ret {| status := 500; json := Problem "Internal server error" |}.
Proof.
  intros body v.
  assert (F : ~ overlap_in_scope (db Demo.empty) "octo/demo" "main" ["a3"; "a2"]).
  { intros [row [[] _]]. }
  assert (N : [Fixtures.s3; Fixtures.s2] <> []) by discriminate.
  assert (N' : [Demo.a3; Demo.a2] <> []) by discriminate.
  assert (D : dates_read Demo.js [Fixtures.s3; Fixtures.s2]).
  { repeat constructor; discriminate. }
  assert (D' : dates_unread Demo.js [Demo.a3; Demo.a2]).
  { repeat constructor. }
  split.
  - split; [exact demo_engine_rearranges|].
    split; [reflexivity | split; [reflexivity | split; [reflexivity |]]].
    split; [reflexivity | split; [exact F | split; [exact D | exact D']]].
  - split.
    + exact (f_equal fst
               (proj1 (generate_drafts Fixtures.stamped Demo.js Demo.ai Demo.empty body v
                         {| baseSha := "a1"; headSha := "a3" |} [Fixtures.s3; Fixtures.s2]
                         demo_engine_rearranges eq_refl eq_refl eq_refl eq_refl N F)
                      (Some "# Release v1.1.0") D eq_refl)).
    + exact (f_equal fst
               (proj2 (generate_drafts Demo.gh Demo.js Demo.ai Demo.empty body v
                         {| baseSha := "a1"; headSha := "a3" |} [Demo.a3; Demo.a2]
                         demo_engine_rearranges eq_refl eq_refl eq_refl eq_refl N' F)
                      D')).
Defined.

(** X4. When the compare call returns no commit the handler answers 404
    with the message of the request's mode, which quotes the requested
    bounds and the branch; no select and no generator call is made. *)
Theorem generate_empty_range (gh : GitHub) (js : Engine) (ai : OpenAI) (w : World)
        (body : Generate.Body) (v : Generate.Validated) :
  configured_generate (env w) = true ->
  Generate.generateSchema_parse body w = (Ret v, w) ->
  fst (Generate.fetchCommits gh (Generate.v_repo v) (Generate.v_branch v)
         (Generate.v_mode v) (Generate.v_params v)) = Ret [] ->
  exists w' added,
    Generate.POST gh js ai body w
    = (Ret {| status := 404; json := Problem (Generate.emptyRangeMessage v) |}, w')
    /\ trace w' = (trace w ++ added)%list
    /\ existsb is_sql added = false
    /\ existsb is_chat added = false.
Proof.
  intros Henv Hparse Hfetch.
  destruct (fetchCommits_resolved _ _ _ _ _ _ Hfetch) as [range Hrange].
  eexists. eexists. split; [|split; [|split]].
  - unfold Generate.POST, try_catch. cbn.
    rewrite (initializeOpenAI_ok w Henv), Hparse. cbn.
    rewrite liftG_run, Hrange. cbn.
    rewrite liftG_run, Hfetch. cbn. reflexivity.
  - cbn. rewrite <- app_assoc. reflexivity.
  - rewrite existsb_app.
    assert (Q : forall l, existsb is_sql (map Sent l) = false)
      by (induction l; [reflexivity | assumption]).
    now rewrite !Q.
  - rewrite existsb_app.
    assert (Q : forall l, existsb is_chat (map Sent l) = false)
      by (induction l; [reflexivity | assumption]).
    now rewrite !Q.
Qed.

Lemma generate_empty_range_witness :
  let body := {| Generate.body_repo := Some "octo/demo"; Generate.body_branch := None;
                 Generate.body_mode := Some "sha";
                 Generate.body_params := {| p_start := None; p_end := None;
                                            p_base := Some "a3"; p_head := Some "a3" |} |} in
  let v := {| Generate.v_repo := "octo/demo"; Generate.v_branch := "main";
              Generate.v_mode := Sha; Generate.v_params := Generate.body_params body |} in
  (configured_generate (env Demo.published) = true
   /\ Generate.generateSchema_parse body Demo.published = (Ret v, Demo.published)
   /\ fst (Generate.fetchCommits Fixtures.idle "octo/demo" "main" Sha (Generate.v_params v))
      = Ret [])
  /\ exists w' added,
       Generate.POST Fixtures.idle Demo.js Demo.ai body Demo.published
       = (Ret {| status := 404;
                 json := Problem "No commits found between SHA 'a3' and 'a3' on branch 'main'." |},
          w')
       /\ trace w' = (trace Demo.published ++ added)%list
       /\ existsb is_sql added = false
       /\ existsb is_chat added = false.
Proof.
  intros body v. split.
  - split; [reflexivity | split; reflexivity].
  - exact (generate_empty_range Fixtures.idle Demo.js Demo.ai Demo.published body v
             eq_refl eq_refl eq_refl).
Defined.

(** X25. The overlap check gates the generate operation, before drafting:
    a generate request whose fetched commits share a SHA with a persisted
    record of the same (repo, branch) is answered 400 with the overlap
    message; the table is unchanged and the generator is not called. *)
Theorem generate_blocks_overlap (gh : GitHub) (js : Engine) (ai : OpenAI) (w : World)
        (body : Generate.Body) (v : Generate.Validated) (fetched : list Commit) :
  configured_generate (env w) = true ->
  Generate.generateSchema_parse body w = (Ret v, w) ->
  fst (Generate.fetchCommits gh (Generate.v_repo v) (Generate.v_branch v)
         (Generate.v_mode v) (Generate.v_params v)) = Ret fetched ->
  overlap_in_scope (db w) (Generate.v_repo v) (Generate.v_branch v) (map sha fetched) ->
  exists w' added,
    Generate.POST gh js ai body w
    = (Ret {| status := 400; json := Problem Generate.overlapMessage |}, w')
    /\ db w' = db w
    /\ trace w' = (trace w ++ added)%list
    /\ existsb is_chat added = false.
Proof.
  intros Henv Hparse Hfetch Hover.
  destruct (generate_overlap_run gh js ai w body v fetched Henv Hparse Hfetch Hover)
    as [sent Hrun].
  eexists. eexists. split; [exact Hrun|]. cbn. split; [reflexivity|].
  split; [reflexivity|].
  rewrite existsb_app. cbn. rewrite orb_false_r.
  clear Hrun. induction sent as [|rq sent IH]; [reflexivity | exact IH].
Qed.

Lemma generate_blocks_overlap_witness :
  let draft := {| Generate.body_repo := Some "octo/demo"; Generate.body_branch := None;
                  Generate.body_mode := Some "date";
                  Generate.body_params := {| p_start := Some "20240101";
                                             p_end := Some "20240103";
                                             p_base := None; p_head := None |} |} in
  let v := {| Generate.v_repo := "octo/demo"; Generate.v_branch := "main";
              Generate.v_mode := Date;
              Generate.v_params := Generate.body_params draft |} in
  (configured_generate (env Demo.published) = true
   /\ Generate.generateSchema_parse draft Demo.published = (Ret v, Demo.published)
   /\ fst (Generate.fetchCommits Demo.gh "octo/demo" "main" Date (Generate.v_params v))
      = Ret [Demo.a3; Demo.a2]
   /\ overlap_in_scope (db Demo.published) "octo/demo" "main" ["a3"; "a2"])
  /\ exists w' added,
       Generate.POST Demo.gh Demo.js Demo.ai draft Demo.published
       = (Ret {| status := 400; json := Problem Generate.overlapMessage |}, w')
       /\ db w' = db Demo.published
       /\ trace w' = (trace Demo.published ++ added)%list
       /\ existsb is_chat added = false.
Proof.
  intros draft v.
  assert (O : overlap_in_scope (db Demo.published) "octo/demo" "main" ["a3"; "a2"]).
  { eexists. split; [left; reflexivity|]. split; [reflexivity|]. split; [reflexivity|].
    exists "a2". split; cbn; auto. }
  split.
  - split; [reflexivity | split; [reflexivity | split; [reflexivity | exact O]]].
  - exact (generate_blocks_overlap Demo.gh Demo.js Demo.ai Demo.published
             draft v [Demo.a3; Demo.a2] eq_refl eq_refl eq_refl O).
Defined.

(** ** The provider calls of the resolver *)

(** X5. The compare call is the last request of a fetch and is made only
    when the range has resolved: a failed resolution is passed on with the
    requests it made and no compare call, and a 404 from the compare call
    is raised as "Repository not found or commit range not accessible",
    which the generate handler answers with 404. *)
Theorem fetchCommits_requests (gh : GitHub) (repo branch : string) (m : Mode) (p : Params) :
  let resolve := Generate.convertToShaRange gh repo branch m p in
  (forall e, fst resolve = Throw e ->
      Generate.fetchCommits gh repo branch m p = (Throw e, snd resolve))
  /\ (forall range, fst resolve = Ret range ->
        snd (Generate.fetchCommits gh repo branch m p)
        = (snd resolve ++ [Compare repo (baseSha range) (headSha range)])%list)
  /\ (forall range statusText, fst resolve = Ret range ->
        compare gh repo (baseSha range) (headSha range) = Failure 404 statusText ->
        fst (Generate.fetchCommits gh repo branch m p)
        = Throw (Error "Repository not found or commit range not accessible")
        /\ forall w : World,
             Generate.on_error
               (Error "Repository not found or commit range not accessible") w
             = (Ret {| status := 404;
                       json := Problem "Repository not found or not accessible" |}, w)).
Proof.
  intros resolve. unfold Generate.fetchCommits. fold resolve.
  destruct resolve as [[range|e] sent]; cbn; split; [| split | | split].
  - discriminate.
  - intros r E. inversion E; subst.
    destruct (compare gh repo (baseSha r) (headSha r)) as [body|status statusText]; cbn;
      [reflexivity|]. destruct (status =? 404)%Z; reflexivity.
  - intros r statusText E H. inversion E; subst. rewrite H. cbn. split; reflexivity.
  - intros e' E. inversion E; subst. reflexivity.
  - discriminate.
  - discriminate.
Qed.

Lemma fetchCommits_requests_witness :
  let p := {| p_start := None; p_end := None; p_base := Some "v1.0.0"; p_head := Some "v2" |} in
  let q := {| p_start := None; p_end := None; p_base := Some "a3"; p_head := Some "a1" |} in
  (fst (Generate.convertToShaRange Demo.gh "octo/demo" "main" Tag p)
   = Throw (Error "Tag 'v2' not found")
   /\ fst (Generate.convertToShaRange Demo.gh "octo/demo" "main" Sha q)
      = Ret {| baseSha := "a3"; headSha := "a1" |}
   /\ compare Demo.gh "octo/demo" "a3" "a1" = Failure 404 "Not Found")
  /\ Generate.fetchCommits Demo.gh "octo/demo" "main" Tag p
     = (Throw (Error "Tag 'v2' not found"),
        [GetTagRef "octo/demo" "v1.0.0"; GetTagRef "octo/demo" "v2"])
  /\ fst (Generate.fetchCommits Demo.gh "octo/demo" "main" Sha q)
     = Throw (Error "Repository not found or commit range not accessible").
Proof.
  intros p q. split.
  - split; [reflexivity | split; reflexivity].
  - split.
    + exact (proj1 (fetchCommits_requests Demo.gh "octo/demo" "main" Tag p)
               (Error "Tag 'v2' not found") eq_refl).
    + exact (proj1 (proj2 (proj2 (fetchCommits_requests Demo.gh "octo/demo" "main" Sha q))
                      {| baseSha := "a3"; headSha := "a1" |} "Not Found" eq_refl eq_refl)).
Defined.

(** X6. [resolveTagToSha] sends the ref request first and at most one more,
    for the tag object the ref points to.  Any failure of the ref request
    other than 404 is raised as "GitHub API error: <status> <text>", and any
    failure of the tag-object request, 404 included, as "Failed to resolve
    annotated tag: <status> <text>". *)
Theorem resolveTagToSha_requests (gh : GitHub) (repo tag : string) :
  (exists more,
      snd (Generate.resolveTagToSha gh repo tag) = GetTagRef repo tag :: more
      /\ (more = [] \/ exists t, more = [GetTagObject repo t]))
  /\ (forall status statusText,
        git_refs_tags gh repo tag = Failure status statusText ->
        status <> 404%Z ->
        Generate.resolveTagToSha gh repo tag
        = (Throw (Error ("GitHub API error: " ++ JS.show status ++ " " ++ statusText)),
           [GetTagRef repo tag]))
  /\ (forall t status statusText,
        git_refs_tags gh repo tag
        = Success {| object := {| obj_type := "tag"; obj_sha := t |} |} ->
        git_tags gh repo t = Failure status statusText ->
        Generate.resolveTagToSha gh repo tag
        = (Throw (Error ("Failed to resolve annotated tag: "
                         ++ JS.show status ++ " " ++ statusText)),
           [GetTagRef repo tag; GetTagObject repo t])).
Proof.
  unfold Generate.resolveTagToSha. split; [|split].
  - cbn. destruct (git_refs_tags gh repo tag) as [tagData|status statusText]; cbn.
    + destruct (obj_type (object tagData) =? "tag"); cbn.
      * destruct (git_tags gh repo (obj_sha (object tagData))); cbn;
          eexists; (split; [reflexivity|]); right; eexists; reflexivity.
      * eexists. split; [reflexivity|]. now left.
    + destruct (status =? 404)%Z; cbn; eexists; (split; [reflexivity|]); now left.
  - intros status statusText H N. cbn. rewrite H. cbn.
    apply Z.eqb_neq in N. now rewrite N.
  - intros t status statusText H H0. cbn. rewrite H. cbn. rewrite H0. reflexivity.
Qed.

Lemma resolveTagToSha_requests_witness :
  (git_refs_tags Fixtures.flaky "octo/demo" "v9" = Failure 503 "Service Unavailable"
   /\ 503%Z <> 404%Z
   /\ git_refs_tags Fixtures.flaky "octo/demo" "v1.1.0"
      = Success {| object := {| obj_type := "tag"; obj_sha := "t1" |} |}
   /\ git_tags Fixtures.flaky "octo/demo" "t1" = Failure 404 "Not Found")
  /\ Generate.resolveTagToSha Fixtures.flaky "octo/demo" "v9"
     = (Throw (Error "GitHub API error: 503 Service Unavailable"),
        [GetTagRef "octo/demo" "v9"])
  /\ Generate.resolveTagToSha Fixtures.flaky "octo/demo" "v1.1.0"
     = (Throw (Error "Failed to resolve annotated tag: 404 Not Found"),
        [GetTagRef "octo/demo" "v1.1.0"; GetTagObject "octo/demo" "t1"]).
Proof.
  assert (N : 503%Z <> 404%Z) by discriminate.
  split.
  - split; [reflexivity | split; [exact N | split; reflexivity]].
  - split.
    + exact (proj1 (proj2 (resolveTagToSha_requests Fixtures.flaky "octo/demo" "v9"))
               503%Z "Service Unavailable" eq_refl N).
    + exact (proj2 (proj2 (resolveTagToSha_requests Fixtures.flaky "octo/demo" "v1.1.0"))
               "t1" 404%Z "Not Found" eq_refl eq_refl).
Defined.

(** ** Date mode, from the window to the pair *)

Section DateMode.
Variable instant : string -> Z.
Variable gh : GitHub.
Variables repo branch : string.
Variable history : list Commit.
Hypothesis sorted : newest_first instant history.
Hypothesis listing : lists_history instant gh repo branch history.

(** X7. Date mode turns a window into a pair by two lookups in order: with
    at most 100 commits at or after the start, the base is the oldest commit
    at or after the start and the head is the newest commit at or before the
    end.  When no commit lies at or after the start the resolver fails after
    the first lookup, without asking for the end; when none lies at or
    before the end it fails after both. *)
Theorem date_mode_resolves_window (from to : string) :
  from <> "" -> to <> "" ->
  let p := {| p_start := Some from; p_end := Some to; p_base := None; p_head := None |} in
  (window instant (Since from) history <> [] ->
   length (window instant (Since from) history) <= per_page ->
   window instant (Until to) history <> [] ->
   exists c1 c2,
     Generate.convertToShaRange gh repo branch Date p
     = (Ret {| baseSha := sha c1; headSha := sha c2 |},
        [ListCommits repo branch (Since from); ListCommits repo branch (Until to)])
     /\ oldest_at_or_after instant history from c1
     /\ newest_at_or_before instant history to c2)
  /\ (window instant (Since from) history = [] ->
      Generate.convertToShaRange gh repo branch Date p
      = (Throw (Error ("No commits found since " ++ from)),
         [ListCommits repo branch (Since from)]))
  /\ (window instant (Since from) history <> [] ->
      window instant (Until to) history = [] ->
      Generate.convertToShaRange gh repo branch Date p
      = (Throw (Error ("No commits found until " ++ to)),
         [ListCommits repo branch (Since from); ListCommits repo branch (Until to)])).
Proof.
  intros Hf Ht p. apply String.eqb_neq in Hf, Ht.
  unfold Generate.convertToShaRange. cbn. rewrite Hf, Ht. cbn.
  split; [|split].
  - intros Hs Hlen Hu.
    destruct (start_edge_oldest instant gh repo branch history sorted listing
                from Hs Hlen) as [c1 [E1 O1]].
    destruct (end_edge_newest instant gh repo branch history sorted listing
                to Hu) as [c2 [E2 O2]].
    exists c1, c2. rewrite E1. cbn. rewrite E2. cbn.
    split; [reflexivity | split; assumption].
  - intros Hs. apply (first_page_nil instant history) in Hs.
    rewrite (lookup_empty instant gh repo branch history listing from true Hs).
    reflexivity.
  - intros Hs Hu.
    assert (Hp : first_page instant (Since from) history <> []).
    { intros E. apply (first_page_nil instant history) in E. contradiction. }
    destruct (nth_error_last_some _ Hp) as [c Hc].
    rewrite (lookup_page instant gh repo branch history listing from true c Hc). cbn.
    apply (first_page_nil instant history) in Hu.
    rewrite (lookup_empty instant gh repo branch history listing to false Hu).
    reflexivity.
Qed.
End DateMode.

Lemma date_mode_resolves_window_witness :
  (newest_first Demo.instant Demo.history
   /\ lists_history Demo.instant Demo.gh "octo/demo" "main" Demo.history
   /\ "20240102" <> "" /\ "20240103" <> ""
   /\ window Demo.instant (Since "20240102") Demo.history <> []
   /\ length (window Demo.instant (Since "20240102") Demo.history) <= per_page
   /\ window Demo.instant (Until "20240103") Demo.history <> [])
  /\ exists c1 c2,
       Generate.convertToShaRange Demo.gh "octo/demo" "main" Date
         {| p_start := Some "20240102"; p_end := Some "20240103";
            p_base := None; p_head := None |}
       = (Ret {| baseSha := sha c1; headSha := sha c2 |},
          [ListCommits "octo/demo" "main" (Since "20240102");
           ListCommits "octo/demo" "main" (Until "20240103")])
       /\ oldest_at_or_after Demo.instant Demo.history "20240102" c1
       /\ newest_at_or_before Demo.instant Demo.history "20240103" c2.
Proof.
  assert (S0 : newest_first Demo.instant Demo.history).
  { apply newest_firstb_sound. reflexivity. }
  assert (L : lists_history Demo.instant Demo.gh "octo/demo" "main" Demo.history).
  { intros bound. reflexivity. }
  assert (F : "20240102" <> "") by discriminate.
  assert (T : "20240103" <> "") by discriminate.
  assert (N : window Demo.instant (Since "20240102") Demo.history <> []).
  { cbn. discriminate. }
  assert (P : length (window Demo.instant (Since "20240102") Demo.history) <= per_page).
  { cbn. unfold per_page. lia. }
  assert (U : window Demo.instant (Until "20240103") Demo.history <> []).
  { cbn. discriminate. }
  split.
  - repeat (split; [assumption|]). exact U.
  - exact (proj1 (date_mode_resolves_window Demo.instant Demo.gh "octo/demo" "main"
                    Demo.history S0 L "20240102" "20240103" F T) N P U).
Defined.

(** ** What the generator is given and what comes back *)

Lemma substring_prefix (n : nat) (s : string) : prefix (substring 0 n s) s = true.
Proof.
  revert s. induction n as [|n IH]; intros [|c s]; cbn; try reflexivity.
  rewrite IH. now destruct (ascii_dec c c).
Qed.

Lemma substring_length_le (n : nat) (s : string) : String.length (substring 0 n s) <= n.
Proof.
  revert s. induction n as [|n IH]; intros [|c s]; cbn; try lia.
  specialize (IH s). lia.
Qed.

Lemma first_line_prefix (s : string) : prefix (JS.first_line s) s = true.
Proof.
  induction s as [|c s IH]; cbn; [reflexivity|].
  destruct (Ascii.eqb c "010"%char); cbn; [reflexivity|].
  rewrite IH. now destruct (ascii_dec c c).
Qed.

Lemma first_line_single (s : string) :
  ~ In "010"%char (list_ascii_of_string (JS.first_line s)).
Proof.
  induction s as [|c s IH]; cbn; [tauto|].
  destruct (Ascii.eqb c "010"%char) eqn:E; cbn; [tauto|].
  intros [H|H]; [|now apply IH].
  subst. now rewrite Ascii.eqb_refl in E.
Qed.

Lemma or_else_nonempty (v : option string) (d : string) : d <> "" -> JS.or_else v d <> "".
Proof.
  intros Hd. destruct v as [s|]; cbn; [|exact Hd].
  destruct (s =? "") eqn:E; [exact Hd|]. now apply String.eqb_neq.
Qed.

Lemma substring_split (n : nat) (s : string) :
  exists rest, s = substring 0 n s ++ rest.
Proof.
  revert s. induction n as [|n IH]; intros [|c s]; cbn.
  - now exists "".
  - now exists (String c s).
  - now exists "".
  - destruct (IH s) as [rest E]. exists rest. now rewrite <- E.
Qed.

Lemma substring_length_min (n : nat) (s : string) :
  String.length (substring 0 n s) = Nat.min n (String.length s).
Proof.
  revert s. induction n as [|n IH]; intros [|c s]; cbn; try reflexivity.
  now rewrite IH.
Qed.

Lemma first_line_split (s : string) :
  exists rest,
    s = JS.first_line s ++ rest
    /\ (rest = "" \/ exists t, rest = String "010"%char t).
Proof.
  induction s as [|c s [rest [E Hrest]]]; cbn.
  - exists "". split; [reflexivity | now left].
  - destruct (Ascii.eqb c "010"%char) eqn:Ec.
    + apply Ascii.eqb_eq in Ec. subst c. exists (String "010"%char s).
      split; [reflexivity|]. right. now exists s.
    + exists rest. split; [cbn; now rewrite <- E | exact Hrest].
Qed.

(** X8. What the drafting code asks of its input and what it hands on.
    Each summary is cut from its commit: the SHA is its first 7 characters
    (all of it when shorter), the message is its first line (everything
    before the first newline), author and date are copied.  On an empty
    list the code throws before the generator is called, since there is no
    date to print; so it does on commits none of whose dates the engine can
    read.  When the engine reads every date, the generator is called once,
    on the summaries in order; if it returns, the markdown is never empty:
    it is the returned text, or the fallback document when that text is
    missing or empty; if it throws, the error is passed on. *)
Theorem generateChangelog_summaries (js : Engine) (ai : OpenAI) (fetched : list Commit)
        (w : World) :
  rearranges js ->
  let prompted := map Generate.commitSummary fetched in
  let drafting := Generate.generateChangelog js ai fetched w in
  Forall2 (fun c s =>
             (exists rest,
                 sha c = sum_sha s ++ rest
                 /\ String.length (sum_sha s) = Nat.min 7 (String.length (sha c)))
             /\ (exists rest,
                    commit_message c = sum_message s ++ rest
                    /\ ~ In "010"%char (list_ascii_of_string (sum_message s))
                    /\ (rest = "" \/ exists t, rest = String "010"%char t))
             /\ sum_author s = commit_author_name c
             /\ sum_date s = commit_author_date c)
          fetched prompted
  /\ (fetched = [] ->
      drafting
      = (Throw (Error "Cannot read properties of undefined (reading 'toISOString')"), w))
  /\ (fetched <> [] -> dates_unread js fetched ->
      drafting = (Throw (Error "Invalid time value"), w))
  /\ (fetched <> [] -> dates_read js fetched ->
      snd drafting
      = {| env := env w; db := db w; trace := (trace w ++ [Chat prompted])%list |}
      /\ match chat_completions_create ai prompted with
         | Ret content =>
             exists md, fst drafting = Ret md
                        /\ md <> ""
                        /\ (JS.truthy content = true -> content = Some md)
                        /\ (JS.truthy content = false -> md = Generate.fallback)
         | Throw e => fst drafting = Throw e
         end).
Proof.
  intros Hjs prompted drafting. split; [|split; [|split]].
  - unfold prompted. induction fetched as [|c rest IH]; cbn; constructor; [|exact IH].
    cbn. split; [|split; [|split; reflexivity]].
    + destruct (substring_split 7 (sha c)) as [r E]. exists r.
      split; [exact E | apply substring_length_min].
    + destruct (first_line_split (commit_message c)) as [r [E Hr]]. exists r.
      split; [exact E|]. split; [apply first_line_single | exact Hr].
  - intros ->. exact (generateChangelog_nothing js ai w Hjs).
  - intros Hne Hun. exact (generateChangelog_unread js ai fetched w Hjs Hne Hun).
  - intros Hne Hread. unfold drafting.
    rewrite (generateChangelog_run js ai fetched w Hjs Hne Hread). fold prompted.
    split; [reflexivity|]. cbn [fst].
    destruct (chat_completions_create ai prompted) as [content|e]; [|reflexivity].
    eexists. split; [reflexivity|]. split; [|split].
    + apply or_else_nonempty. discriminate.
    + destruct content as [s|]; cbn; [|discriminate].
      destruct (s =? ""); [discriminate | reflexivity].
    + destruct content as [s|]; cbn; [|reflexivity].
      destruct (s =? ""); [reflexivity | discriminate].
Qed.

Lemma generateChangelog_summaries_witness :
  (rearranges Demo.js
   /\ [Fixtures.s3; Fixtures.s2] <> []
   /\ dates_read Demo.js [Fixtures.s3; Fixtures.s2]
   /\ dates_unread Demo.js [Demo.a3; Demo.a2])
  /\ (exists md,
        fst (Generate.generateChangelog Demo.js Demo.ai [Fixtures.s3; Fixtures.s2]
               Demo.empty) = Ret md
        /\ md <> "")
  /\ Generate.generateChangelog Demo.js Demo.ai [Demo.a3; Demo.a2] Demo.empty
     = (Throw (Error "Invalid time value"), Demo.empty)
  /\ Generate.generateChangelog Demo.js Demo.ai [] Demo.empty
     = (Throw (Error "Cannot read properties of undefined (reading 'toISOString')"),
        Demo.empty).
Proof.
  assert (N : [Fixtures.s3; Fixtures.s2] <> []) by discriminate.
  assert (N' : [Demo.a3; Demo.a2] <> []) by discriminate.
  assert (D : dates_read Demo.js [Fixtures.s3; Fixtures.s2]).
  { repeat constructor; discriminate. }
  assert (D' : dates_unread Demo.js [Demo.a3; Demo.a2]).
  { repeat constructor. }
  split; [split; [exact demo_engine_rearranges | split; [exact N | split; [exact D | exact D']]]|].
  split; [|split].
  - destruct (generateChangelog_summaries Demo.js Demo.ai [Fixtures.s3; Fixtures.s2]
                Demo.empty demo_engine_rearranges) as [_ [_ [_ H]]].
    destruct (H N D) as [_ K]. cbn in K.
    destruct K as [md [E [Hmd _]]]. exists md. split; [exact E | exact Hmd].
  - exact (proj1 (proj2 (proj2 (generateChangelog_summaries Demo.js Demo.ai
                                  [Demo.a3; Demo.a2] Demo.empty demo_engine_rearranges)))
             N' D').
  - exact (proj1 (proj2 (generateChangelog_summaries Demo.js Demo.ai [] Demo.empty
                           demo_engine_rearranges)) eq_refl).
Defined.

(** ** The overlap check as a function of sets and of the scope *)

Lemma generate_check_unconfigured (w : World) (r b : string) (candidate : list string) :
  configured_generate (env w) = false ->
  exists e, forall c, Generate.checkCommitsOverlap r b c w = (Throw e, w).
Proof.
  intros H. destruct (generate_env_missing w H) as [names E].
  eexists. intros c. unfold Generate.checkCommitsOverlap. cbn. rewrite E. reflexivity.
Qed.

Lemma intersects_same_set (a c1 c2 : list string) :
  same_set c1 c2 -> intersects a c1 <-> intersects a c2.
Proof.
  intros H. unfold intersects. split; intros [s [Ha Hc]]; exists s; split;
    try assumption; now apply H.
Qed.

(** X9. The overlap check reads the candidate as a set: two candidate lists
    with the same elements, in any order and with any repetitions, get the
    same answer; and in a configured deployment the empty candidate never
    overlaps. *)
Theorem overlap_check_is_set_valued (w : World) (r b : string) :
  (forall c1 c2, same_set c1 c2 ->
      fst (Generate.checkCommitsOverlap r b c1 w)
      = fst (Generate.checkCommitsOverlap r b c2 w))
  /\ (configured_generate (env w) = true ->
      fst (Generate.checkCommitsOverlap r b [] w) = Ret false).
Proof.
  split.
  - intros c1 c2 H. destruct (configured_generate (env w)) eqn:Henv.
    + rewrite !checkCommitsOverlap_run by exact Henv. cbn. f_equal.
      apply Bool.eq_iff_eq_true. rewrite !overlap_exists_iff.
      unfold overlap_in_scope. split; intros [row [Hin [Hr [Hb Hi]]]]; exists row;
        repeat split; try assumption.
      * now apply (intersects_same_set _ c1 c2).
      * now apply (intersects_same_set _ c1 c2).
    + destruct (generate_check_unconfigured w r b [] Henv) as [e E].
      now rewrite !E.
  - intros Henv. rewrite checkCommitsOverlap_run by exact Henv. cbn. f_equal.
    destruct (existsb _ _) eqn:E; [|reflexivity].
    apply overlap_exists_iff in E. destruct E as [row [_ [_ [_ [s [_ []]]]]]].
Qed.

Lemma overlap_check_is_set_valued_witness :
  (same_set ["a2"; "b9"] ["b9"; "a2"; "b9"]
   /\ configured_generate (env Demo.published) = true)
  /\ fst (Generate.checkCommitsOverlap "octo/demo" "main" ["a2"; "b9"] Demo.published)
     = fst (Generate.checkCommitsOverlap "octo/demo" "main" ["b9"; "a2"; "b9"] Demo.published)
  /\ fst (Generate.checkCommitsOverlap "octo/demo" "main" [] Demo.published) = Ret false.
Proof.
  assert (S0 : same_set ["a2"; "b9"] ["b9"; "a2"; "b9"]).
  { intros s. cbn. tauto. }
  split; [split; [exact S0 | reflexivity]|].
  split.
  - exact (proj1 (overlap_check_is_set_valued Demo.published "octo/demo" "main") _ _ S0).
  - exact (proj2 (overlap_check_is_set_valued Demo.published "octo/demo" "main") eq_refl).
Defined.

Lemma overlap_after_append (rows : list ReleaseSlice) (row : ReleaseSlice) (r b : string)
      (candidate : list string) :
  existsb (fun x => Generate.some_has x candidate)
          (filter (Supabase.in_scope r b) (rows ++ [row]))
  = existsb (fun x => Generate.some_has x candidate) (filter (Supabase.in_scope r b) rows)
    || (Supabase.in_scope r b row && Generate.some_has row candidate).
Proof.
  rewrite filter_app, existsb_app. cbn [filter].
  destruct (Supabase.in_scope r b row); cbn [existsb andb]; now rewrite ?orb_false_r.
Qed.

(** X10. A publish feeds the overlap check of its own scope only.  After a
    publish answered 201, a candidate sharing a commit with the published
    list overlaps in the record's (repo, branch); a candidate sharing none
    gets the answer it got before; and in every other scope every candidate
    gets the answer it got before. *)
Theorem publish_feeds_its_scope (isoDay : string -> string) (pg : Postgres) (w : World)
        (body : Releases.Body) (v : Releases.Validated) :
  configured_releases (env w) = true ->
  configured_generate (env w) = true ->
  Releases.createReleaseSchema_parse body w = (Ret v, w) ->
  Supabase.column_ok pg (ins_start_date (Releases.insertData v))
  && Supabase.column_ok pg (ins_end_date (Releases.insertData v)) = true ->
  let w' := snd (Releases.POST isoDay pg body w) in
  (forall candidate,
      intersects (Releases.v_commits_list v) candidate ->
      fst (Generate.checkCommitsOverlap (Releases.v_repo v) (Releases.v_branch v)
             candidate w') = Ret true)
  /\ (forall candidate,
        ~ intersects (Releases.v_commits_list v) candidate ->
        fst (Generate.checkCommitsOverlap (Releases.v_repo v) (Releases.v_branch v)
               candidate w')
        = fst (Generate.checkCommitsOverlap (Releases.v_repo v) (Releases.v_branch v)
                 candidate w))
  /\ (forall r b candidate,
        r <> Releases.v_repo v \/ b <> Releases.v_branch v ->
        fst (Generate.checkCommitsOverlap r b candidate w')
        = fst (Generate.checkCommitsOverlap r b candidate w)).
Proof.
  intros Hrel Hgen Hparse Hok w'.
  unfold w'. rewrite (publish_run isoDay pg w body v Hrel Hparse Hok). cbn [snd].
  set (row := Supabase.new_row pg (serial (db w)) (Releases.insertData v)).
  assert (Hscope : Supabase.in_scope (Releases.v_repo v) (Releases.v_branch v) row = true).
  { apply in_scope_iff. split; reflexivity. }
  split; [|split].
  - intros candidate Hi. rewrite checkCommitsOverlap_run by exact Hgen.
    cbn [fst db release_slices]. f_equal.
    rewrite overlap_after_append, Hscope.
    assert (Hs : Generate.some_has row candidate = true)
      by (apply some_has_intersects; exact Hi).
    rewrite Hs. now rewrite orb_true_r.
  - intros candidate Hn. rewrite !checkCommitsOverlap_run by exact Hgen.
    cbn [fst db release_slices]. f_equal.
    rewrite overlap_after_append, Hscope.
    assert (Hs : Generate.some_has row candidate = false).
    { destruct (Generate.some_has row candidate) eqn:E; [|reflexivity].
      apply some_has_intersects in E. contradiction. }
    rewrite Hs. now rewrite orb_false_r.
  - intros r b candidate Hd. rewrite !checkCommitsOverlap_run by exact Hgen.
    cbn [fst db release_slices]. f_equal.
    rewrite overlap_after_append.
    assert (Hout : Supabase.in_scope r b row = false).
    { destruct (Supabase.in_scope r b row) eqn:E; [|reflexivity].
      apply in_scope_iff in E. cbn in E. destruct E as [E1 E2].
      destruct Hd as [Hd|Hd]; exfalso; apply Hd; congruence. }
    rewrite Hout. now rewrite orb_false_r.
Qed.

Lemma publish_feeds_its_scope_witness :
  let body := Demo.publish ["a1"; "a2"; "a3"] in
  let v := {| Releases.v_repo := "octo/demo"; Releases.v_branch := "main";
              Releases.v_mode := Date; Releases.v_baseSha := "a1";
              Releases.v_headSha := "a3"; Releases.v_markdown := "# Release v1.1.0";
              Releases.v_commits_list := ["a1"; "a2"; "a3"];
              Releases.v_originalParams := Releases.body_originalParams body |} in
  (configured_releases (env Demo.empty) = true
   /\ configured_generate (env Demo.empty) = true
   /\ Releases.createReleaseSchema_parse body Demo.empty = (Ret v, Demo.empty)
   /\ Supabase.column_ok Demo.pg (ins_start_date (Releases.insertData v))
      && Supabase.column_ok Demo.pg (ins_end_date (Releases.insertData v)) = true
   /\ intersects ["a1"; "a2"; "a3"] ["a2"; "b9"]
   /\ ("octo/demo" <> "octo/demo" \/ "release" <> "main"))
  /\ fst (Generate.checkCommitsOverlap "octo/demo" "main" ["a2"; "b9"] Demo.published)
     = Ret true
  /\ fst (Generate.checkCommitsOverlap "octo/demo" "release" ["a2"; "b9"] Demo.published)
     = fst (Generate.checkCommitsOverlap "octo/demo" "release" ["a2"; "b9"] Demo.empty).
Proof.
  intros body v.
  assert (I : intersects ["a1"; "a2"; "a3"] ["a2"; "b9"]).
  { exists "a2". cbn. tauto. }
  assert (D : "octo/demo" <> "octo/demo" \/ "release" <> "main") by (right; discriminate).
  split.
  - repeat (split; [reflexivity|]). split; [exact I | exact D].
  - destruct (publish_feeds_its_scope Demo.isoDay Demo.pg Demo.empty body v
                eq_refl eq_refl eq_refl eq_refl) as [hit [_ other]].
    split; [exact (hit _ I) | exact (other "octo/demo" "release" _ D)].
Defined.

(** ** The releases handlers, case by case *)

Lemma releases_env_missing (w : World) :
  configured_releases (env w) = false ->
  exists names,
    Releases.validateEnvironment w
    = (Throw (Error ("Missing required environment variables: " ++ names)), w).
Proof.
  unfold configured_releases, Releases.validateEnvironment, getenv. cbn.
  destruct (JS.truthy (NEXT_PUBLIC_SUPABASE_URL (env w))),
    (JS.truthy (SUPABASE_SERVICE_ROLE_KEY (env w))); cbn; intros H;
    try discriminate; eexists; reflexivity.
Qed.

Lemma releases_unconfigured_run (isoDay : string -> string) (pg : Postgres) (w : World) :
  configured_releases (env w) = false ->
  (forall r b,
      Releases.GET isoDay r b w
      = (Ret {| status := 500; json := Problem "Server configuration error" |}, w))
  /\ (forall edit,
        Releases.PUT isoDay edit w
        = (Ret {| status := 500; json := Problem "Server configuration error" |}, w))
  /\ (forall body,
        Releases.POST isoDay pg body w
        = (Ret {| status := 500; json := Problem "Server configuration error" |}, w)).
Proof.
  intros H. destruct (releases_env_missing w H) as [names E].
  split; [|split]; intros;
    unfold Releases.GET, Releases.PUT, Releases.POST, try_catch; cbn;
    rewrite E; reflexivity.
Qed.

(** X11. With a store variable missing, each handler of the releases route
    answers 500 "Server configuration error" and does nothing else: no
    statement reaches the table and the world is unchanged. *)
Theorem releases_unconfigured (isoDay : string -> string) (pg : Postgres) (w : World) :
  configured_releases (env w) = false ->
  (forall r b,
      Releases.GET isoDay r b w
      = (Ret {| status := 500; json := Problem "Server configuration error" |}, w))
  /\ (forall edit,
        Releases.PUT isoDay edit w
        = (Ret {| status := 500; json := Problem "Server configuration error" |}, w))
  /\ (forall body,
        Releases.POST isoDay pg body w
        = (Ret {| status := 500; json := Problem "Server configuration error" |}, w)).
Proof. exact (releases_unconfigured_run isoDay pg w). Qed.

Lemma releases_unconfigured_witness :
  let w := {| env := {| GITHUB_PAT := Some "ghp"; OPENAI_API_KEY := Some "sk";
                        NEXT_PUBLIC_SUPABASE_URL := Some "https://db";
                        SUPABASE_SERVICE_ROLE_KEY := None;
                        HELICONE_API_KEY := Some "hk" |};
              db := db Demo.published; trace := [] |} in
  configured_releases (env w) = false
  /\ Releases.POST Demo.isoDay Demo.pg (Demo.publish ["b9"]) w
     = (Ret {| status := 500; json := Problem "Server configuration error" |}, w).
Proof.
  intros w. split; [reflexivity|].
  exact (proj2 (proj2 (releases_unconfigured Demo.isoDay Demo.pg w eq_refl))
           (Demo.publish ["b9"])).
Defined.

Lemma releases_parse_pure (body : Releases.Body) :
  exists r, forall w, Releases.createReleaseSchema_parse body w = (r, w).
Proof.
  unfold Releases.createReleaseSchema_parse.
  repeat match goal with
         | |- context [match ?x with _ => _ end] => destruct x
         end; eexists; intros; reflexivity.
Qed.

Lemma app_nonempty_r {A : Type} (a b : list A) : b <> [] -> (a ++ b)%list <> [].
Proof. intros H E. apply app_eq_nil in E. now destruct E. Qed.

Lemma app_nonempty_l {A : Type} (a b : list A) : a <> [] -> (a ++ b)%list <> [].
Proof. intros H E. apply app_eq_nil in E. now destruct E. Qed.

Lemma min1_falsy (field message : string) (v : option string) :
  JS.truthy v = false -> Releases.min1 field message v <> [].
Proof.
  unfold Releases.min1. destruct v as [s|]; cbn; [|discriminate].
  destruct (s =? ""); discriminate.
Qed.

(** X12. A publish body that lacks a repo, a base or head SHA, a markdown
    text (missing or empty) or at least one commit SHA is answered 400
    "Invalid request data" with a non-empty list of issues, and nothing is
    inserted: the world is unchanged. *)
Theorem publish_rejects_incomplete (isoDay : string -> string) (pg : Postgres) (w : World)
        (body : Releases.Body) :
  configured_releases (env w) = true ->
  JS.truthy (Releases.body_repo body) = false
  \/ JS.truthy (Releases.body_baseSha body) = false
  \/ JS.truthy (Releases.body_headSha body) = false
  \/ JS.truthy (Releases.body_markdown body) = false
  \/ Releases.body_commits_list body = None
  \/ Releases.body_commits_list body = Some [] ->
  exists issues,
    issues <> []
    /\ Releases.POST isoDay pg body w
       = (Ret {| status := 400; json := Invalid "Invalid request data" issues |}, w).
Proof.
  intros Henv Hbad.
  assert (P : exists issues, issues <> []
              /\ Releases.createReleaseSchema_parse body w = (Throw (ZodError issues), w)).
  { unfold Releases.createReleaseSchema_parse.
    match goal with
    | |- context [match ?l with _ => _ end] =>
        assert (Hl : l <> []); [|destruct l as [|i l'] eqn:El; [contradiction|]]
    end.
    - destruct Hbad as [H|[H|[H|[H|[H|H]]]]].
      + apply app_nonempty_l. now apply min1_falsy.
      + apply app_nonempty_r, app_nonempty_r, app_nonempty_l. now apply min1_falsy.
      + do 3 apply app_nonempty_r. apply app_nonempty_l. now apply min1_falsy.
      + do 4 apply app_nonempty_r. apply app_nonempty_l. now apply min1_falsy.
      + do 5 apply app_nonempty_r. rewrite H. discriminate.
      + do 5 apply app_nonempty_r. rewrite H. discriminate.
    - exists (i :: l'). split; [discriminate | reflexivity]. }
  destruct P as [issues [Hne Hparse]]. exists issues. split; [exact Hne|].
  unfold Releases.POST, try_catch. cbn.
  rewrite (releases_env_ok w Henv), Hparse. reflexivity.
Qed.

Lemma publish_rejects_incomplete_witness :
  (configured_releases (env Demo.published) = true
   /\ Releases.body_commits_list (Demo.publish []) = Some [])
  /\ exists issues,
       issues <> []
       /\ Releases.POST Demo.isoDay Demo.pg (Demo.publish []) Demo.published
          = (Ret {| status := 400; json := Invalid "Invalid request data" issues |},
             Demo.published).
Proof.
  split; [split; reflexivity|].
  exact (publish_rejects_incomplete Demo.isoDay Demo.pg Demo.published (Demo.publish [])
           eq_refl (or_intror (or_intror (or_intror (or_intror (or_intror eq_refl)))))).
Defined.

Lemma publish_refused_run (isoDay : string -> string) (pg : Postgres) (w : World)
        (body : Releases.Body) (v : Releases.Validated) :
  configured_releases (env w) = true ->
  Releases.createReleaseSchema_parse body w = (Ret v, w) ->
  Supabase.column_ok pg (ins_start_date (Releases.insertData v))
  && Supabase.column_ok pg (ins_end_date (Releases.insertData v)) = false ->
  Releases.POST isoDay pg body w
  = (Ret {| status := 500; json := Problem "Failed to save changelog to database" |},
     log (Sql (InsertRow (Releases.insertData v))) w).
Proof.
  intros Henv Hparse Hbad.
  unfold Releases.POST, try_catch. cbn.
  rewrite (releases_env_ok w Henv), Hparse. cbn.
  unfold Supabase.insert. rewrite Hbad. reflexivity.
Qed.

(** X13. When the store refuses the row (a start or end date that is not a
    timestamp), the publish is answered 500 "Failed to save changelog to
    database" and the table is unchanged. *)
Theorem publish_refused_by_store (isoDay : string -> string) (pg : Postgres) (w : World)
        (body : Releases.Body) (v : Releases.Validated) :
  configured_releases (env w) = true ->
  Releases.createReleaseSchema_parse body w = (Ret v, w) ->
  Supabase.column_ok pg (ins_start_date (Releases.insertData v))
  && Supabase.column_ok pg (ins_end_date (Releases.insertData v)) = false ->
  Releases.POST isoDay pg body w
  = (Ret {| status := 500; json := Problem "Failed to save changelog to database" |},
     log (Sql (InsertRow (Releases.insertData v))) w).
Proof. exact (publish_refused_run isoDay pg w body v). Qed.

Lemma publish_refused_by_store_witness :
  let v := {| Releases.v_repo := "octo/demo"; Releases.v_branch := "main";
              Releases.v_mode := Date; Releases.v_baseSha := "a1";
              Releases.v_headSha := "a3"; Releases.v_markdown := "# Release v1.1.0";
              Releases.v_commits_list := ["b9"];
              Releases.v_originalParams :=
                Releases.body_originalParams Fixtures.misdated |} in
  (configured_releases (env Demo.published) = true
   /\ Releases.createReleaseSchema_parse Fixtures.misdated Demo.published
      = (Ret v, Demo.published)
   /\ Supabase.column_ok Demo.pg (ins_start_date (Releases.insertData v))
      && Supabase.column_ok Demo.pg (ins_end_date (Releases.insertData v)) = false)
  /\ Releases.POST Demo.isoDay Demo.pg Fixtures.misdated Demo.published
     = (Ret {| status := 500; json := Problem "Failed to save changelog to database" |},
        log (Sql (InsertRow (Releases.insertData v))) Demo.published).
Proof.
  intros v. split; [split; [reflexivity | split; reflexivity]|].
  exact (publish_refused_by_store Demo.isoDay Demo.pg Demo.published Fixtures.misdated v
           eq_refl eq_refl eq_refl).
Defined.

(** What the table can be after each handler of the releases route. *)
Lemma POST_table (isoDay : string -> string) (pg : Postgres) (body : Releases.Body)
      (w : World) :
  release_slices (db (snd (Releases.POST isoDay pg body w))) = release_slices (db w)
  \/ exists v,
       Releases.createReleaseSchema_parse body w = (Ret v, w)
       /\ release_slices (db (snd (Releases.POST isoDay pg body w)))
          = (release_slices (db w)
             ++ [Supabase.new_row pg (serial (db w)) (Releases.insertData v)])%list.
Proof.
  destruct (configured_releases (env w)) eqn:Henv.
  - destruct (releases_parse_pure body) as [[v|e] Hparse].
    + destruct (Supabase.column_ok pg (ins_start_date (Releases.insertData v))
                && Supabase.column_ok pg (ins_end_date (Releases.insertData v))) eqn:Hok.
      * right. exists v. split; [apply Hparse|].
        now rewrite (publish_run isoDay pg w body v Henv (Hparse w) Hok).
      * left. now rewrite (publish_refused_run isoDay pg w body v Henv (Hparse w) Hok).
    + left. unfold Releases.POST, try_catch. cbn.
      rewrite (releases_env_ok w Henv), Hparse. cbn.
      destruct e as [issues|message]; cbn; [reflexivity|].
      repeat match goal with
             | |- context [if ?c then _ else _] => destruct c
             end; reflexivity.
  - left. now rewrite (proj2 (proj2 (releases_unconfigured_run isoDay pg w Henv)) body).
Qed.

Lemma PUT_table (isoDay : string -> string) (edit : Releases.Edit) (w : World) :
  release_slices (db (snd (Releases.PUT isoDay edit w))) = release_slices (db w)
  \/ exists key md,
       release_slices (db (snd (Releases.PUT isoDay edit w)))
       = map (fun row => if id row =? key then Supabase.set_markdown md row else row)
             (release_slices (db w)).
Proof.
  destruct (configured_releases (env w)) eqn:Henv.
  - unfold Releases.PUT, try_catch. cbn. rewrite (releases_env_ok w Henv). cbn.
    destruct (negb (JS.truthy (Releases.edit_id edit))
              || negb (JS.truthy (Releases.edit_markdown edit))); cbn; [now left|].
    unfold Supabase.update_markdown.
    destruct (filter _ (release_slices (db w))) as [|hit [|more rest]]; cbn;
      [now left | | now left].
    right. eexists. eexists. reflexivity.
  - left. now rewrite (proj1 (proj2 (releases_unconfigured_run isoDay Demo.pg w Henv)) edit).
Qed.

Lemma reads_only_releases_GET (isoDay : string -> string) (r b : option string) :
  reads_only (Releases.GET isoDay r b).
Proof.
  unfold Releases.GET. apply reads_only_try_catch.
  - apply reads_only_bind; [apply reads_only_releases_env | intros _].
    destruct (negb (JS.truthy r)); [apply reads_only_respond|].
    apply reads_only_bind.
    + unfold Supabase.select_repo.
      now apply (reads_only_log
                   (fun w => Ret {| data := Some (Supabase.order_desc
                                                    (filter (Supabase.in_repo (JS.template r) b)
                                                            (release_slices (db w))));
                                    error := None |})).
    + intros answer. destruct (error answer); apply reads_only_respond.
  - intros e. unfold Releases.on_error. destruct e as [issues|message];
      [apply reads_only_respond|].
    destruct (JS.includes _ _); apply reads_only_respond.
Qed.

Lemma commits_recorded_edit (key md : string) (rows : list ReleaseSlice) :
  commits_recorded rows ->
  commits_recorded
    (map (fun row => if id row =? key then Supabase.set_markdown md row else row) rows).
Proof.
  unfold commits_recorded. intros H. induction H as [|row rows Hrow _ IH]; cbn;
    constructor; [|exact IH].
  destruct (id row =? key); exact Hrow.
Qed.

(** X14. Every handler keeps the table's rows with a non-empty commit list:
    if every row records at least one commit before a request to the
    generate or the releases route, whatever the request and its outcome,
    every row records at least one commit after it. *)
Theorem handlers_keep_commits_recorded (gh : GitHub) (js : Engine) (ai : OpenAI) (pg : Postgres)
        (isoDay : string -> string) (w : World) :
  commits_recorded (release_slices (db w)) ->
  (forall body, commits_recorded (release_slices (db (snd (Generate.POST gh js ai body w)))))
  /\ (forall body,
        commits_recorded (release_slices (db (snd (Releases.POST isoDay pg body w)))))
  /\ (forall edit,
        commits_recorded (release_slices (db (snd (Releases.PUT isoDay edit w)))))
  /\ (forall r b,
        commits_recorded (release_slices (db (snd (Releases.GET isoDay r b w))))).
Proof.
  intros H. split; [|split; [|split]].
  - intros body. destruct (reads_only_generate_POST gh js ai body w) as [_ [D _]].
    now rewrite D.
  - intros body. destruct (POST_table isoDay pg body w) as [E|[v [Hparse E]]];
      rewrite E; [exact H|].
    apply Forall_app. split; [exact H|]. constructor; [|constructor].
    exists (Releases.v_commits_list v). split; [reflexivity|].
    now destruct (parsed_release body v w Hparse) as [_ [N _]].
  - intros edit. destruct (PUT_table isoDay edit w) as [E|[key [md E]]];
      rewrite E; [exact H|]. now apply commits_recorded_edit.
  - intros r b. destruct (reads_only_releases_GET isoDay r b w) as [_ [D _]].
    now rewrite D.
Qed.

Lemma handlers_keep_commits_recorded_witness :
  commits_recorded (release_slices (db Demo.published))
  /\ commits_recorded
       (release_slices (db (snd (Releases.POST Demo.isoDay Demo.pg Fixtures.second
                                   Demo.published)))).
Proof.
  assert (H : commits_recorded (release_slices (db Demo.published))).
  { constructor; [|constructor]. eexists. split; [reflexivity | discriminate]. }
  split; [exact H|].
  exact (proj1 (proj2 (handlers_keep_commits_recorded Demo.gh Demo.js Demo.ai Demo.pg Demo.isoDay
                         Demo.published H)) Fixtures.second).
Defined.

(** ** Listing *)

Lemma insert_desc_sorted (row : ReleaseSlice) (l : list ReleaseSlice) :
  StronglySorted (fun a c => (published_at c <= published_at a)%Z) l ->
  StronglySorted (fun a c => (published_at c <= published_at a)%Z)
                 (Supabase.insert_desc row l).
Proof.
  induction 1 as [|x l Hs IH Hall]; cbn.
  - constructor; constructor.
  - destruct (published_at x <=? published_at row)%Z eqn:E.
    + apply Z.leb_le in E. constructor; [now constructor|].
      constructor; [exact E|].
      rewrite Forall_forall in *. intros y Hy. specialize (Hall y Hy). lia.
    + apply Z.leb_gt in E. constructor; [exact IH|].
      apply Forall_forall. intros y Hy. apply In_insert_desc in Hy.
      destruct Hy as [->|Hy]; [lia|]. rewrite Forall_forall in Hall. now apply Hall.
Qed.

Lemma order_desc_sorted (l : list ReleaseSlice) :
  StronglySorted (fun a c => (published_at c <= published_at a)%Z) (Supabase.order_desc l).
Proof.
  induction l as [|x l IH]; cbn; [constructor | now apply insert_desc_sorted].
Qed.

Lemma length_insert_desc (row : ReleaseSlice) (l : list ReleaseSlice) :
  length (Supabase.insert_desc row l) = S (length l).
Proof.
  induction l as [|y l IH]; cbn; [reflexivity|].
  destruct (published_at y <=? published_at row)%Z; cbn; [reflexivity | now rewrite IH].
Qed.

Lemma length_order_desc (l : list ReleaseSlice) :
  length (Supabase.order_desc l) = length l.
Proof.
  induction l as [|x l IH]; [reflexivity|].
  change (Supabase.order_desc (x :: l)) with (Supabase.insert_desc x (Supabase.order_desc l)).
  now rewrite length_insert_desc, IH.
Qed.

Lemma StronglySorted_map {A B : Type} (R : B -> B -> Prop) (f : A -> B) (l : list A) :
  StronglySorted (fun a c => R (f a) (f c)) l -> StronglySorted R (map f l).
Proof.
  induction 1 as [|x l Hs IH Hall]; cbn; constructor; [exact IH|].
  apply Forall_forall. intros y Hy. apply in_map_iff in Hy. destruct Hy as [z [<- Hz]].
  rewrite Forall_forall in Hall. now apply Hall.
Qed.

Lemma in_repo_iff (r : string) (b : option string) (row : ReleaseSlice) :
  Supabase.in_repo r b row = true
  <-> repo row = r /\ (JS.truthy b = true -> branch row = JS.template b).
Proof.
  unfold Supabase.in_repo. rewrite andb_true_iff, String.eqb_eq.
  destruct (JS.truthy b); [rewrite String.eqb_eq|]; intuition congruence.
Qed.

(** X15. The list of a repository is sound, complete and ordered: in a
    configured deployment, GET for a non-empty repo answers 200 with one
    release per row of that repo (and of the branch, when a non-empty branch
    is given), no other release, newest first by publication time; it
    makes one select and leaves the table as it is. *)
Theorem GET_lists_the_repo (isoDay : string -> string) (w : World) (r : string)
        (b : option string) :
  configured_releases (env w) = true ->
  r <> "" ->
  exists listed,
    Releases.GET isoDay (Some r) b w
    = (Ret {| status := 200; json := Document listed |}, log (Sql (SelectRepo r b)) w)
    /\ StronglySorted (fun a c => (Releases.r_publishedAt c <= Releases.r_publishedAt a)%Z)
                      listed
    /\ (forall rel, In rel listed ->
          Releases.r_repo rel = r
          /\ (JS.truthy b = true -> Releases.r_branch rel = JS.template b))
    /\ (forall row, In row (release_slices (db w)) ->
          repo row = r ->
          (JS.truthy b = true -> branch row = JS.template b) ->
          In (Releases.transformReleaseSlice isoDay row) listed)
    /\ length listed
       = length (filter (Supabase.in_repo r b) (release_slices (db w))).
Proof.
  intros Henv Hr. eexists. split; [exact (GET_run isoDay w r b Henv Hr)|].
  split; [|split; [|split]].
  - apply StronglySorted_map. apply order_desc_sorted.
  - intros rel Hin. apply in_map_iff in Hin. destruct Hin as [row [<- Hrow]].
    apply In_order_desc, filter_In in Hrow. destruct Hrow as [_ Hrow].
    apply in_repo_iff in Hrow. exact Hrow.
  - intros row Hin Hrepo Hbranch. apply in_map. apply In_order_desc, filter_In.
    split; [exact Hin|]. apply in_repo_iff. now split.
  - rewrite length_map. apply length_order_desc.
Qed.

Lemma GET_lists_the_repo_witness :
  (configured_releases (env Fixtures.busy_store) = true /\ "octo/demo" <> "")
  /\ exists listed,
       Releases.GET Demo.isoDay (Some "octo/demo") None Fixtures.busy_store
       = (Ret {| status := 200; json := Document listed |},
          log (Sql (SelectRepo "octo/demo" None)) Fixtures.busy_store)
       /\ map Releases.r_id listed = ["uuid-2"; "uuid-0"]
       /\ StronglySorted
            (fun a c => (Releases.r_publishedAt c <= Releases.r_publishedAt a)%Z) listed.
Proof.
  assert (N : "octo/demo" <> "") by discriminate.
  split; [split; [reflexivity | exact N]|].
  destruct (GET_lists_the_repo Demo.isoDay Fixtures.busy_store "octo/demo" None eq_refl N)
    as [listed [run [ordered _]]].
  exists listed. split; [exact run|]. split; [|exact ordered].
  assert (E : fst (Releases.GET Demo.isoDay (Some "octo/demo") None Fixtures.busy_store)
              = Ret {| status := 200; json := Document listed |}) by now rewrite run.
  vm_compute in E. inversion E. reflexivity.
Defined.

(** X16. A list request without a repo, and an edit without an id or without
    a markdown text (missing or empty), are answered 400 before any
    statement is sent: the world, log included, is unchanged. *)
Theorem missing_parameters_are_400 (isoDay : string -> string) (w : World) :
  configured_releases (env w) = true ->
  (forall r b,
      JS.truthy r = false ->
      Releases.GET isoDay r b w
      = (Ret {| status := 400; json := Problem "Repository parameter is required" |}, w))
  /\ (forall edit,
        JS.truthy (Releases.edit_id edit) = false
        \/ JS.truthy (Releases.edit_markdown edit) = false ->
        Releases.PUT isoDay edit w
        = (Ret {| status := 400; json := Problem "ID and markdown are required" |}, w)).
Proof.
  intros Henv. split.
  - intros r b H. unfold Releases.GET, try_catch. cbn.
    rewrite (releases_env_ok w Henv). cbn. now rewrite H.
  - intros edit H. unfold Releases.PUT, try_catch. cbn.
    rewrite (releases_env_ok w Henv). cbn.
    assert (E : negb (JS.truthy (Releases.edit_id edit))
                || negb (JS.truthy (Releases.edit_markdown edit)) = true).
    { destruct H as [H|H]; rewrite H; cbn; [reflexivity | apply orb_true_r]. }
    now rewrite E.
Qed.

Lemma missing_parameters_are_400_witness :
  (configured_releases (env Demo.published) = true
   /\ JS.truthy (Some "") = false)
  /\ Releases.GET Demo.isoDay (Some "") (Some "main") Demo.published
     = (Ret {| status := 400; json := Problem "Repository parameter is required" |},
        Demo.published)
  /\ Releases.PUT Demo.isoDay
       {| Releases.edit_id := Some "uuid-0"; Releases.edit_markdown := Some "" |}
       Demo.published
     = (Ret {| status := 400; json := Problem "ID and markdown are required" |},
        Demo.published).
Proof.
  split; [split; reflexivity|].
  destruct (missing_parameters_are_400 Demo.isoDay Demo.published eq_refl) as [get put].
  split.
  - exact (get (Some "") (Some "main") eq_refl).
  - exact (put {| Releases.edit_id := Some "uuid-0"; Releases.edit_markdown := Some "" |}
               (or_intror eq_refl)).
Defined.

Lemma PUT_run (isoDay : string -> string) (w : World) (key md : string) (hit : ReleaseSlice) :
  configured_releases (env w) = true ->
  key <> "" -> md <> "" ->
  filter (fun row => id row =? key) (release_slices (db w)) = [hit] ->
  Releases.PUT isoDay {| Releases.edit_id := Some key; Releases.edit_markdown := Some md |} w
  = (Ret {| status := 200;
            json := Document (Releases.transformReleaseSlice isoDay
                                (Supabase.set_markdown md hit)) |},
     {| env := env w;
        db := {| release_slices :=
                   map (fun row => if id row =? key then Supabase.set_markdown md row else row)
                       (release_slices (db w));
                 serial := serial (db w) |};
        trace := (trace w ++ [Sql (UpdateMarkdown key md)])%list |}).
Proof.
  intros Henv Hkey Hmd Hhit. apply String.eqb_neq in Hkey, Hmd.
  unfold Releases.PUT, try_catch. cbn.
  rewrite (releases_env_ok w Henv). cbn. rewrite Hkey, Hmd. cbn.
  unfold Supabase.update_markdown. rewrite Hhit. reflexivity.
Qed.

(** X17. An edit shows in the list and is idempotent.  After a PUT answered
    200 for the one row with the given id, the list of that row's repo
    carries the release of that id with the new markdown, and no listed
    release of that id carries another markdown; sending the same edit
    again is answered 200 with the same release and leaves the table as the
    first edit left it. *)
Theorem edit_then_list (isoDay : string -> string) (w : World) (key md : string)
        (hit : ReleaseSlice) :
  configured_releases (env w) = true ->
  key <> "" -> md <> "" -> repo hit <> "" ->
  filter (fun row => id row =? key) (release_slices (db w)) = [hit] ->
  let edit := {| Releases.edit_id := Some key; Releases.edit_markdown := Some md |} in
  let w' := snd (Releases.PUT isoDay edit w) in
  (exists listed,
      fst (Releases.GET isoDay (Some (repo hit)) None w')
      = Ret {| status := 200; json := Document listed |}
      /\ In (Releases.transformReleaseSlice isoDay (Supabase.set_markdown md hit)) listed
      /\ forall rel, In rel listed -> Releases.r_id rel = key -> Releases.r_markdown rel = md)
  /\ fst (Releases.PUT isoDay edit w') = fst (Releases.PUT isoDay edit w)
  /\ db (snd (Releases.PUT isoDay edit w')) = db w'.
Proof.
  intros Henv Hkey Hmd Hrepo Hhit edit w'.
  assert (Hin : In hit (release_slices (db w)) /\ id hit = key).
  { assert (H : In hit (filter (fun row => id row =? key) (release_slices (db w))))
      by (rewrite Hhit; now left).
    apply filter_In in H. destruct H as [H E]. apply String.eqb_eq in E. now split. }
  destruct Hin as [Hin Hid].
  unfold w', edit. rewrite (PUT_run isoDay w key md hit Henv Hkey Hmd Hhit). cbn [snd fst].
  set (edited := map (fun row => if id row =? key then Supabase.set_markdown md row else row)
                     (release_slices (db w))).
  assert (Hfilter : filter (fun row => id row =? key) edited = [Supabase.set_markdown md hit]).
  { unfold edited. clear Hin.
    revert Hhit. generalize (release_slices (db w)). intros rows.
    induction rows as [|row rows IH]; cbn; [discriminate|].
    destruct (id row =? key) eqn:E; cbn.
    - change (id (Supabase.set_markdown md row)) with (id row). rewrite E.
      intros H. inversion H as [[Hrow Hrest]]. f_equal.
      clear IH H Hrow. induction rows as [|x rows IH]; cbn; [reflexivity|].
      cbn in Hrest. destruct (id x =? key) eqn:Ex; [discriminate|].
      cbn. rewrite Ex. now apply IH.
    - rewrite E. exact IH. }
  set (w1 := {| env := env w;
                db := {| release_slices := edited; serial := serial (db w) |};
                trace := (trace w ++ [Sql (UpdateMarkdown key md)])%list |}).
  assert (Hagain := PUT_run isoDay w1 key md (Supabase.set_markdown md hit)
                      Henv Hkey Hmd Hfilter).
  split; [|split].
  - eexists. split.
    + rewrite GET_run; [reflexivity | exact Henv | exact Hrepo].
    + cbn [db release_slices]. split.
      * apply in_map. apply In_order_desc, filter_In. split.
        -- unfold edited. apply in_map_iff. exists hit. split; [|exact Hin].
           apply String.eqb_eq in Hid. now rewrite Hid.
        -- unfold Supabase.in_repo. cbn. now rewrite String.eqb_refl.
      * intros rel Hrel Hrid. apply in_map_iff in Hrel. destruct Hrel as [row [<- Hrow]].
        apply In_order_desc, filter_In in Hrow. destruct Hrow as [Hrow _].
        assert (Hf : In row (filter (fun x => id x =? key) edited)).
        { apply filter_In. split; [exact Hrow|]. apply String.eqb_eq. exact Hrid. }
        rewrite Hfilter in Hf. destruct Hf as [<-|[]]. reflexivity.
  - rewrite Hagain. reflexivity.
  - rewrite Hagain. cbn. f_equal. unfold edited. rewrite map_map. apply map_ext. intros row.
    destruct (id row =? key) eqn:E.
    + change (id (Supabase.set_markdown md row)) with (id row). rewrite E. reflexivity.
    + now rewrite E.
Qed.

Lemma edit_then_list_witness :
  let hit := hd Demo.legacy (release_slices (db Demo.published)) in
  (configured_releases (env Demo.published) = true
   /\ "uuid-0" <> "" /\ "# Edited" <> "" /\ repo hit <> ""
   /\ filter (fun row => id row =? "uuid-0") (release_slices (db Demo.published)) = [hit])
  /\ exists listed,
       fst (Releases.GET Demo.isoDay (Some "octo/demo") None
              (snd (Releases.PUT Demo.isoDay
                      {| Releases.edit_id := Some "uuid-0";
                         Releases.edit_markdown := Some "# Edited" |} Demo.published)))
       = Ret {| status := 200; json := Document listed |}
       /\ In (Releases.transformReleaseSlice Demo.isoDay
                (Supabase.set_markdown "# Edited" hit)) listed
       /\ forall rel, In rel listed -> Releases.r_id rel = "uuid-0" ->
                      Releases.r_markdown rel = "# Edited".
Proof.
  intros hit.
  assert (K : "uuid-0" <> "") by discriminate.
  assert (T : "# Edited" <> "") by discriminate.
  assert (R : repo hit <> "") by discriminate.
  split.
  - split; [reflexivity | split; [exact K | split; [exact T | split; [exact R | reflexivity]]]].
  - exact (proj1 (edit_then_list Demo.isoDay Demo.published "uuid-0" "# Edited" hit
                    eq_refl K T R eq_refl)).
Defined.

(** ** The repositories route *)

Lemma unique_snoc (l : list string) (x : string) :
  Repos.unique (l ++ [x])
  = if JS.has (Repos.unique l) x then Repos.unique l else (Repos.unique l ++ [x])%list.
Proof. unfold Repos.unique. now rewrite fold_left_app. Qed.

Lemma In_unique (l : list string) (x : string) : In x (Repos.unique l) <-> In x l.
Proof.
  induction l as [|y l IH] using rev_ind; [reflexivity|].
  rewrite unique_snoc, in_app_iff. cbn.
  destruct (JS.has (Repos.unique l) y) eqn:E.
  - apply has_In in E. rewrite IH in *. intuition (subst; auto).
  - rewrite in_app_iff. cbn. tauto.
Qed.

Lemma NoDup_unique (l : list string) : NoDup (Repos.unique l).
Proof.
  induction l as [|y l IH] using rev_ind; [constructor|].
  rewrite unique_snoc. destruct (JS.has (Repos.unique l) y) eqn:E; [exact IH|].
  apply NoDup_app; [exact IH | constructor; [tauto | constructor] |].
  intros a Ha [<-|[]]. apply has_In in Ha. congruence.
Qed.

Lemma push_map (release : ReleaseSlice) (f : string -> list ReleaseSlice) (keys : list string) :
  NoDup keys ->
  Repos.push release (map (fun k => (k, f k)) keys)
  = (map (fun k => (k, if k =? repo release then (f k ++ [release])%list else f k)) keys
     ++ (if JS.has keys (repo release) then [] else [(repo release, [release])]))%list.
Proof.
  induction 1 as [|k keys Hk Hnd IH]; [reflexivity|].
  cbn. unfold JS.has in *. cbn. rewrite (String.eqb_sym (repo release) k).
  destruct (k =? repo release) eqn:E; cbn.
  - rewrite app_nil_r. f_equal. apply map_ext_in. intros k' Hk'.
    apply String.eqb_eq in E. subst k.
    destruct (k' =? repo release) eqn:E'; [|reflexivity].
    apply String.eqb_eq in E'. subst. contradiction.
  - now rewrite IH.
Qed.

Lemma of_repo_snoc (key : string) (rows : list ReleaseSlice) (row : ReleaseSlice) :
  of_repo key (rows ++ [row])
  = (of_repo key rows ++ (if repo row =? key then [row] else []))%list.
Proof. unfold of_repo. rewrite filter_app. cbn. now destruct (repo row =? key). Qed.

Lemma of_repo_absent (key : string) (rows : list ReleaseSlice) :
  ~ In key (map repo rows) -> of_repo key rows = [].
Proof.
  unfold of_repo. induction rows as [|row rows IH]; cbn; [reflexivity|].
  intros H. destruct (repo row =? key) eqn:E.
  - apply String.eqb_eq in E. tauto.
  - apply IH. tauto.
Qed.

(** The grouping loop computes, for each repo in order of first appearance,
    the rows of that repo in order. *)
Lemma group_eq (rows : list ReleaseSlice) :
  Repos.group rows = map (fun k => (k, of_repo k rows)) (Repos.unique (map repo rows)).
Proof.
  induction rows as [|row rows IH] using rev_ind; [reflexivity|].
  unfold Repos.group in *. rewrite fold_left_app. cbn. rewrite IH.
  rewrite push_map by apply NoDup_unique.
  rewrite map_app. cbn. rewrite unique_snoc.
  destruct (JS.has (Repos.unique (map repo rows)) (repo row)) eqn:E.
  - rewrite app_nil_r. apply map_ext. intros k. rewrite of_repo_snoc.
    rewrite (String.eqb_sym k). destruct (repo row =? k); [reflexivity|].
    now rewrite app_nil_r.
  - rewrite map_app. cbn. f_equal.
    + apply map_ext. intros k. rewrite of_repo_snoc.
      rewrite (String.eqb_sym k). destruct (repo row =? k); [reflexivity|].
      now rewrite app_nil_r.
    + rewrite of_repo_snoc, String.eqb_refl. rewrite of_repo_absent; [reflexivity|].
      intros H. apply In_unique, has_In in H. congruence.
Qed.

Lemma of_repo_present (key : string) (rows : list ReleaseSlice) :
  In key (map repo rows) -> of_repo key rows <> [].
Proof.
  intros H. apply in_map_iff in H. destruct H as [row [E Hin]].
  assert (Hf : In row (of_repo key rows)).
  { apply filter_In. split; [exact Hin|]. now apply String.eqb_eq. }
  intros N. now rewrite N in Hf.
Qed.

Lemma summaries_of_keys (isoDay : string -> string) (rows : list ReleaseSlice)
      (keys : list string) (dflt : ReleaseSlice) :
  (forall k, In k keys -> In k (map repo rows)) ->
  Repos.summaries isoDay (map (fun k => (k, of_repo k rows)) keys)
  = Ret (map (fun k => Repos.summary isoDay k (of_repo k rows)
                         (hd dflt (of_repo k rows))) keys).
Proof.
  induction keys as [|k keys IH]; intros H; [reflexivity|].
  cbn. assert (Hk : of_repo k rows <> []) by (apply of_repo_present, H; now left).
  destruct (of_repo k rows) as [|mostRecent rest] eqn:E; [contradiction|].
  cbn. rewrite IH by (intros k' Hk'; apply H; now right). reflexivity.
Qed.

Lemma repos_env_ok (e : Env) :
  configured_releases e = true -> Repos.validateEnvironment e = Ret e.
Proof.
  unfold configured_releases, Repos.validateEnvironment. intros H.
  apply andb_true_iff in H. destruct H as [H H0]. cbn. now rewrite H, H0.
Qed.

Lemma repos_GET_run (isoDay : string -> string) (e : Env) (d : Database)
      (dflt : ReleaseSlice) :
  configured_releases e = true ->
  let rows := Supabase.order_desc (release_slices d) in
  Repos.GET isoDay e d
  = {| status := 200;
       json := Document
                 (Repos.sort_recent
                    (map (fun k => Repos.summary isoDay k (of_repo k rows)
                                     (hd dflt (of_repo k rows)))
                         (Repos.unique (map repo rows)))) |}.
Proof.
  intros Henv rows. unfold Repos.GET, Repos.select_all. rewrite (repos_env_ok e Henv).
  cbn [error data]. fold rows. clearbody rows.
  destruct rows as [|row rest] eqn:E; [reflexivity|].
  cbn [length Nat.eqb]. rewrite group_eq.
  rewrite (summaries_of_keys isoDay _ _ dflt).
  - reflexivity.
  - intros k Hk. exact (proj1 (In_unique _ _) Hk).
Qed.

Lemma In_insert_recent (x s : Repos.RepoSummary) (l : list Repos.RepoSummary) :
  In x (Repos.insert_recent s l) <-> x = s \/ In x l.
Proof.
  induction l as [|y l IH]; cbn; [intuition congruence|].
  destruct (_ <=? _)%Z; cbn; [intuition congruence|].
  rewrite IH. intuition congruence.
Qed.

Lemma In_sort_recent (x : Repos.RepoSummary) (l : list Repos.RepoSummary) :
  In x (Repos.sort_recent l) <-> In x l.
Proof.
  induction l as [|y l IH]; cbn; [tauto|].
  rewrite In_insert_recent, IH. intuition congruence.
Qed.

Lemma sum_insert_recent (f : Repos.RepoSummary -> nat) (s : Repos.RepoSummary)
      (l : list Repos.RepoSummary) :
  list_sum (map f (Repos.insert_recent s l)) = f s + list_sum (map f l).
Proof.
  unfold list_sum. induction l as [|y l IH]; cbn; [reflexivity|].
  destruct (_ <=? _)%Z; cbn; [reflexivity|]. rewrite IH. lia.
Qed.

Lemma sum_sort_recent (f : Repos.RepoSummary -> nat) (l : list Repos.RepoSummary) :
  list_sum (map f (Repos.sort_recent l)) = list_sum (map f l).
Proof.
  induction l as [|y l IH]; [reflexivity|].
  change (Repos.sort_recent (y :: l)) with (Repos.insert_recent y (Repos.sort_recent l)).
  rewrite sum_insert_recent. rewrite IH. reflexivity.
Qed.

Lemma NoDup_insert_recent (s : Repos.RepoSummary) (l : list Repos.RepoSummary) :
  ~ In (Repos.s_repo s) (map Repos.s_repo l) ->
  NoDup (map Repos.s_repo l) ->
  NoDup (map Repos.s_repo (Repos.insert_recent s l)).
Proof.
  induction l as [|y l IH]; cbn; intros Hs Hnd.
  - constructor; [tauto | constructor].
  - destruct (_ <=? _)%Z; cbn.
    + constructor; [exact Hs | exact Hnd].
    + inversion Hnd as [|? ? Hy Hl]; subst. constructor.
      * intros H. apply in_map_iff in H. destruct H as [x [Ex Hx]].
        apply In_insert_recent in Hx.
        destruct Hx as [->|Hx]; [apply Hs; left; congruence|].
        apply Hy. rewrite <- Ex. now apply in_map.
      * apply IH; [tauto | exact Hl].
Qed.

Lemma NoDup_sort_recent (l : list Repos.RepoSummary) :
  NoDup (map Repos.s_repo l) -> NoDup (map Repos.s_repo (Repos.sort_recent l)).
Proof.
  induction l as [|y l IH]; [constructor|]. intros H.
  change (Repos.sort_recent (y :: l)) with (Repos.insert_recent y (Repos.sort_recent l)).
  cbn in H. inversion H as [|? ? Hy Hl]; subst.
  apply NoDup_insert_recent; [|apply IH; exact Hl].
  intros Hin. apply Hy. apply in_map_iff in Hin. destruct Hin as [x [Ex Hx]].
  rewrite <- Ex. apply in_map. exact (proj1 (In_sort_recent _ _) Hx).
Qed.

Lemma insert_recent_sorted (s : Repos.RepoSummary) (l : list Repos.RepoSummary) :
  StronglySorted (fun a c => (Repos.mr_publishedAt (Repos.s_mostRecentChangelog c)
                              <= Repos.mr_publishedAt (Repos.s_mostRecentChangelog a))%Z) l ->
  StronglySorted (fun a c => (Repos.mr_publishedAt (Repos.s_mostRecentChangelog c)
                              <= Repos.mr_publishedAt (Repos.s_mostRecentChangelog a))%Z)
                 (Repos.insert_recent s l).
Proof.
  induction 1 as [|x l Hs IH Hall]; cbn.
  - constructor; constructor.
  - destruct (_ <=? _)%Z eqn:E.
    + apply Z.leb_le in E. constructor; [now constructor|].
      constructor; [exact E|].
      rewrite Forall_forall in *. intros y Hy. specialize (Hall y Hy). lia.
    + apply Z.leb_gt in E. constructor; [exact IH|].
      apply Forall_forall. intros y Hy. apply In_insert_recent in Hy.
      destruct Hy as [->|Hy]; [lia|]. rewrite Forall_forall in Hall. now apply Hall.
Qed.

Lemma sort_recent_sorted (l : list Repos.RepoSummary) :
  StronglySorted (fun a c => (Repos.mr_publishedAt (Repos.s_mostRecentChangelog c)
                              <= Repos.mr_publishedAt (Repos.s_mostRecentChangelog a))%Z)
                 (Repos.sort_recent l).
Proof.
  induction l as [|x l IH]; cbn; [constructor | now apply insert_recent_sorted].
Qed.

Lemma filter_insert_desc (keep : ReleaseSlice -> bool) (row : ReleaseSlice)
      (l : list ReleaseSlice) :
  length (filter keep (Supabase.insert_desc row l))
  = (if keep row then 1 else 0) + length (filter keep l).
Proof.
  induction l as [|y l IH]; cbn; [now destruct (keep row)|].
  destruct (published_at y <=? published_at row)%Z; cbn.
  - now destruct (keep row).
  - destruct (keep y); cbn; rewrite IH; lia.
Qed.

Lemma filter_order_desc (keep : ReleaseSlice -> bool) (l : list ReleaseSlice) :
  length (filter keep (Supabase.order_desc l)) = length (filter keep l).
Proof.
  induction l as [|x l IH]; [reflexivity|].
  change (Supabase.order_desc (x :: l)) with (Supabase.insert_desc x (Supabase.order_desc l)).
  rewrite filter_insert_desc, IH. cbn. now destruct (keep x).
Qed.

Lemma sum_of_groups (rows : list ReleaseSlice) (keys : list string) :
  NoDup keys ->
  (forall row, In row rows -> In (repo row) keys) ->
  list_sum (map (fun k => length (of_repo k rows)) keys) = length rows.
Proof.
  intros Hnd. induction rows as [|row rows IH]; intros Hcover.
  - clear. induction keys as [|k keys IH]; [reflexivity | exact IH].
  - change (length (row :: rows)) with (S (length rows)).
    rewrite <- IH by (intros x Hx; apply Hcover; now right).
    assert (Hin : In (repo row) keys) by (apply Hcover; now left).
    clear IH Hcover. unfold list_sum.
    induction Hnd as [|k keys Hk Hnd IH]; [contradiction|].
    cbn [map fold_right]. unfold of_repo at 1. cbn [filter].
    destruct (repo row =? k) eqn:E.
    + apply String.eqb_eq in E. subst k. cbn [length].
      assert (Hrest : map (fun k => length (of_repo k (row :: rows))) keys
                      = map (fun k => length (of_repo k rows)) keys).
      { apply map_ext_in. intros k Hk'. unfold of_repo. cbn [filter].
        destruct (repo row =? k) eqn:E'; [|reflexivity].
        apply String.eqb_eq in E'. subst. contradiction. }
      rewrite Hrest. unfold of_repo. lia.
    + destruct Hin as [->|Hin]; [now rewrite String.eqb_refl in E|].
      rewrite (IH Hin). unfold of_repo. lia.
Qed.

Lemma append_length (a b : string) :
  String.length (a ++ b) = String.length a + String.length b.
Proof. induction a as [|c a IH]; cbn; [reflexivity | now rewrite IH]. Qed.

Lemma markdownPreview_length (md : string) :
  String.length (Repos.markdownPreview md) <= 203.
Proof.
  unfold Repos.markdownPreview. destruct (200 <? String.length md)%nat eqn:E.
  - rewrite append_length. pose proof (substring_length_le 200 md). cbn. lia.
  - apply Nat.ltb_ge in E. lia.
Qed.

(** X18. The repositories answer has exactly one summary per repository
    that has a row, and its counts add up: the total of a summary is the
    number of rows of its repository, at least one, and the totals sum to
    the number of rows of the table. *)
Theorem repos_one_summary_per_repo (isoDay : string -> string) (e : Env) (d : Database) :
  configured_releases e = true ->
  exists listed,
    Repos.GET isoDay e d = {| status := 200; json := Document listed |}
    /\ NoDup (map Repos.s_repo listed)
    /\ (forall r, In r (map Repos.s_repo listed) <-> In r (map repo (release_slices d)))
    /\ (forall s, In s listed ->
          Repos.s_totalChangelogs s = length (of_repo (Repos.s_repo s) (release_slices d))
          /\ 1 <= Repos.s_totalChangelogs s)
    /\ list_sum (map Repos.s_totalChangelogs listed) = length (release_slices d).
Proof.
  intros Henv.
  set (rows := Supabase.order_desc (release_slices d)).
  set (dflt := {| id := ""; published_at := 0%Z; repo := ""; branch := ""; mode := Date;
                  start_date := None; end_date := None; base_sha := None; head_sha := None;
                  base_tag := None; head_tag := None; markdown := "";
                  commits_list := None; owner_id := None |}).
  eexists. split; [exact (repos_GET_run isoDay e d dflt Henv)|]. fold rows.
  set (mk := fun k => Repos.summary isoDay k (of_repo k rows) (hd dflt (of_repo k rows))).
  assert (Hkeys : map Repos.s_repo (map mk (Repos.unique (map repo rows)))
                  = Repos.unique (map repo rows)).
  { rewrite map_map. cbn. apply map_id. }
  assert (Hrepo : forall r, In r (map repo rows) <-> In r (map repo (release_slices d))).
  { intros r. rewrite !in_map_iff. split; intros [row [E Hin]]; exists row;
      (split; [exact E|]); now apply In_order_desc. }
  split; [|split; [|split]].
  - apply NoDup_sort_recent. rewrite Hkeys. apply NoDup_unique.
  - intros r. split.
    + intros H. apply (proj1 (in_map_iff _ _ _)) in H. destruct H as [s [E Hin]].
      apply (proj1 (In_sort_recent _ _)) in Hin.
      apply (proj1 (in_map_iff _ _ _)) in Hin. destruct Hin as [k [Ek Hk]].
      subst s. cbn in E. subst k.
      exact (proj1 (Hrepo r) (proj1 (In_unique _ _) Hk)).
    + intros H. apply (proj2 (Hrepo r)) in H. apply (proj2 (In_unique _ _)) in H.
      apply in_map_iff. exists (mk r). split; [reflexivity|].
      apply (proj2 (In_sort_recent _ _)). now apply in_map.
  - intros s Hs. apply (proj1 (In_sort_recent _ _)) in Hs.
    apply (proj1 (in_map_iff _ _ _)) in Hs. destruct Hs as [k [<- Hk]].
    cbn. unfold rows, of_repo. rewrite filter_order_desc. split; [reflexivity|].
    apply (proj1 (In_unique _ _)) in Hk. apply (proj1 (Hrepo _)) in Hk.
    apply of_repo_present in Hk.
    unfold of_repo in Hk. destruct (filter _ (release_slices d)); [contradiction | cbn; lia].
  - rewrite sum_sort_recent, map_map. cbn.
    rewrite sum_of_groups; [apply length_order_desc | apply NoDup_unique |].
    intros row Hrow. apply In_unique. now apply in_map.
Qed.

Lemma repos_one_summary_per_repo_witness :
  configured_releases Demo.environment = true
  /\ exists listed,
       Repos.GET Demo.isoDay Demo.environment (db Fixtures.busy_store)
       = {| status := 200; json := Document listed |}
       /\ map Repos.s_repo listed = ["octo/demo"; "octo/tools"]
       /\ map Repos.s_totalChangelogs listed = [2; 1]
       /\ list_sum (map Repos.s_totalChangelogs listed)
          = length (release_slices (db Fixtures.busy_store)).
Proof.
  split; [reflexivity|].
  destruct (repos_one_summary_per_repo Demo.isoDay Demo.environment (db Fixtures.busy_store)
              eq_refl) as [listed [run [_ [_ [_ total]]]]].
  exists listed. split; [exact run|].
  assert (E : Repos.GET Demo.isoDay Demo.environment (db Fixtures.busy_store)
              = {| status := 200; json := Document listed |}) by exact run.
  vm_compute in E. inversion E. split; [reflexivity|]. split; [reflexivity|].
  subst listed. exact total.
Defined.

(** X19. Each summary shows the newest changelog of its repository, and the
    summaries come newest first.  The most recent changelog of a summary is
    a row of that repository whose publication time no row of the repository
    exceeds; its preview is the row's markdown cut to 200 characters plus
    "..." when longer, so at most 203 characters; the branches of a summary
    are the branches of the repository's rows, each once. *)
Theorem repos_most_recent_first (isoDay : string -> string) (e : Env) (d : Database) :
  configured_releases e = true ->
  exists listed,
    Repos.GET isoDay e d = {| status := 200; json := Document listed |}
    /\ StronglySorted
         (fun a c => (Repos.mr_publishedAt (Repos.s_mostRecentChangelog c)
                      <= Repos.mr_publishedAt (Repos.s_mostRecentChangelog a))%Z) listed
    /\ forall s, In s listed ->
         let recent := Repos.s_mostRecentChangelog s in
         (exists row,
             In row (release_slices d) /\ repo row = Repos.s_repo s
             /\ Repos.mr_id recent = id row
             /\ Repos.mr_publishedAt recent = published_at row
             /\ Repos.mr_branch recent = branch row
             /\ Repos.mr_mode recent = mode row
             /\ Repos.mr_markdownPreview recent = Repos.markdownPreview (markdown row))
         /\ (forall row, In row (release_slices d) -> repo row = Repos.s_repo s ->
               (published_at row <= Repos.mr_publishedAt recent)%Z)
         /\ String.length (Repos.mr_markdownPreview recent) <= 203
         /\ NoDup (Repos.s_branches s)
         /\ (forall b, In b (Repos.s_branches s)
                       <-> exists row, In row (release_slices d)
                                       /\ repo row = Repos.s_repo s /\ branch row = b).
Proof.
  intros Henv.
  set (rows := Supabase.order_desc (release_slices d)).
  set (dflt := {| id := ""; published_at := 0%Z; repo := ""; branch := ""; mode := Date;
                  start_date := None; end_date := None; base_sha := None; head_sha := None;
                  base_tag := None; head_tag := None; markdown := "";
                  commits_list := None; owner_id := None |}).
  eexists. split; [exact (repos_GET_run isoDay e d dflt Henv)|]. fold rows.
  split; [apply sort_recent_sorted|].
  intros s Hs recent. apply (proj1 (In_sort_recent _ _)) in Hs.
  apply (proj1 (in_map_iff _ _ _)) in Hs. destruct Hs as [k [Es Hk]].
  assert (Hgroup : forall row, In row (of_repo k rows)
                               <-> In row (release_slices d) /\ repo row = k).
  { intros row. unfold of_repo. rewrite filter_In, String.eqb_eq. unfold rows.
    now rewrite In_order_desc. }
  assert (Hsorted : StronglySorted (fun a c => (published_at c <= published_at a)%Z)
                                   (of_repo k rows)).
  { apply StronglySorted_keep, order_desc_sorted. }
  assert (Hne : of_repo k rows <> []).
  { apply of_repo_present. exact (proj1 (In_unique _ _) Hk). }
  destruct (of_repo k rows) as [|top rest] eqn:Eg; [contradiction|].
  subst recent s. cbn [Repos.s_mostRecentChangelog Repos.summary Repos.s_repo hd
                       Repos.mr_id Repos.mr_publishedAt Repos.mr_branch Repos.mr_mode
                       Repos.mr_markdownPreview Repos.s_branches].
  split; [|split; [|split; [|split]]].
  - exists top. assert (Ht : In top (top :: rest)) by now left.
    apply Hgroup in Ht. destruct Ht as [Hin Hr]. repeat split; assumption.
  - intros row Hin Hr. assert (Hrow : In row (top :: rest)) by (apply Hgroup; now split).
    destruct Hrow as [<-|Hrow]; [lia|].
    inversion Hsorted as [|? ? _ Hall]; subst. rewrite Forall_forall in Hall.
    exact (Hall row Hrow).
  - apply markdownPreview_length.
  - apply NoDup_unique.
  - intros b. rewrite In_unique, in_map_iff. split.
    + intros [row [Eb Hrow]]. exists row. apply Hgroup in Hrow. tauto.
    + intros [row [Hin [Hr Eb]]]. exists row. split; [exact Eb|]. apply Hgroup. now split.
Qed.

Lemma repos_most_recent_first_witness :
  configured_releases Demo.environment = true
  /\ exists listed,
       Repos.GET Demo.isoDay Demo.environment (db Fixtures.busy_store)
       = {| status := 200; json := Document listed |}
       /\ map (fun s => Repos.mr_id (Repos.s_mostRecentChangelog s)) listed
          = ["uuid-2"; "uuid-1"]
       /\ map Repos.s_branches listed = [["release"; "main"]; ["develop"]]
       /\ StronglySorted
            (fun a c => (Repos.mr_publishedAt (Repos.s_mostRecentChangelog c)
                         <= Repos.mr_publishedAt (Repos.s_mostRecentChangelog a))%Z) listed.
Proof.
  split; [reflexivity|].
  destruct (repos_most_recent_first Demo.isoDay Demo.environment (db Fixtures.busy_store)
              eq_refl) as [listed [run [ordered _]]].
  exists listed. split; [exact run|].
  assert (E : Repos.GET Demo.isoDay Demo.environment (db Fixtures.busy_store)
              = {| status := 200; json := Document listed |}) by exact run.
  vm_compute in E. inversion E. split; [reflexivity|]. split; [reflexivity|].
  subst listed. exact ordered.
Defined.

(** ** The console's repository field *)

Lemma has_slash_app (a b : string) : has_slash (a ++ b) = has_slash a || has_slash b.
Proof.
  unfold has_slash. induction a as [|c a IH]; cbn; [reflexivity|].
  rewrite IH. now rewrite orb_assoc.
Qed.

Lemma span_until_slash (o r : string) :
  has_slash o = false ->
  ConsolePage.span (o ++ String "/"%char r) = (o, String "/"%char r).
Proof.
  unfold has_slash. induction o as [|c o IH]; cbn; [reflexivity|].
  intros H. apply orb_false_iff in H. destruct H as [Hc Ho].
  rewrite Hc, (IH Ho). reflexivity.
Qed.

Lemma span_all (n : string) : has_slash n = false -> ConsolePage.span n = (n, "").
Proof.
  unfold has_slash. induction n as [|c n IH]; cbn; [reflexivity|].
  intros H. apply orb_false_iff in H. destruct H as [Hc Hn].
  rewrite Hc, (IH Hn). reflexivity.
Qed.

Lemma substring_all (s : string) : substring 0 (String.length s) s = s.
Proof. induction s as [|c s IH]; cbn; [reflexivity | now rewrite IH]. Qed.

Lemma prefix_app (p s : string) : prefix p (p ++ s) = true.
Proof.
  induction p as [|c p IH]; cbn; [now destruct s|].
  now destruct (ascii_dec c c).
Qed.

Lemma substring_drop (p s : string) :
  substring (String.length p) (String.length (p ++ s) - String.length p) (p ++ s) = s.
Proof.
  induction p as [|c p IH]; cbn.
  - rewrite Nat.sub_0_r. apply substring_all.
  - exact IH.
Qed.

Lemma append_empty (s : string) : s ++ "" = s.
Proof. induction s as [|c s IH]; cbn; [reflexivity | now rewrite IH]. Qed.

Lemma match_here_github (owner name rest : string) :
  owner <> "" -> name <> "" ->
  has_slash owner = false -> has_slash name = false ->
  rest = "" \/ (exists t, rest = String "/"%char t) ->
  ConsolePage.match_here ("github.com/" ++ owner ++ "/" ++ name ++ rest)
  = Some (owner ++ "/" ++ name).
Proof.
  intros Ho Hn So Sn Hrest. unfold ConsolePage.match_here.
  rewrite (prefix_app "github.com/").
  change 11 with (String.length "github.com/"). rewrite substring_drop.
  change (owner ++ "/" ++ name ++ rest) with (owner ++ String "/"%char (name ++ rest)).
  rewrite (span_until_slash owner _ So).
  assert (Hspan : ConsolePage.span (name ++ rest) = (name, rest)).
  { destruct Hrest as [->|[t ->]].
    - rewrite append_empty. now apply span_all.
    - now apply span_until_slash. }
  rewrite Hspan.
  destruct owner as [|c owner]; [contradiction|].
  destruct name as [|c' name]; [contradiction|]. reflexivity.
Qed.

Lemma extract_skips (c : ascii) (s : string) :
  c <> "g"%char ->
  ConsolePage.extractRepoFromUrl (String c s) = ConsolePage.extractRepoFromUrl s.
Proof.
  intros H. cbn [ConsolePage.extractRepoFromUrl]. unfold ConsolePage.match_here at 1.
  cbn [prefix]. destruct (ascii_dec "g" c) as [E|_]; [now elim H|]. reflexivity.
Qed.

Lemma extract_here (s found : string) :
  ConsolePage.match_here s = Some found -> ConsolePage.extractRepoFromUrl s = Some found.
Proof. intros H. destruct s; cbn [ConsolePage.extractRepoFromUrl]; now rewrite H. Qed.

Lemma extract_of_github_url (owner name rest : string) :
  owner <> "" -> name <> "" ->
  has_slash owner = false -> has_slash name = false ->
  rest = "" \/ (exists t, rest = String "/"%char t) ->
  ConsolePage.extractRepoFromUrl ("https://github.com/" ++ owner ++ "/" ++ name ++ rest)
  = Some (owner ++ "/" ++ name).
Proof.
  intros Ho Hn So Sn Hrest.
  change ("https://github.com/" ++ owner ++ "/" ++ name ++ rest)
    with ("https://" ++ ("github.com/" ++ owner ++ "/" ++ name ++ rest)).
  cbn [append].
  do 8 (rewrite extract_skips by discriminate).
  apply extract_here. now apply match_here_github.
Qed.

(** X20. The repository field reads back what a repository URL names: for
    an owner and a name that are non-empty and hold no slash,
    [extractRepoFromUrl] on "https://github.com/<owner>/<name>", alone or
    followed by a further path, returns "<owner>/<name>". *)
Theorem extract_github_url (owner name rest : string) :
  owner <> "" -> name <> "" ->
  has_slash owner = false -> has_slash name = false ->
  rest = "" \/ (exists t, rest = String "/"%char t) ->
  ConsolePage.extractRepoFromUrl ("https://github.com/" ++ owner ++ "/" ++ name ++ rest)
  = Some (owner ++ "/" ++ name).
Proof. exact (extract_of_github_url owner name rest). Qed.

Lemma extract_github_url_witness :
  ("octo" <> "" /\ "demo.git" <> "" /\ has_slash "octo" = false
   /\ has_slash "demo.git" = false
   /\ ("/tree/main" = "" \/ exists t, "/tree/main" = String "/"%char t))
  /\ ConsolePage.extractRepoFromUrl "https://github.com/octo/demo.git/tree/main"
     = Some "octo/demo.git".
Proof.
  assert (O : "octo" <> "") by discriminate.
  assert (N : "demo.git" <> "") by discriminate.
  assert (R : "/tree/main" = "" \/ exists t, "/tree/main" = String "/"%char t).
  { right. now exists "tree/main". }
  split.
  - split; [exact O | split; [exact N | split; [reflexivity | split; [reflexivity | exact R]]]].
  - exact (extract_github_url "octo" "demo.git" "/tree/main" O N eq_refl eq_refl R).
Defined.

Lemma is_slash_eq (c : ascii) : ConsolePage.is_slash c = true -> c = "/"%char.
Proof. unfold ConsolePage.is_slash. apply Ascii.eqb_eq. Qed.

Lemma split_spec (s : string) :
  ConsolePage.split s <> []
  /\ Forall (fun x => has_slash x = false) (ConsolePage.split s)
  /\ String.concat "/" (ConsolePage.split s) = s.
Proof.
  induction s as [|c s [Hne [Hall Hcat]]]; cbn.
  - split; [discriminate|]. split; [constructor; [reflexivity | constructor] | reflexivity].
  - destruct (ConsolePage.is_slash c) eqn:E.
    + apply is_slash_eq in E. subst c. split; [discriminate|]. split.
      * constructor; [reflexivity | exact Hall].
      * destruct (ConsolePage.split s) as [|x xs]; [contradiction|].
        cbn in *. now rewrite Hcat.
    + destruct (ConsolePage.split s) as [|first others]; [contradiction|].
      split; [discriminate|]. split.
      * inversion Hall; subst. constructor; [|assumption].
        unfold has_slash in *. cbn. now rewrite E.
      * destruct others as [|y ys]; cbn in *; now rewrite Hcat.
Qed.

Lemma split_whole (n : string) : has_slash n = false -> ConsolePage.split n = [n].
Proof.
  unfold has_slash. induction n as [|c n IH]; cbn; [reflexivity|].
  intros H. apply orb_false_iff in H. destruct H as [Hc Hn].
  rewrite Hc, (IH Hn). reflexivity.
Qed.

Lemma split_pair (o n : string) :
  has_slash o = false -> has_slash n = false ->
  ConsolePage.split (o ++ String "/"%char n) = [o; n].
Proof.
  intros Ho Hn. unfold has_slash in Ho. induction o as [|c o IH]; cbn.
  - now rewrite (split_whole n Hn).
  - cbn in Ho. apply orb_false_iff in Ho. destruct Ho as [Hc Ho].
    rewrite Hc, (IH Ho). reflexivity.
Qed.

(** X21. The [path] parameter of the console.  A parameter
    "<owner>/<name>" with both parts non-empty and free of slashes sets the
    repository field to "https://github.com/<owner>/<name>", and
    [extractRepoFromUrl] on that field returns the parameter.  Every other
    non-empty parameter is reported as invalid and leaves the field alone;
    a missing or empty parameter does nothing. *)
Theorem populate_then_extract :
  (forall owner name,
      owner <> "" -> name <> "" ->
      has_slash owner = false -> has_slash name = false ->
      ConsolePage.populate (Some (owner ++ "/" ++ name))
      = ConsolePage.Populated ("https://github.com/" ++ owner ++ "/" ++ name)
      /\ ConsolePage.extractRepoFromUrl ("https://github.com/" ++ owner ++ "/" ++ name)
         = Some (owner ++ "/" ++ name))
  /\ (forall path,
        path <> "" ->
        ~ (exists owner name,
              path = owner ++ "/" ++ name /\ owner <> "" /\ name <> ""
              /\ has_slash owner = false /\ has_slash name = false) ->
        ConsolePage.populate (Some path) = ConsolePage.InvalidPath)
  /\ ConsolePage.populate None = ConsolePage.Untouched
  /\ ConsolePage.populate (Some "") = ConsolePage.Untouched.
Proof.
  split; [|split; [|split; reflexivity]].
  - intros owner name Ho Hn So Sn. split.
    + assert (Hp : (owner ++ "/" ++ name =? "") = false).
      { apply String.eqb_neq. destruct owner; [contradiction | discriminate]. }
      unfold ConsolePage.populate. cbn [JS.truthy JS.template]. rewrite Hp. cbn [negb].
      change (owner ++ "/" ++ name) with (owner ++ String "/"%char name).
      rewrite (split_pair owner name So Sn).
      apply String.eqb_neq in Ho, Hn. now rewrite Ho, Hn.
    + pose proof (extract_of_github_url owner name "" Ho Hn So Sn (or_introl eq_refl)) as X.
      now rewrite (append_empty name) in X.
  - intros path Hp Hnot. apply String.eqb_neq in Hp.
    destruct (split_spec path) as [Hne [Hall Hcat]].
    unfold ConsolePage.populate. cbn. rewrite Hp. cbn.
    destruct (ConsolePage.split path) as [|owner [|name [|third more]]];
      try reflexivity.
    destruct (owner =? "") eqn:Eo; cbn; [reflexivity|].
    destruct (name =? "") eqn:En; cbn; [reflexivity|].
    apply String.eqb_neq in Eo, En.
    apply Forall_cons_iff in Hall. destruct Hall as [So Hrest].
    apply Forall_cons_iff in Hrest. destruct Hrest as [Sn _].
    cbn in Hcat. elim Hnot. exists owner, name.
    split; [now rewrite <- Hcat|]. repeat split; assumption.
Qed.

Lemma populate_then_extract_witness :
  ("octo" <> "" /\ "demo" <> "" /\ has_slash "octo" = false /\ has_slash "demo" = false
   /\ "octo/demo/docs" <> ""
   /\ ~ (exists owner name,
            "octo/demo/docs" = owner ++ "/" ++ name /\ owner <> "" /\ name <> ""
            /\ has_slash owner = false /\ has_slash name = false))
  /\ ConsolePage.populate (Some "octo/demo")
     = ConsolePage.Populated "https://github.com/octo/demo"
  /\ ConsolePage.extractRepoFromUrl "https://github.com/octo/demo" = Some "octo/demo"
  /\ ConsolePage.populate (Some "octo/demo/docs") = ConsolePage.InvalidPath.
Proof.
  assert (O : "octo" <> "") by discriminate.
  assert (D : "demo" <> "") by discriminate.
  assert (N : "octo/demo/docs" <> "") by discriminate.
  assert (X : ~ (exists owner name,
                    "octo/demo/docs" = owner ++ "/" ++ name /\ owner <> "" /\ name <> ""
                    /\ has_slash owner = false /\ has_slash name = false)).
  { intros [owner [name [E [_ [_ [So Sn]]]]]].
    pose proof (span_until_slash owner name So) as Hspan.
    change (owner ++ "/" ++ name) with (owner ++ String "/"%char name) in E.
    rewrite <- E in Hspan. cbn in Hspan. inversion Hspan; subst. discriminate Sn. }
  split.
  - split; [exact O | split; [exact D | split; [reflexivity | split; [reflexivity |]]]].
    split; [exact N | exact X].
  - destruct populate_then_extract as [accepted [refused _]].
    destruct (accepted "octo" "demo" O D eq_refl eq_refl) as [P E].
    split; [exact P | split; [exact E | exact (refused "octo/demo/docs" N X)]].
Defined.

(** ** The changelog page *)

Lemma has_slash_concat (a b : string) (rest : list string) :
  has_slash (String.concat "/" (a :: b :: rest)) = true.
Proof.
  cbn [String.concat]. rewrite has_slash_app.
  change ("/" ++ String.concat "/" (b :: rest))
    with (String "/"%char (String.concat "/" (b :: rest))).
  unfold has_slash at 2. cbn. apply orb_true_r.
Qed.

(** X22. The changelog page answers not-found exactly for a slug of fewer
    than two segments; with two or more it renders the segments joined by
    slashes, so its guard against the name "repos" never fires.  In
    particular it renders any path with a slash in it from that path's
    segments. *)
Theorem ChangelogPage_renders (slug : list string) :
  (length slug < 2 -> SlugPage.ChangelogPage slug = None)
  /\ (2 <= length slug ->
      SlugPage.ChangelogPage slug = Some (String.concat "/" slug))
  /\ (forall path, has_slash path = true ->
        SlugPage.ChangelogPage (ConsolePage.split path) = Some path).
Proof.
  assert (R : forall a b rest,
             SlugPage.ChangelogPage (a :: b :: rest)
             = Some (String.concat "/" (a :: b :: rest))).
  { intros a b rest. unfold SlugPage.ChangelogPage. cbn [length Nat.ltb Nat.leb].
    destruct (String.concat "/" (a :: b :: rest) =? "repos") eqn:E; [|reflexivity].
    apply String.eqb_eq in E. pose proof (has_slash_concat a b rest) as H.
    rewrite E in H. discriminate. }
  split; [|split].
  - intros H. unfold SlugPage.ChangelogPage.
    destruct slug as [|a [|b rest]]; cbn in *; try reflexivity; lia.
  - intros H. destruct slug as [|a [|b rest]]; cbn in H; try lia. apply R.
  - intros path H. destruct (split_spec path) as [Hne [Hall Hcat]].
    destruct (ConsolePage.split path) as [|a [|b rest]]; [contradiction | |].
    + cbn in Hcat. subst a. inversion Hall; subst. congruence.
    + rewrite R. now rewrite Hcat.
Qed.

Lemma ChangelogPage_renders_witness :
  (2 <= length ["octo"; "demo"] /\ has_slash "octo/demo" = true /\ length ["repos"] < 2)
  /\ SlugPage.ChangelogPage ["octo"; "demo"] = Some "octo/demo"
  /\ SlugPage.ChangelogPage (ConsolePage.split "octo/demo") = Some "octo/demo"
  /\ SlugPage.ChangelogPage ["repos"] = None.
Proof.
  assert (L : 2 <= length ["octo"; "demo"]) by (cbn; lia).
  assert (K : length ["repos"] < 2) by (cbn; lia).
  split; [split; [exact L | split; [reflexivity | exact K]]|].
  split; [|split].
  - exact (proj1 (proj2 (ChangelogPage_renders ["octo"; "demo"])) L).
  - exact (proj2 (proj2 (ChangelogPage_renders [])) "octo/demo" eq_refl).
  - exact (proj1 (ChangelogPage_renders ["repos"]) K).
Defined.

(** ** The console against the two routes *)

Lemma parse_mode_name (m : Mode) : Generate.parse_mode (ConsolePage.mode_name m) = Some m.
Proof. now destruct m. Qed.

Lemma console_generate_parses (payload : Console.GeneratePayload) (w : World) :
  Console.pl_repo payload <> "" ->
  Generate.generateSchema_parse (ConsolePage.generateChangelogDraft payload) w
  = (Ret {| Generate.v_repo := Console.pl_repo payload;
            Generate.v_branch := Console.pl_branch payload;
            Generate.v_mode := Console.pl_mode payload;
            Generate.v_params := Console.pl_params payload |}, w).
Proof.
  intros H. apply String.eqb_neq in H.
  unfold Generate.generateSchema_parse, ConsolePage.generateChangelogDraft.
  destruct payload as [repo0 branch0 [] params]; cbn in *; now rewrite H.
Qed.

Lemma console_publish_parses (payload : Console.GeneratePayload) (md : string)
      (range : ConsolePage.ShaRangeState) (w : World) :
  Console.pl_repo payload <> "" -> md <> "" ->
  ConsolePage.sr_baseSha range <> "" -> ConsolePage.sr_headSha range <> "" ->
  ConsolePage.sr_commits_list range <> [] ->
  Releases.createReleaseSchema_parse (ConsolePage.publishChangelog payload md range) w
  = (Ret {| Releases.v_repo := Console.pl_repo payload;
            Releases.v_branch := Console.pl_branch payload;
            Releases.v_mode := Console.pl_mode payload;
            Releases.v_baseSha := ConsolePage.sr_baseSha range;
            Releases.v_headSha := ConsolePage.sr_headSha range;
            Releases.v_markdown := md;
            Releases.v_commits_list := ConsolePage.sr_commits_list range;
            Releases.v_originalParams := Some (Console.pl_params payload) |}, w).
Proof.
  intros Hr Hm Hb Hh Hc. apply String.eqb_neq in Hr, Hm, Hb, Hh.
  unfold Releases.createReleaseSchema_parse, ConsolePage.publishChangelog, Releases.min1.
  destruct (ConsolePage.sr_commits_list range) as [|c l]; [contradiction|].
  destruct payload as [repo0 branch0 [] params]; cbn in *;
    rewrite Hr, Hm, Hb, Hh; reflexivity.
Qed.

(** X23. Draft, publish, draft again: the second draft is refused.  When the
    console's generate request resolves, fetches commits whose dates the
    engine reads, meets no overlap and gets an answer from the generator, it
    is answered 200 with a draft; publishing that draft (with any non-empty
    markdown, a non-empty resolved pair and dates the store accepts) through
    the console is answered 201, and the same generate request sent
    afterwards is answered 400 with the overlap message. *)
Theorem draft_publish_then_blocked (gh : GitHub) (js : Engine) (ai : OpenAI) (pg : Postgres)
        (isoDay : string -> string) (w : World) (payload : Console.GeneratePayload)
        (md : string) (range : ShaRange) (fetched : list Commit) (content : option string) :
  rearranges js ->
  configured_generate (env w) = true ->
  configured_releases (env w) = true ->
  Console.pl_repo payload <> "" ->
  let r := Console.pl_repo payload in
  let b := Console.pl_branch payload in
  let request := ConsolePage.generateChangelogDraft payload in
  fst (Generate.convertToShaRange gh r b (Console.pl_mode payload) (Console.pl_params payload))
  = Ret range ->
  fst (Generate.fetchCommits gh r b (Console.pl_mode payload) (Console.pl_params payload))
  = Ret fetched ->
  fetched <> [] ->
  ~ overlap_in_scope (db w) r b (map sha fetched) ->
  dates_read js fetched ->
  chat_completions_create ai (map Generate.commitSummary fetched) = Ret content ->
  md <> "" -> baseSha range <> "" -> headSha range <> "" ->
  (forall date, JS.truthy date = true ->
                date = p_start (Console.pl_params payload)
                \/ date = p_end (Console.pl_params payload) ->
                Supabase.column_ok pg date = true) ->
  exists draft w1 publish created w2,
    Generate.POST gh js ai request w = (Ret {| status := 200; json := Document draft |}, w1)
    /\ ConsolePage.handlePublish (Some payload) md (Some (ConsolePage.setShaRange draft))
       = Some publish
    /\ Releases.POST isoDay pg publish w1
       = (Ret {| status := 201; json := Document created |}, w2)
    /\ Releases.r_markdown created = md
    /\ fst (Generate.POST gh js ai request w2)
       = Ret {| status := 400; json := Problem Generate.overlapMessage |}.
Proof.
  intros Hjs Hgen Hrel Hrepo r b request Hrange Hfetch Hne Hfree Hread Hchat Hmd Hbase
         Hhead Hdates.
  pose proof (console_generate_parses payload) as Hparse.
  eexists. eexists. eexists. eexists. eexists.
  split.
  { exact (generate_drafts_run gh js ai w request _ range fetched content
             Hjs Hgen (Hparse w Hrepo) Hrange Hfetch Hne Hfree Hread Hchat). }
  split; [reflexivity|].
  set (w1 := {| env := env w; db := db w; trace := _ |}).
  set (sr := ConsolePage.setShaRange _).
  assert (Hlist : ConsolePage.sr_commits_list sr <> []).
  { cbn. destruct fetched; [contradiction | discriminate]. }
  pose proof (console_publish_parses payload md sr w1 Hrepo Hmd Hbase Hhead Hlist) as Hpub.
  match type of Hpub with _ = (Ret ?x, _) => set (v := x) in * end.
  assert (Hok : Supabase.column_ok pg (ins_start_date (Releases.insertData v))
                && Supabase.column_ok pg (ins_end_date (Releases.insertData v)) = true).
  { apply andb_true_iff. split; cbn.
    - destruct (JS.truthy (p_start (Console.pl_params payload))) eqn:E; [|reflexivity].
      apply Hdates; [exact E | now left].
    - destruct (JS.truthy (p_end (Console.pl_params payload))) eqn:E; [|reflexivity].
      apply Hdates; [exact E | now right]. }
  split; [exact (publish_run isoDay pg w1 _ v Hrel Hpub Hok)|].
  split; [reflexivity|].
  match goal with |- context [Generate.POST gh js ai request ?x] => set (w2 := x) end.
  destruct (generate_overlap_run gh js ai w2 request _ fetched Hgen (Hparse w2 Hrepo) Hfetch)
    as [sent Hrun].
  - exists (Supabase.new_row pg (serial (db w1)) (Releases.insertData v)).
    split; [cbn; apply in_or_app; right; now left|].
    split; [reflexivity|]. split; [reflexivity|].
    destruct fetched as [|c rest]; [contradiction|].
    exists (sha c). split; cbn; now left.
  - now rewrite Hrun.
Qed.

Lemma draft_publish_then_blocked_witness :
  let payload := {| Console.pl_repo := "octo/demo"; Console.pl_branch := "main";
                    Console.pl_mode := Tag;
                    Console.pl_params := {| p_start := None; p_end := None;
                                            p_base := Some "v1.0.0";
                                            p_head := Some "HEAD" |} |} in
  let request := ConsolePage.generateChangelogDraft payload in
  (rearranges Demo.js
   /\ configured_generate (env Demo.empty) = true
   /\ configured_releases (env Demo.empty) = true
   /\ fst (Generate.fetchCommits Fixtures.stamped "octo/demo" "main" Tag
             (Console.pl_params payload))
      = Ret [Fixtures.s3; Fixtures.s2]
   /\ ~ overlap_in_scope (db Demo.empty) "octo/demo" "main" ["a3"; "a2"]
   /\ dates_read Demo.js [Fixtures.s3; Fixtures.s2])
  /\ exists draft w1 publish created w2,
       Generate.POST Fixtures.stamped Demo.js Demo.ai request Demo.empty
       = (Ret {| status := 200; json := Document draft |}, w1)
       /\ ConsolePage.handlePublish (Some payload) "# Edited"
            (Some (ConsolePage.setShaRange draft)) = Some publish
       /\ Releases.POST Demo.isoDay Demo.pg publish w1
          = (Ret {| status := 201; json := Document created |}, w2)
       /\ Releases.r_markdown created = "# Edited"
       /\ fst (Generate.POST Fixtures.stamped Demo.js Demo.ai request w2)
          = Ret {| status := 400; json := Problem Generate.overlapMessage |}.
Proof.
  intros payload request.
  assert (F : ~ overlap_in_scope (db Demo.empty) "octo/demo" "main" ["a3"; "a2"]).
  { intros [row [[] _]]. }
  assert (R : "octo/demo" <> "") by discriminate.
  assert (N : [Fixtures.s3; Fixtures.s2] <> []) by discriminate.
  assert (D : dates_read Demo.js [Fixtures.s3; Fixtures.s2]).
  { repeat constructor; discriminate. }
  assert (M : "# Edited" <> "") by discriminate.
  assert (B : "a1" <> "") by discriminate.
  assert (H : "HEAD" <> "") by discriminate.
  split.
  - split; [exact demo_engine_rearranges|].
    split; [reflexivity | split; [reflexivity | split; [reflexivity |]]].
    split; [exact F | exact D].
  - refine (draft_publish_then_blocked Fixtures.stamped Demo.js Demo.ai Demo.pg Demo.isoDay
              Demo.empty payload "# Edited" {| baseSha := "a1"; headSha := "HEAD" |}
              [Fixtures.s3; Fixtures.s2] (Some "# Release v1.1.0")
              demo_engine_rearranges eq_refl eq_refl R eq_refl eq_refl N F D eq_refl
              M B H _).
    intros date Ht [->| ->]; discriminate.
Defined.

Lemma or_else_truthy (v : option string) (d : string) :
  d <> "" -> JS.truthy (Some (JS.or_else v d)) = true.
Proof.
  intros H. cbn. apply negb_true_iff, String.eqb_neq. now apply or_else_nonempty.
Qed.

(** X24. A request the console form builds never lacks what its mode needs.
    Whenever [handleGenerate] builds a payload (instead of showing a toast),
    the repo is non-empty, so the generate schema accepts the request, and
    the fields the resolver insists on are present and non-empty: both
    dates in date mode (given that the ISO rendering of a date is never
    empty), base and head in tag and sha mode, the head being "HEAD" when
    the form's head field is empty. *)
Theorem console_requests_are_complete (toISOString : string -> string)
        (repo : option string) (f : Console.Form) (payload : Console.GeneratePayload) :
  (forall s, toISOString s <> "") ->
  Console.handleGenerate_payload toISOString repo f = inr payload ->
  Console.pl_repo payload <> ""
  /\ Console.pl_mode payload = Console.rangeType f
  /\ (forall w, exists v,
        Generate.generateSchema_parse (ConsolePage.generateChangelogDraft payload) w
        = (Ret v, w)
        /\ Generate.v_mode v = Console.rangeType f
        /\ Generate.v_params v = Console.pl_params payload)
  /\ match Console.rangeType f with
     | Date => JS.truthy (p_start (Console.pl_params payload)) = true
               /\ JS.truthy (p_end (Console.pl_params payload)) = true
     | Tag | Sha => JS.truthy (p_base (Console.pl_params payload)) = true
                    /\ JS.truthy (p_head (Console.pl_params payload)) = true
     end.
Proof.
  intros Hiso H. unfold Console.handleGenerate_payload, Console.nonempty in H.
  destruct (JS.truthy repo) eqn:Er; cbn in H; [|discriminate].
  assert (Hrepo : JS.template repo <> "").
  { destruct repo as [s|]; cbn in *; [|discriminate].
    apply negb_true_iff in Er. now apply String.eqb_neq. }
  assert (Hhead : "HEAD" <> "") by discriminate.
  destruct (Console.rangeType f) eqn:Em.
  - destruct (Console.startDate f =? ""); cbn in H; [discriminate|].
    destruct (Console.endDate f =? ""); cbn in H; [discriminate|].
    inversion H; subst payload; clear H. cbn.
    split; [exact Hrepo|]. split; [reflexivity|]. split.
    + intros w. eexists. split; [apply console_generate_parses; exact Hrepo|].
      cbn. split; [reflexivity | reflexivity].
    + split; apply negb_true_iff, String.eqb_neq, Hiso.
  - destruct (Console.baseSha f =? "") eqn:Eb; cbn in H; [discriminate|].
    inversion H; subst payload; clear H.
    split; [exact Hrepo|]. split; [reflexivity|]. split.
    + intros w. eexists. split; [apply console_generate_parses; exact Hrepo|].
      cbn. split; [reflexivity | reflexivity].
    + cbn [Console.pl_params p_base p_head]. split.
      * cbn. now rewrite Eb.
      * exact (or_else_truthy (Some (Console.headSha f)) "HEAD" Hhead).
  - destruct (Console.baseTag f =? "") eqn:Eb; cbn in H; [discriminate|].
    inversion H; subst payload; clear H.
    split; [exact Hrepo|]. split; [reflexivity|]. split.
    + intros w. eexists. split; [apply console_generate_parses; exact Hrepo|].
      cbn. split; [reflexivity | reflexivity].
    + cbn [Console.pl_params p_base p_head]. split.
      * cbn. now rewrite Eb.
      * exact (or_else_truthy (Some (Console.headTag f)) "HEAD" Hhead).
Qed.

Lemma console_requests_are_complete_witness :
  let form := {| Console.branch := "main"; Console.rangeType := Sha;
                 Console.startDate := ""; Console.endDate := "";
                 Console.baseTag := ""; Console.headTag := "";
                 Console.baseSha := "a1"; Console.headSha := "" |} in
  let payload := {| Console.pl_repo := "octo/demo"; Console.pl_branch := "main";
                    Console.pl_mode := Sha;
                    Console.pl_params := {| p_start := None; p_end := None;
                                            p_base := Some "a1";
                                            p_head := Some "HEAD" |} |} in
  ((forall s, (s ++ "T00:00:00.000Z") <> "")
   /\ Console.handleGenerate_payload (fun s => s ++ "T00:00:00.000Z")
        (Some "octo/demo") form = inr payload)
  /\ Console.pl_repo payload <> ""
  /\ JS.truthy (p_head (Console.pl_params payload)) = true.
Proof.
  intros form payload.
  assert (I : forall s, (s ++ "T00:00:00.000Z") <> "").
  { intros s E. destruct s; discriminate. }
  split; [split; [exact I | reflexivity]|].
  destruct (console_requests_are_complete (fun s => s ++ "T00:00:00.000Z")
              (Some "octo/demo") form payload I eq_refl) as [R [_ [_ [_ H]]]].
  split; [exact R | exact H].
Defined.
